(** * gauthctl: the state-file lifecycle of the gauth PAM helper

    A shallow embedding of [src/gauthctl.c].  The C program talks to the
    operating system through a handful of calls ([unlink], [open], [read],
    [write], [close], [rename], [fopen], [umask], [getuid], [getpwuid],
    [malloc], the PAM library and [getopt_long]).  Each of them is modelled
    as a step of a state monad over a [world]: the files under the state
    directory, the descriptor table, the bytes waiting on descriptor 3, the
    identity of the process, and the scripts that say which calls the
    system refuses.  The functions of the program ([usage], [get_user],
    [authenticate], [get_state_path], [enable], [disable], [status],
    [main]) are then transcribed line by line on top of these steps.

    What the model assumes:
    - one process at a time: nobody else changes the files while the
      program runs;
    - the files are regular files and a path is the name of a file:
      [.], [..] and links are not resolved.  What decides a call from
      outside these files (a directory or a device at the path, a
      directory that may not be searched, a read-only or full disk) is
      given by the scripts: they say which calls are refused and which
      [fopen] finds something other than a regular file to open;
    - a new file gets the effective group of the process: the state
      directory is not set-group-id;
    - the PAM library answers each call with a return code and may
      converse on the standard streams; whatever else its modules do is
      not modelled;
    - reading the local [ret] of [main] before it is assigned yields a
      number chosen by the environment;
    - a C string is a [string]; it cannot hold a NUL;
    - [char] is signed, so that the -1 of [getopt_long] ends the option
      loop, and POSIXLY_CORRECT is not set, so that [getopt_long]
      permutes operands to the end;
    - what descriptor 3 delivers is finite. *)

From Stdlib Require Import ZArith List Strings.Byte Strings.Ascii Lia.
From stdpp Require Import gmap strings list.

Open Scope Z_scope.

(** ** Data model *)

(** Errors a call can be refused with for reasons that lie outside the
    modelled state (permissions of the directory, a full or read-only
    disk, an I/O error, a signal, a file-size limit). *)
Inductive ioerr :=
| EACCES | EPERM | EIO | ENOSPC | EROFS | EISDIR | EINTR | EFBIG | EDQUOT.

(** [errno] values.  [E0] is the value 0 that [errno] holds when the
    program starts.  [ENOENT], [EEXIST], [EBADF], [EFAULT] and [ENOMEM]
    are produced by the model itself; the others are injected. *)
Inductive errno :=
| E0
| ENOENT | EEXIST | EBADF | EFAULT | ENOMEM
| Eio (e : ioerr).

Coercion Eio : ioerr >-> errno.

Definition errno_eqb (a b : errno) : bool :=
  match a, b with
  | E0, E0
  | ENOENT, ENOENT | EEXIST, EEXIST | EBADF, EBADF
  | EFAULT, EFAULT | ENOMEM, ENOMEM => true
  | Eio x, Eio y =>
      match x, y with
      | EACCES, EACCES | EPERM, EPERM | EIO, EIO | ENOSPC, ENOSPC
      | EROFS, EROFS | EISDIR, EISDIR | EINTR, EINTR | EFBIG, EFBIG
      | EDQUOT, EDQUOT => true
      | _, _ => false
      end
  | _, _ => false
  end.

Definition strerror (e : errno) : string :=
  match e with
  | E0 => "Success"
  | ENOENT => "No such file or directory"
  | EEXIST => "File exists"
  | EBADF => "Bad file descriptor"
  | EFAULT => "Bad address"
  | ENOMEM => "Cannot allocate memory"
  | Eio EACCES => "Permission denied"
  | Eio EPERM => "Operation not permitted"
  | Eio EIO => "Input/output error"
  | Eio ENOSPC => "No space left on device"
  | Eio EROFS => "Read-only file system"
  | Eio EISDIR => "Is a directory"
  | Eio EINTR => "Interrupted system call"
  | Eio EFBIG => "File too large"
  | Eio EDQUOT => "Disk quota exceeded"
  end.

(** A regular file: its bytes, its permission bits, its owner and its
    group. *)
Record file := mkFile {
  f_data : list byte;
  f_mode : Z;
  f_owner : Z;
  f_group : Z
}.

(** What one [read] on descriptor 3 finds: bytes that have arrived (an
    empty list is a zero-length read), or an error. *)
Inductive rd_event :=
| RdData (bs : list byte)
| RdErr (e : errno).

(** What the system does with one [write]: take everything, take only the
    first [n] bytes (a short write), or refuse. *)
Inductive wr_outcome :=
| WrFull
| WrShort (n : nat)
| WrErr (e : ioerr).

(** What lies outside the regular files and their permission bits can
    decide an [fopen(path, "r")].  [FoOther]: the call succeeds on
    something else, since the path names a directory or a device, which
    opens for reading like a file, or an access-control list lets the
    process in.  [FoRefused]: the call is refused (a directory on the way
    may not be searched, no descriptor is left).  [FoModel]: neither, the
    regular files decide. *)
Inductive fopen_outcome :=
| FoModel
| FoOther
| FoRefused (e : ioerr).

(** Result of a call as it is logged: the value returned, or the error. *)
Inductive sysres :=
| Ok (v : Z)
| Err (e : errno).

(** The calls that touch the file system or the descriptor table, in the
    order the process issues them. *)
Inductive event :=
| EvUmask (mask : Z)
| EvFopen (path : string) (opened : bool)
| EvUnlink (path : option string) (r : sysres)
| EvOpen (path : string) (flags mode : Z) (r : sysres)
| EvRead (fd : Z) (r : sysres)
| EvWrite (fd : Z) (req : nat) (r : sysres)
| EvClose (fd : Z)
| EvRename (src dst : string) (r : sysres).

(** What the PAM library answers to the four calls made by
    [authenticate]: their return codes, and what the conversation
    function ([misc_conv]) writes while [pam_authenticate] and
    [pam_acct_mgmt] run, as a pair of the lines for standard output
    (informational text) and for standard error (prompts and error
    messages).  What the conversation reads comes from the terminal, which
    is not part of the model. *)
Record pam_env := mkPam {
  pam_start_ret : Z;
  pam_authenticate_ret : Z;
  pam_acct_mgmt_ret : Z;
  pam_end_ret : Z;
  pam_authenticate_conv : list string * list string;
  pam_acct_mgmt_conv : list string * list string
}.

Record world := mkWorld {
  w_files : gmap string file;      (* path -> regular file *)
  w_fds : gmap Z string;           (* descriptors open for writing *)
  w_input : list rd_event;         (* what descriptor 3 delivers *)
  w_umask : Z;
  w_ruid : Z;                      (* real user id *)
  w_euid : Z;                      (* effective user id *)
  w_egid : Z;                      (* effective group id *)
  w_groups : list Z;               (* supplementary group ids *)
  w_passwd : gmap Z string;        (* password database: uid -> name *)
  w_getpw_errno : option errno;    (* errno left by a failed lookup, if any *)
  w_errno : errno;
  w_malloc_fail : list bool;       (* per malloc: true = NULL *)
  w_unlink_err : list (option ioerr);
  w_open_err : list (option ioerr);
  w_fopen_res : list fopen_outcome;(* per fopen *)
  w_write_res : list wr_outcome;
  w_rename_err : list (option ioerr);
  w_pam : pam_env;
  w_stdout : list string;
  w_stderr : list string;
  w_trace : list event
}.

(** Field updates. *)
Definition set_files (v : gmap string file) (w : world) : world :=
  mkWorld v (w_fds w) (w_input w) (w_umask w) (w_ruid w) (w_euid w)
    (w_egid w) (w_groups w) (w_passwd w) (w_getpw_errno w) (w_errno w)
    (w_malloc_fail w) (w_unlink_err w) (w_open_err w) (w_fopen_res w)
    (w_write_res w) (w_rename_err w) (w_pam w) (w_stdout w) (w_stderr w)
    (w_trace w).

Definition set_fds (v : gmap Z string) (w : world) : world :=
  mkWorld (w_files w) v (w_input w) (w_umask w) (w_ruid w) (w_euid w)
    (w_egid w) (w_groups w) (w_passwd w) (w_getpw_errno w) (w_errno w)
    (w_malloc_fail w) (w_unlink_err w) (w_open_err w) (w_fopen_res w)
    (w_write_res w) (w_rename_err w) (w_pam w) (w_stdout w) (w_stderr w)
    (w_trace w).

Definition set_input (v : list rd_event) (w : world) : world :=
  mkWorld (w_files w) (w_fds w) v (w_umask w) (w_ruid w) (w_euid w)
    (w_egid w) (w_groups w) (w_passwd w) (w_getpw_errno w) (w_errno w)
    (w_malloc_fail w) (w_unlink_err w) (w_open_err w) (w_fopen_res w)
    (w_write_res w) (w_rename_err w) (w_pam w) (w_stdout w) (w_stderr w)
    (w_trace w).

Definition set_umask (v : Z) (w : world) : world :=
  mkWorld (w_files w) (w_fds w) (w_input w) v (w_ruid w) (w_euid w)
    (w_egid w) (w_groups w) (w_passwd w) (w_getpw_errno w) (w_errno w)
    (w_malloc_fail w) (w_unlink_err w) (w_open_err w) (w_fopen_res w)
    (w_write_res w) (w_rename_err w) (w_pam w) (w_stdout w) (w_stderr w)
    (w_trace w).

Definition set_errno (v : errno) (w : world) : world :=
  mkWorld (w_files w) (w_fds w) (w_input w) (w_umask w) (w_ruid w)
    (w_euid w) (w_egid w) (w_groups w) (w_passwd w) (w_getpw_errno w) v
    (w_malloc_fail w) (w_unlink_err w) (w_open_err w) (w_fopen_res w)
    (w_write_res w) (w_rename_err w) (w_pam w) (w_stdout w) (w_stderr w)
    (w_trace w).

Definition set_malloc_fail (v : list bool) (w : world) : world :=
  mkWorld (w_files w) (w_fds w) (w_input w) (w_umask w) (w_ruid w)
    (w_euid w) (w_egid w) (w_groups w) (w_passwd w) (w_getpw_errno w)
    (w_errno w) v (w_unlink_err w) (w_open_err w) (w_fopen_res w)
    (w_write_res w) (w_rename_err w) (w_pam w) (w_stdout w) (w_stderr w)
    (w_trace w).

Definition set_unlink_err (v : list (option ioerr)) (w : world) : world :=
  mkWorld (w_files w) (w_fds w) (w_input w) (w_umask w) (w_ruid w)
    (w_euid w) (w_egid w) (w_groups w) (w_passwd w) (w_getpw_errno w)
    (w_errno w) (w_malloc_fail w) v (w_open_err w) (w_fopen_res w)
    (w_write_res w) (w_rename_err w) (w_pam w) (w_stdout w) (w_stderr w)
    (w_trace w).

Definition set_open_err (v : list (option ioerr)) (w : world) : world :=
  mkWorld (w_files w) (w_fds w) (w_input w) (w_umask w) (w_ruid w)
    (w_euid w) (w_egid w) (w_groups w) (w_passwd w) (w_getpw_errno w)
    (w_errno w) (w_malloc_fail w) (w_unlink_err w) v (w_fopen_res w)
    (w_write_res w) (w_rename_err w) (w_pam w) (w_stdout w) (w_stderr w)
    (w_trace w).

Definition set_fopen_res (v : list fopen_outcome) (w : world) : world :=
  mkWorld (w_files w) (w_fds w) (w_input w) (w_umask w) (w_ruid w)
    (w_euid w) (w_egid w) (w_groups w) (w_passwd w) (w_getpw_errno w)
    (w_errno w) (w_malloc_fail w) (w_unlink_err w) (w_open_err w) v
    (w_write_res w) (w_rename_err w) (w_pam w) (w_stdout w) (w_stderr w)
    (w_trace w).

Definition set_write_res (v : list wr_outcome) (w : world) : world :=
  mkWorld (w_files w) (w_fds w) (w_input w) (w_umask w) (w_ruid w)
    (w_euid w) (w_egid w) (w_groups w) (w_passwd w) (w_getpw_errno w)
    (w_errno w) (w_malloc_fail w) (w_unlink_err w) (w_open_err w)
    (w_fopen_res w) v (w_rename_err w) (w_pam w) (w_stdout w) (w_stderr w)
    (w_trace w).

Definition set_rename_err (v : list (option ioerr)) (w : world) : world :=
  mkWorld (w_files w) (w_fds w) (w_input w) (w_umask w) (w_ruid w)
    (w_euid w) (w_egid w) (w_groups w) (w_passwd w) (w_getpw_errno w)
    (w_errno w) (w_malloc_fail w) (w_unlink_err w) (w_open_err w)
    (w_fopen_res w) (w_write_res w) v (w_pam w) (w_stdout w) (w_stderr w)
    (w_trace w).

Definition set_stdout (v : list string) (w : world) : world :=
  mkWorld (w_files w) (w_fds w) (w_input w) (w_umask w) (w_ruid w)
    (w_euid w) (w_egid w) (w_groups w) (w_passwd w) (w_getpw_errno w)
    (w_errno w) (w_malloc_fail w) (w_unlink_err w) (w_open_err w)
    (w_fopen_res w) (w_write_res w) (w_rename_err w) (w_pam w) v
    (w_stderr w) (w_trace w).

Definition set_stderr (v : list string) (w : world) : world :=
  mkWorld (w_files w) (w_fds w) (w_input w) (w_umask w) (w_ruid w)
    (w_euid w) (w_egid w) (w_groups w) (w_passwd w) (w_getpw_errno w)
    (w_errno w) (w_malloc_fail w) (w_unlink_err w) (w_open_err w)
    (w_fopen_res w) (w_write_res w) (w_rename_err w) (w_pam w) (w_stdout w)
    v (w_trace w).

Definition log (ev : event) (w : world) : world :=
  mkWorld (w_files w) (w_fds w) (w_input w) (w_umask w) (w_ruid w)
    (w_euid w) (w_egid w) (w_groups w) (w_passwd w) (w_getpw_errno w)
    (w_errno w) (w_malloc_fail w) (w_unlink_err w) (w_open_err w)
    (w_fopen_res w) (w_write_res w) (w_rename_err w) (w_pam w) (w_stdout w)
    (w_stderr w) (w_trace w ++ [ev]).

(** ** The state monad of the process *)

Definition M (A : Type) : Type := world -> A * world.

#[global] Instance M_ret : MRet M := λ A a w, (a, w).

#[global] Instance M_bind : MBind M :=
  λ A B k m w, let (a, w1) := m w in k a w1.

(** Take the next entry of a script; an exhausted script refuses nothing. *)
Definition pop {A} (l : list A) : option A * list A :=
  match l with
  | [] => (None, [])
  | x :: rest => (Some x, rest)
  end.

(** ** Constants of the C library and the kernel interface *)

Definition O_WRONLY : Z := 1.
Definition O_CREAT : Z := 64.    (* 0100 *)
Definition O_EXCL : Z := 128.    (* 0200 *)
Definition mode_0600 : Z := 384.
Definition mode_0777 : Z := 511.
Definition mask_077 : Z := 63.
Definition PAM_SUCCESS : Z := 0.
Definition PAM_AUTH_ERR : Z := 7.
Definition PAM_ACCT_EXPIRED : Z := 13.
Definition BUFSIZE : nat := 4096.

(** The newline character of the C string literals. *)
Definition nl : string := String (Ascii.ascii_of_nat 10) EmptyString.

(** ** Standard streams *)

Definition print (s : string) : M unit :=
  fun w => (tt, set_stdout (w_stdout w ++ [s]) w).

Definition eprint (s : string) : M unit :=
  fun w => (tt, set_stderr (w_stderr w ++ [s]) w).

(** [perror(msg)]: one line on standard error, built from [errno]. *)
Definition perror (msg : string) : M unit :=
  fun w => eprint (msg +:+ ": " +:+ strerror (w_errno w) +:+ nl) w.

Definition get_errno : M errno := fun w => (w_errno w, w).

(** ** System calls *)

(** Permission to open for reading: root reads everything; the owner
    needs the owner-read bit (bit 8); a process whose effective group or
    one of whose supplementary groups is the group of the file needs the
    group-read bit (bit 5); anybody else the other-read bit (bit 2).  The
    first class that applies decides. *)
Definition readable (euid egid : Z) (groups : list Z) (f : file) : bool :=
  (euid =? 0)
  || (if f_owner f =? euid then Z.testbit (f_mode f) 8
      else if (f_group f =? egid) || existsb (Z.eqb (f_group f)) groups
           then Z.testbit (f_mode f) 5
           else Z.testbit (f_mode f) 2).

(** [malloc]: fails (NULL, [ENOMEM]) when the script says so. *)
Definition malloc : M bool := fun w =>
  match pop (w_malloc_fail w) with
  | (Some true, rest) => (false, set_errno ENOMEM (set_malloc_fail rest w))
  | (_, rest) => (true, set_malloc_fail rest w)
  end.

Definition sys_umask (mask : Z) : M unit := fun w =>
  (tt, log (EvUmask mask) (set_umask (Z.land mask mode_0777) w)).

Definition getuid : M Z := fun w => (w_ruid w, w).

(** [getpwuid(uid)]: the entry of the password database, or NULL.  When
    there is no entry [errno] stays as it was, unless the lookup itself
    set it ([w_getpw_errno]). *)
Definition getpwuid (uid : Z) : M (option string) := fun w =>
  match w_passwd w !! uid with
  | Some name => (Some name, w)
  | None =>
      (None, match w_getpw_errno w with
             | Some e => set_errno e w
             | None => w
             end)
  end.

(** [unlink(path)].  A NULL path is [EFAULT].  Otherwise the call removes
    the file, reports [ENOENT] when there is none, or is refused with the
    injected error, which leaves the file system as it is. *)
Definition sys_unlink (path : option string) : M Z := fun w =>
  match path with
  | None => (-1, log (EvUnlink path (Err EFAULT)) (set_errno EFAULT w))
  | Some p =>
      let (flt, rest) := pop (w_unlink_err w) in
      let w := set_unlink_err rest w in
      match flt with
      | Some (Some e) => (-1, log (EvUnlink path (Err e)) (set_errno e w))
      | _ =>
          match w_files w !! p with
          | None => (-1, log (EvUnlink path (Err ENOENT)) (set_errno ENOENT w))
          | Some _ =>
              (0, log (EvUnlink path (Ok 0)) (set_files (delete p (w_files w)) w))
          end
      end
  end.

(** Lowest descriptor number not in use; 0-2 are the standard streams and
    3 is the input descriptor. *)
Fixpoint lowest_free (fds : gmap Z string) (n : nat) (cand : Z) : Z :=
  match n with
  | O => cand
  | S n' =>
      match fds !! cand with
      | Some _ => lowest_free fds n' (cand + 1)
      | None => cand
      end
  end.

Definition next_fd (fds : gmap Z string) : Z := lowest_free fds (size fds) 4.

(** [open(path, flags, mode)] for writing.  With [O_CREAT] a missing file
    is created empty with permission bits [mode & ~umask], owned by the
    effective user and group; with [O_CREAT|O_EXCL] an existing file is
    [EEXIST]. *)
Definition sys_open (path : string) (flags mode : Z) : M Z := fun w =>
  let (flt, rest) := pop (w_open_err w) in
  let w := set_open_err rest w in
  match flt with
  | Some (Some e) => (-1, log (EvOpen path flags mode (Err e)) (set_errno e w))
  | _ =>
      let fd := next_fd (w_fds w) in
      match w_files w !! path with
      | Some _ =>
          if Z.testbit flags 6 && Z.testbit flags 7 then
            (-1, log (EvOpen path flags mode (Err EEXIST)) (set_errno EEXIST w))
          else
            (fd, log (EvOpen path flags mode (Ok fd))
                   (set_fds (<[fd := path]> (w_fds w)) w))
      | None =>
          if Z.testbit flags 6 then
            let f := mkFile [] (Z.land mode (Z.lnot (w_umask w)))
                       (w_euid w) (w_egid w) in
            (fd, log (EvOpen path flags mode (Ok fd))
                   (set_fds (<[fd := path]> (w_fds w))
                      (set_files (<[path := f]> (w_files w)) w)))
          else
            (-1, log (EvOpen path flags mode (Err ENOENT)) (set_errno ENOENT w))
      end
  end.

(** [read(fd, buf, count)]: returns the count and the bytes placed in
    [buf].  Only descriptor 3 is readable.  At most [count] bytes of what
    has arrived are returned; the rest stays for the next call.  With
    nothing left the read has length zero. *)
Definition sys_read (fd : Z) (count : nat) : M (Z * list byte) := fun w =>
  if fd =? 3 then
    match w_input w with
    | [] => ((0, []), log (EvRead fd (Ok 0)) w)
    | RdErr e :: rest =>
        ((-1, []), log (EvRead fd (Err e)) (set_errno e (set_input rest w)))
    | RdData bs :: rest =>
        if (length bs <=? count)%nat then
          ((Z.of_nat (length bs), bs),
           log (EvRead fd (Ok (Z.of_nat (length bs)))) (set_input rest w))
        else
          ((Z.of_nat count, take count bs),
           log (EvRead fd (Ok (Z.of_nat count)))
             (set_input (RdData (drop count bs) :: rest) w))
    end
  else ((-1, []), log (EvRead fd (Err EBADF)) (set_errno EBADF w)).

Definition append_data (bs : list byte) (f : file) : file :=
  mkFile (f_data f ++ bs) (f_mode f) (f_owner f) (f_group f).

(** [write(fd, buf, count)]: appends to the file the descriptor was opened
    on and returns the number of bytes taken, which a short write makes
    smaller than [count]; -1 when refused. *)
Definition sys_write (fd : Z) (buf : list byte) : M Z := fun w =>
  match w_fds w !! fd with
  | None => (-1, log (EvWrite fd (length buf) (Err EBADF)) (set_errno EBADF w))
  | Some p =>
      let (o, rest) := pop (w_write_res w) in
      let w := set_write_res rest w in
      match o with
      | Some (WrErr e) => (-1, log (EvWrite fd (length buf) (Err e)) (set_errno e w))
      | Some (WrShort n) =>
          let k := Nat.min n (length buf) in
          (Z.of_nat k,
           log (EvWrite fd (length buf) (Ok (Z.of_nat k)))
             (set_files (alter (append_data (take k buf)) p (w_files w)) w))
      | _ =>
          (Z.of_nat (length buf),
           log (EvWrite fd (length buf) (Ok (Z.of_nat (length buf))))
             (set_files (alter (append_data buf) p (w_files w)) w))
      end
  end.

Definition sys_close (fd : Z) : M Z := fun w =>
  (0, log (EvClose fd) (set_fds (delete fd (w_fds w)) w)).

(** [rename(src, dst)]: atomically moves the file, replacing [dst]; when
    refused nothing changes. *)
Definition sys_rename (src dst : string) : M Z := fun w =>
  let (flt, rest) := pop (w_rename_err w) in
  let w := set_rename_err rest w in
  match flt with
  | Some (Some e) => (-1, log (EvRename src dst (Err e)) (set_errno e w))
  | _ =>
      match w_files w !! src with
      | None => (-1, log (EvRename src dst (Err ENOENT)) (set_errno ENOENT w))
      | Some f =>
          (0, log (EvRename src dst (Ok 0))
                (set_files (<[dst := f]> (delete src (w_files w))) w))
      end
  end.

(** [fopen(path, "r")] followed, when it succeeds, by [fclose].  The
    call succeeds on whatever can be opened for reading: a regular file
    the process may read, but also a directory or a device at the path
    ([FoOther]).  It fails with [ENOENT] when there is nothing, with
    [EACCES] when the permission bits forbid it, and when it is refused
    from outside ([FoRefused]). *)
Definition fopen_r (path : string) : M bool := fun w =>
  let (o, rest) := pop (w_fopen_res w) in
  let w := set_fopen_res rest w in
  match o with
  | Some FoOther => (true, log (EvFopen path true) w)
  | Some (FoRefused e) => (false, log (EvFopen path false) (set_errno e w))
  | _ =>
      match w_files w !! path with
      | None => (false, log (EvFopen path false) (set_errno ENOENT w))
      | Some f =>
          if readable (w_euid w) (w_egid w) (w_groups w) f
          then (true, log (EvFopen path true) w)
          else (false, log (EvFopen path false) (set_errno EACCES w))
      end
  end.

(** The four PAM calls, answered by the environment. *)
Definition converse (io : list string * list string) (w : world) : world :=
  set_stderr (w_stderr w ++ io.2) (set_stdout (w_stdout w ++ io.1) w).

Definition pam_start : M Z := fun w => (pam_start_ret (w_pam w), w).
Definition pam_authenticate : M Z := fun w =>
  (pam_authenticate_ret (w_pam w), converse (pam_authenticate_conv (w_pam w)) w).
Definition pam_acct_mgmt : M Z := fun w =>
  (pam_acct_mgmt_ret (w_pam w), converse (pam_acct_mgmt_conv (w_pam w)) w).
Definition pam_end : M Z := fun w => (pam_end_ret (w_pam w), w).

(** [pam_strerror], for the codes that occur in the scenarios. *)
Definition pam_strerror (code : Z) : string :=
  if code =? 0 then "Success"
  else if code =? 7 then "Authentication failure"
  else if code =? 13 then "User account has expired"
  else "Unknown PAM error".

(** ** Command-line scanning: [getopt_long]

    [main] calls [getopt_long(argc, argv, "e:d:shV", long_opts, NULL)]
    until it returns -1.  The sequence of values it returns depends on
    the command line only, so the scan is modelled as a function from the
    arguments to the list of results ([token]s), together with the
    operands left over, which is what [optind != argc] tests.  The model
    follows the GNU C library: operands may be mixed with options (they
    are permuted to the end), [--] ends the options, a long option may be
    abbreviated to a unique prefix and may carry its argument after [=],
    short options may be clustered, and a short option with an argument
    takes the rest of its word or else the next word.  A long option is
    looked up by the text before [=]: an exact name wins, otherwise the
    names it is a prefix of are collected, and two of them that differ in
    [has_arg] or [val] make the option ambiguous (here only the empty
    name is).  Every error is reported on standard error, the diagnostic
    quoting the word as it was typed, and returned as ['?'], since the
    option string does not begin with a colon. *)

Inductive has_arg_t := no_argument | required_argument.

Record option_t := mkOpt {
  o_name : string;
  o_has_arg : has_arg_t;
  o_val : ascii
}.

(** program long options *)
Definition long_opts : list option_t :=
  [ mkOpt "enable" no_argument "e";
    mkOpt "disable" required_argument "d";
    mkOpt "status" no_argument "s";
    mkOpt "help" no_argument "h";
    mkOpt "version" no_argument "V" ].

Definition optstring : string := "e:d:shV".

(** One result of [getopt_long]: the value returned, [optarg], and what
    the library printed on standard error. *)
Record token := mkTok {
  t_opt : ascii;
  t_optarg : option string;
  t_diag : option string
}.

Definition takes_arg (rest : string) : has_arg_t :=
  match rest with
  | EmptyString => no_argument
  | String x _ => if Ascii.eqb x ":" then required_argument else no_argument
  end.

Fixpoint short_lookup (c : ascii) (spec : string) : option has_arg_t :=
  match spec with
  | EmptyString => None
  | String x rest =>
      if Ascii.eqb x c then Some (takes_arg rest)
      else short_lookup c rest
  end.

Definition short_spec (c : ascii) : option has_arg_t :=
  if Ascii.eqb c ":" then None else short_lookup c optstring.

Definition has_arg_eqb (a b : has_arg_t) : bool :=
  match a, b with
  | no_argument, no_argument | required_argument, required_argument => true
  | _, _ => false
  end.

(** Outcome of the lookup of a long option name. *)
Inductive long_found :=
| LongOk (o : option_t)
| LongAmbiguous (possibilities : list option_t)
| LongNone.

(** The lookup: first an exact match; failing that, the first option the
    name abbreviates, unless a later one it abbreviates too differs from
    it in [has_arg] or [val]. *)
Definition long_lookup (nm : string) : long_found :=
  match List.find (fun o => String.eqb nm (o_name o)) long_opts with
  | Some o => LongOk o
  | None =>
      match List.filter (fun o => String.prefix nm (o_name o)) long_opts with
      | [] => LongNone
      | o :: others =>
          match List.filter
                  (fun p => negb (has_arg_eqb (o_has_arg o) (o_has_arg p)
                                  && Ascii.eqb (o_val o) (o_val p))) others with
          | [] => LongOk o
          | amb => LongAmbiguous (o :: amb)
          end
      end
  end.

(** [strip_prefix p s]: what follows [p] in [s], when [s] starts with [p]. *)
Fixpoint strip_prefix (p s : string) : option string :=
  match p with
  | EmptyString => Some s
  | String c p' =>
      match s with
      | EmptyString => None
      | String d s' => if Ascii.eqb c d then strip_prefix p' s' else None
      end
  end.

(** Split [name=value] at the first [=]. *)
Fixpoint split_eq (s : string) : string * option string :=
  match s with
  | EmptyString => (EmptyString, None)
  | String c rest =>
      if Ascii.eqb c "=" then (EmptyString, Some rest)
      else let (n, v) := split_eq rest in (String c n, v)
  end.

(** The characters of one word of short options; [next] is the following
    word, if any.  Returns the results and whether [next] was taken as an
    option argument. *)
Fixpoint scan_cluster (prog : string) (cs : string) (next : option string)
  : list token * bool :=
  match cs with
  | EmptyString => ([], false)
  | String c rest =>
      match short_spec c with
      | None =>
          let (ts, used) := scan_cluster prog rest next in
          (mkTok "?" None
             (Some (prog +:+ ": invalid option -- '" +:+ String c "'" +:+ nl))
             :: ts, used)
      | Some no_argument =>
          let (ts, used) := scan_cluster prog rest next in
          (mkTok c None None :: ts, used)
      | Some required_argument =>
          match rest with
          | String _ _ => ([mkTok c (Some rest) None], false)
          | EmptyString =>
              match next with
              | Some a => ([mkTok c (Some a) None], true)
              | None =>
                  ([mkTok "?" None
                      (Some (prog +:+ ": option requires an argument -- '"
                             +:+ String c "'" +:+ nl))], false)
              end
          end
      end
  end.

Definition scan_long (prog : string) (body : string) (next : option string)
  : token * bool :=
  let (nm, val) := split_eq body in
  match long_lookup nm with
  | LongNone =>
      (mkTok "?" None
         (Some (prog +:+ ": unrecognized option '--" +:+ body +:+ "'" +:+ nl)),
       false)
  | LongAmbiguous possibilities =>
      (mkTok "?" None
         (Some (prog +:+ ": option '--" +:+ body
                +:+ "' is ambiguous; possibilities:"
                +:+ String.concat ""
                      (map (fun o => " '--" +:+ o_name o +:+ "'") possibilities)
                +:+ nl)),
       false)
  | LongOk o =>
      match o_has_arg o, val with
      | no_argument, None => (mkTok (o_val o) None None, false)
      | no_argument, Some _ =>
          (mkTok "?" None
             (Some (prog +:+ ": option '--" +:+ o_name o
                    +:+ "' doesn't allow an argument" +:+ nl)), false)
      | required_argument, Some v => (mkTok (o_val o) (Some v) None, false)
      | required_argument, None =>
          match next with
          | Some a => (mkTok (o_val o) (Some a) None, true)
          | None =>
              (mkTok "?" None
                 (Some (prog +:+ ": option '--" +:+ o_name o
                        +:+ "' requires an argument" +:+ nl)), false)
          end
      end
  end.

(** All results of the successive [getopt_long] calls on [args]
    (that is, [argv[1..]]), and the operands [argv[optind..]] that remain
    once it has returned -1. *)
Fixpoint getopt_long (prog : string) (args : list string)
  : list token * list string :=
  match args with
  | [] => ([], [])
  | a :: rest =>
      match strip_prefix "--" a with
      | Some EmptyString => ([], rest)
      | Some body =>
          match rest with
          | [] => ([fst (scan_long prog body None)], [])
          | nx :: rest' =>
              let (t, used) := scan_long prog body (Some nx) in
              let (ts, ops) :=
                if used then getopt_long prog rest' else getopt_long prog rest in
              (t :: ts, ops)
          end
      | None =>
          match strip_prefix "-" a with
          | Some (String c cs) =>
              match rest with
              | [] => (fst (scan_cluster prog (String c cs) None), [])
              | nx :: rest' =>
                  let (t, used) := scan_cluster prog (String c cs) (Some nx) in
                  let (ts, ops) :=
                    if used then getopt_long prog rest'
                    else getopt_long prog rest in
                  ((t ++ ts)%list, ops)
              end
          | _ =>
              let (ts, ops) := getopt_long prog rest in (ts, a :: ops)
          end
      end
  end.

(** ** The program *)

(** enum to keep selected command *)
Inductive command := CMD_NULL | CMD_ENABLE | CMD_DISABLE | CMD_STATUS | CMD_NEXT.

Definition command_eqb (a b : command) : bool :=
  match a, b with
  | CMD_NULL, CMD_NULL | CMD_ENABLE, CMD_ENABLE | CMD_DISABLE, CMD_DISABLE
  | CMD_STATUS, CMD_STATUS | CMD_NEXT, CMD_NEXT => true
  | _, _ => false
  end.

(** Exit status of a process killed by a failed [assert] (SIGABRT).  It
    also stands for what happens on the one path that would read the
    unassigned [givenuser]; neither is reachable, see [main_exit_status]. *)
Definition EXIT_ABORTED : Z := 134.

(** The value [snprintf] returns for a format made of [%s] items and
    literal text: the length of the output. *)
Definition snprintf_len (s : string) : Z := Z.of_nat (String.length s).

(** Number of reads after which the input script is certainly exhausted:
    every read either ends the copy or consumes a byte or an entry. *)
Definition rd_weight (e : rd_event) : nat :=
  match e with
  | RdData bs => S (length bs)
  | RdErr _ => 1%nat
  end.

Definition input_fuel (l : list rd_event) : nat :=
  S (list_sum (map rd_weight l)).

Section Gauthctl.

(** Build-time constants: [-DGAUTH_STATEDIR=...] and [-DVERSION=...]. *)
Variable GAUTH_STATEDIR : string.
Variable VERSION : string.

(** print usage or full help message; returns the exit status for the
    program (0 for help, 1 otherwise) *)
Definition usage (prog_name : string) (help : bool) : M Z :=
  let out := if help then print else eprint in
  out ("Usage: " +:+ prog_name +:+ " --enable" +:+ nl);;
  (if help
       then out ("            Enable gauth using config supplied on fd 3" +:+ nl)
       else mret tt);;
  out ("       " +:+ prog_name +:+ " --disable username" +:+ nl);;
  (if help
       then out ("            Disable gauth for given user" +:+ nl)
       else mret tt);;
  out ("       " +:+ prog_name +:+ " --status" +:+ nl);;
  (if help
       then out ("            Checks status of gauth for the user" +:+ nl)
       else mret tt);;
  mret (if help then 0 else 1).

(** get the username for spawning user *)
Definition get_user : M (option string) :=
  uid ← getuid;
  getpwuid uid.

(** authenticate user via PAM; returns true on success, false otherwise *)
Definition authenticate (username : string) : M bool :=
  r ← pam_start;
  if negb (r =? PAM_SUCCESS) then
    eprint ("Unable to start PAM conversation: " +:+ pam_strerror r +:+ nl);;
    mret false
  else
    r ← pam_authenticate;
    let r := PAM_SUCCESS in
    if negb (r =? PAM_SUCCESS) then
      eprint ("Authentication failed: " +:+ pam_strerror r +:+ nl);;
      mret false
    else
      r ← pam_acct_mgmt;
      if negb (r =? PAM_SUCCESS) then
        eprint ("Account unavailable: " +:+ pam_strerror r +:+ nl);;
        mret false
      else
        r ← pam_end;
        if negb (r =? PAM_SUCCESS) then
          eprint ("Unable to finish PAM conversation: "
                      +:+ pam_strerror r +:+ nl);;
          mret false
        else mret true.

(** allocate a buffer and write the path to the state file to it;
    returns the path, or NULL ([None]) on alloc failure *)
Definition get_state_path (username : string) : M (option string) :=
  buf ← malloc;
  if (buf : bool) then
    let path := GAUTH_STATEDIR +:+ "/" +:+ username in
    let wr := snprintf_len path in
    if wr <? 0 then mret None
    else mret (Some path)
  else mret None.

(** The [while (true)] loop of [enable], one iteration per unit of fuel.
    [Some true]: the loop was left by [break] on a zero-length read;
    [Some false]: [enable] returned false from inside the loop; [None]:
    out of fuel, which does not happen with the fuel [enable] provides
    (see [copy_loop_terminates]). *)
Fixpoint copy_loop (fuel : nat) (in_fd out_fd : Z) (tmp_buf : string)
  : M (option bool) :=
  match fuel with
  | O => mret None
  | S fuel' =>
      rdres ← sys_read in_fd BUFSIZE;
      let rd := fst rdres in
      let buf := snd rdres in
      if rd =? 0 then mret (Some true)
      else if rd =? -1 then
        perror "Reading config file failed";;
        sys_close out_fd;;
        sys_unlink (Some tmp_buf);;
        mret (Some false)
      else
        wr ← sys_write out_fd buf;
        if wr =? -1 then
          perror "Writing temporary file failed";;
          sys_close out_fd;;
          sys_unlink (Some tmp_buf);;
          mret (Some false)
        else copy_loop fuel' in_fd out_fd tmp_buf
  end.

(** enable gauth for current user
    state_path: path to the state file
    in_fd: file descriptor for the new config
    returns true on success, false on error *)
Definition enable (state_path : string) (in_fd : Z) : M bool :=
  tmp ← malloc;
  if negb tmp then
    perror "Memory allocation failed";;
    mret false
  else
    let tmp_buf := state_path +:+ ".new" in
    let buf_wr := snprintf_len tmp_buf in
    if buf_wr <? 0 then
      perror "Filename construction failed";;
      mret false
    else
      (* write into a temporary file *)
      r ← sys_unlink (Some tmp_buf);
      e ← get_errno;
      if negb (r =? 0) && negb (errno_eqb e ENOENT) then
        perror "Unable to pre-unlink temporary file";;
        mret false
      else
        out_fd ← sys_open tmp_buf
                       (Z.lor (Z.lor O_WRONLY O_CREAT) O_EXCL) mode_0600;
        if out_fd =? -1 then
          perror "Unable to open temporary file for writing";;
          mret false
        else
          fuel ← (fun w => (input_fuel (w_input w), w));
          copied ← copy_loop fuel in_fd out_fd tmp_buf;
          match copied with
          | Some true =>
              sys_close out_fd;;
              (* now we can move the file! *)
              r ← sys_rename tmp_buf state_path;
              if negb (r =? 0) then
                perror "Replacing state file failed";;
                sys_unlink (Some tmp_buf);;
                mret false
              else
                eprint ("GAuth set up successfully" +:+ nl);;
                mret true
          | Some false => mret false
          | None => mret false
          end.

(** disable gauth for the current user
    state_path: path to the state file (may be NULL)
    returns true on success (or if not enabled), false on error *)
Definition disable (state_path : option string) : M bool :=
  r ← sys_unlink state_path;
  e ← get_errno;
  if (r =? 0) || errno_eqb e ENOENT then
    eprint ("GAuth disabled successfully" +:+ nl);;
    mret true
  else
    perror "Unable to remove state file";;
    mret false.

Definition status (filename : string) : M bool :=
  print ("Check existance of " +:+ filename +:+ " " +:+ nl);;
  file ← fopen_r filename;
  if (file : bool) then mret true
  else mret false.

(** The option loop of [main].  [inl code]: [main] returned from inside
    the loop; [inr (cmd, givenuser)]: the loop ran to the end.
    [givenuser] is [None] as long as the pointer is uninitialised. *)
Fixpoint opt_loop (prog_name : string) (toks : list token)
    (cmd : command) (givenuser : option string)
  : M (Z + command * option string) :=
  match toks with
  | [] => mret (inr (cmd, givenuser))
  | t :: rest =>
      (match t_diag t with Some msg => eprint msg | None => mret tt end);;
      let opt := t_opt t in
      if Ascii.eqb opt "e" then opt_loop prog_name rest CMD_ENABLE givenuser
      else if Ascii.eqb opt "d" then
        opt_loop prog_name rest CMD_DISABLE (t_optarg t)
      else if Ascii.eqb opt "s" then opt_loop prog_name rest CMD_STATUS givenuser
      else if Ascii.eqb opt "h" then
        code ← usage prog_name true; mret (inl code)
      else if Ascii.eqb opt "V" then
        print ("gauthctl " +:+ VERSION +:+ nl);;
        mret (inl 0)
      else if Ascii.eqb opt ":" then (* missing argument of a parameter *)
        eprint ("missing argument." +:+ nl);;
        opt_loop prog_name rest cmd givenuser
      else code ← usage prog_name false; mret (inl code)
  end.

(** The [switch (cmd)] statement of [main] with the two statements that
    follow it, [free(state_path)] and [return ret ? 0 : 1].  The local
    [ret] is declared without an initialiser and the two refusal branches
    do not assign it: [return ret ? 0 : 1] then reads an indeterminate
    value, which the C standard leaves undefined.  [ret_uninit] is what
    [main] returns on those two paths.  It can be any number: a compiler
    that takes a [bool] to hold 0 or 1 returns the stale byte of the
    stack with its lowest bit flipped, 201 for instance.  [givenuser] is
    only assigned by [-d]; [None] stands for the unassigned pointer. *)
Definition dispatch (cmd : command) (givenuser : option string)
    (username state_path : string) (ret_uninit : Z) : M Z :=
  let finish (r : bool) : M Z := mret (if r then 0 else 1) in
  match cmd with
  | CMD_ENABLE =>
      (* Enable only possible if 2FA not yet enabled for user *)
      st ← status state_path;
      if negb st then
        r ← enable state_path 3;
        finish r
      else
        eprint ("Error: 2FA configuration exists for user "
                +:+ username +:+ "." +:+ nl);;
        mret ret_uninit
  | CMD_DISABLE =>
      (* Only root is allowed to disable 2FA for user *)
      match givenuser with
      | None => mret EXIT_ABORTED
      | Some givenuser =>
          uid ← getuid;
          if uid =? 0 then
            state_path ← get_state_path givenuser;
            r ← disable state_path;
            finish r
          else
            eprint ("Error: Only root is allowed to disable 2FA for user "
                    +:+ givenuser +:+ "." +:+ nl);;
            mret ret_uninit
      end
  | CMD_STATUS =>
      r ← status state_path;
      finish r
  | CMD_NULL | CMD_NEXT => mret EXIT_ABORTED (* assert(not_reached) *)
  end.

(** [main], with [argv[0] = prog_name] and [argv[1..] = args]. *)
Definition main (prog_name : string) (args : list string) (ret_uninit : Z)
  : M Z :=
  let (toks, operands) := getopt_long prog_name args in
  parsed ← opt_loop prog_name toks CMD_NULL None;
  match parsed with
  | inl code => mret code
  | inr (cmd, givenuser) =>
      if command_eqb cmd CMD_NULL || negb (Nat.eqb (length operands) 0) then
        usage prog_name false
      else
        sys_umask mask_077;;
        username ← get_user;
        match username with
        | None =>
            perror "Unable to get username";;
            mret 1
        | Some username =>
            state_path ← get_state_path username;
            match state_path with
            | None =>
                perror "Memory allocation failed";;
                mret 1
            | Some state_path =>
                dispatch cmd givenuser username state_path ret_uninit
            end
        end
  end.

End Gauthctl.

(** ** Vocabulary of the statements *)

(** The sibling temporary path of a state path. *)
Definition temp_path (state_path : string) : string := state_path +:+ ".new".

(** The bytes a reader of descriptor 3 obtains before the first
    zero-length read: the data of the script up to its end, to an empty
    chunk or to an error. *)
Fixpoint payload (l : list rd_event) : list byte :=
  match l with
  | RdData (b :: bs) :: rest => (b :: bs) ++ payload rest
  | _ => []
  end.

(** Classification of the results of [getopt_long]. *)
Definition is_action (t : token) : bool :=
  Ascii.eqb (t_opt t) "e" || Ascii.eqb (t_opt t) "d" || Ascii.eqb (t_opt t) "s".

Definition exits_early (t : token) : bool :=
  Ascii.eqb (t_opt t) "h" || Ascii.eqb (t_opt t) "V".

Definition command_of (c : ascii) : command :=
  if Ascii.eqb c "e" then CMD_ENABLE
  else if Ascii.eqb c "d" then CMD_DISABLE
  else if Ascii.eqb c "s" then CMD_STATUS
  else CMD_NULL.

(** What [getopt_long] can return here: an error, reported and returned
    as ['?'], or one of the five options, [-d] with its argument. *)
Definition tok_wf (t : token) : Prop :=
  match t_diag t with
  | Some _ => t_opt t = "?"%char
  | None =>
      (t_opt t = "e" ∨ t_opt t = "s" ∨ t_opt t = "h" ∨ t_opt t = "V")%char
      ∨ (t_opt t = "d"%char ∧ is_Some (t_optarg t))
  end.

Definition is_short (o : wr_outcome) : bool :=
  match o with
  | WrShort _ => true
  | _ => false
  end.

(** The calls [enable] may issue: everything it unlinks, creates and
    renames is the temporary path, and the only rename target is the
    state path. *)
Definition enable_event (tmp sp : string) (ev : event) : Prop :=
  match ev with
  | EvUnlink p _ => p = Some tmp
  | EvOpen p fl m _ =>
      p = tmp ∧ fl = Z.lor (Z.lor O_WRONLY O_CREAT) O_EXCL ∧ m = mode_0600
  | EvRead _ _ | EvWrite _ _ _ | EvClose _ => True
  | EvRename s d _ => s = tmp ∧ d = sp
  | EvUmask _ | EvFopen _ _ => False
  end.

(** The short usage message, line by line, and the full help. *)
Definition usage_lines (prog_name : string) : list string :=
  [ "Usage: " +:+ prog_name +:+ " --enable" +:+ nl;
    "       " +:+ prog_name +:+ " --disable username" +:+ nl;
    "       " +:+ prog_name +:+ " --status" +:+ nl ].

Definition help_lines (prog_name : string) : list string :=
  [ "Usage: " +:+ prog_name +:+ " --enable" +:+ nl;
    "            Enable gauth using config supplied on fd 3" +:+ nl;
    "       " +:+ prog_name +:+ " --disable username" +:+ nl;
    "            Disable gauth for given user" +:+ nl;
    "       " +:+ prog_name +:+ " --status" +:+ nl;
    "            Checks status of gauth for the user" +:+ nl ].

(** The next [fopen] is decided by the regular files of the model. *)
Definition left_to_model (script : list fopen_outcome) : bool :=
  match script with
  | [] | FoModel :: _ => true
  | _ => false
  end.

(** [fopen(path, "r")] succeeds: something other than a regular file of
    the model opens at the path (a directory, a device), or the path names
    a regular file that the process may read. *)
Definition opens_for_reading (w : world) (path : string) : Prop :=
  head (w_fopen_res w) = Some FoOther
  ∨ (left_to_model (w_fopen_res w) = true
     ∧ ∃ f, w_files w !! path = Some f
            ∧ readable (w_euid w) (w_egid w) (w_groups w) f = true).

(** One line of [perror]. *)
Definition perror_line (msg : string) (e : errno) : string :=
  msg +:+ ": " +:+ strerror e +:+ nl.

(** The [perror] that a failed call leads [enable] to, with the [errno]
    it shows.  An [unlink] that finds nothing is no failure. *)
Definition failure_of (ev : event) : option (string * errno) :=
  match ev with
  | EvUnlink _ (Err e) =>
      if errno_eqb e ENOENT then None
      else Some ("Unable to pre-unlink temporary file", e)
  | EvOpen _ _ _ (Err e) =>
      Some ("Unable to open temporary file for writing", e)
  | EvRead _ (Err e) => Some ("Reading config file failed", e)
  | EvWrite _ _ (Err e) => Some ("Writing temporary file failed", e)
  | EvRename _ _ (Err e) => Some ("Replacing state file failed", e)
  | _ => None
  end.

(** The first failed call of a trace. *)
Definition first_failure (evs : list event) : option (string * errno) :=
  head (omap failure_of evs).

(** The calls [main] may issue after [umask], for the invoking user [u]
    and the argument [g] of [--disable]: the presence check opens the
    state path of [u]; [enable] works on its temporary path and renames
    it to the state path; [disable] unlinks the state path built from
    [g], or NULL when that path could not be allocated. *)
Definition main_event (sd u : string) (g : option string) (ev : event)
  : Prop :=
  match ev with
  | EvUmask _ => False
  | EvFopen p _ => p = sd +:+ "/" +:+ u
  | EvUnlink p _ =>
      p = Some (temp_path (sd +:+ "/" +:+ u))
      ∨ p = None
      ∨ ∃ x, g = Some x ∧ p = Some (sd +:+ "/" +:+ x)
  | EvOpen p _ _ _ => p = temp_path (sd +:+ "/" +:+ u)
  | EvRename s d _ =>
      s = temp_path (sd +:+ "/" +:+ u) ∧ d = sd +:+ "/" +:+ u
  | EvRead _ _ | EvWrite _ _ _ | EvClose _ => True
  end.

(** The error lines of the two refusals of [main]. *)
Definition is_refusal (line : string) : Prop :=
  (∃ u, line = "Error: 2FA configuration exists for user "
               +:+ u +:+ "." +:+ nl)
  ∨ (∃ g, line = "Error: Only root is allowed to disable 2FA for user "
                 +:+ g +:+ "." +:+ nl).

(** An unlink of [p] that the system refused. *)
Definition unlink_refused (p : string) (evs : list event) : Prop :=
  ∃ e : ioerr, In (EvUnlink (Some p) (Err e)) evs.

(** ** Scenarios

    The build of the specification's examples: state directory
    [/var/lib/gauth], users root (0) and alice (1000).  The helper is
    installed set-user-id root, so the effective uid is 0 whoever runs
    it, while the effective group is the caller's own (the group of a
    user has the number of the user); the umask inherited from the caller
    is 022, [errno] is 0 as at the start of every program, and the system
    refuses nothing unless a scenario says so. *)

Definition example_statedir : string := "/var/lib/gauth".
Definition example_version : string := "1.0".
Definition alice_path : string := "/var/lib/gauth/alice".
Definition alice_temp : string := "/var/lib/gauth/alice.new".

Definition bytes_of (s : string) : list byte := String.list_byte_of_string s.

Definition example_passwd : gmap Z string := {[ 0 := "root"; 1000 := "alice" ]}.

Definition pam_accepts : pam_env :=
  mkPam 0 0 0 0 ([], ["Password: "]) ([], []).

Definition example_world (ruid : Z) (files : gmap string file)
    (input : list rd_event) : world :=
  mkWorld files ∅ input 18 ruid 0 ruid [] example_passwd None E0
    [] [] [] [] [] [] pam_accepts [] [] [].

Definition old_config : file :=
  mkFile (bytes_of ("OLD" +:+ nl)) mode_0600 0 1000.
Definition secret : list byte := bytes_of ("SECRETKEY" +:+ nl).

(** S1: alice provisions herself. *)
Definition world_S1 : world := example_world 1000 ∅ [RdData secret].

(** S2: alice runs [--enable] although her state file exists. *)
Definition world_S2 : world :=
  example_world 1000 {[ alice_path := old_config ]}
    [RdData (bytes_of ("NEW" +:+ nl))].

(** S3: root, alice's state file present. *)
Definition world_S3 : world :=
  example_world 0 {[ alice_path := old_config ]} [].

(** S4: alice, her state file present, nothing on descriptor 3. *)
Definition world_S4 : world :=
  example_world 1000 {[ alice_path := old_config ]} [].

(** A stale temporary file is in the way and the state directory is on a
    file system mounted read-only, so that nothing can be removed. *)
Definition world_stale_temp : world :=
  set_unlink_err [Some EROFS]
    (example_world 1000 {[ alice_temp := old_config ]} [RdData secret]).

(** Descriptor 3 delivers three bytes and then fails. *)
Definition world_read_error : world :=
  example_world 1000 {[ alice_path := old_config ]}
    [RdData (bytes_of "SEC"); RdErr EIO].

(** The first write takes only four of the bytes it is given (a file size
    limit or a full disk); the input ends right after. *)
Definition world_short_write : world :=
  set_write_res [WrShort 4] world_S1.

(** Root, with a file one level above the state directory. *)
Definition victim_path : string := "/var/lib/gauth/../victim".
Definition world_victim : world :=
  example_world 0 {[ victim_path := old_config ]} [].

(** The value that the scenarios give to the unassigned [ret]. *)
Definition stale_ret : Z := 201.

(** Alice has no state file: a directory is in its place. *)
Definition world_state_dir : world :=
  set_fopen_res [FoOther] (example_world 1000 ∅ []).

(** PAM asks for the password, rejects it, and finds the account in
    order. *)
Definition world_auth_rejected : world :=
  mkWorld ∅ ∅ [] 18 1000 0 1000 [] example_passwd None E0
    [] [] [] [] [] []
    (mkPam PAM_SUCCESS PAM_AUTH_ERR PAM_SUCCESS PAM_SUCCESS
       ([], ["Password: "]) ([], []))
    [] [] [].

(** ** Vocabulary of the further properties *)

(** No read error before the first zero-length read. *)
Fixpoint reads_ok (l : list rd_event) : bool :=
  match l with
  | [] => true
  | RdData [] :: _ => true
  | RdData (_ :: _) :: rest => reads_ok rest
  | RdErr _ :: _ => false
  end.

Definition is_wr_err (o : wr_outcome) : bool :=
  match o with
  | WrErr _ => true
  | _ => false
  end.

(** The next call of a kind is refused. *)
Definition refuses (script : list (option ioerr)) : bool :=
  match script with
  | Some _ :: _ => true
  | _ => false
  end.

(** A step that prints nothing, keeps the descriptor table and consumes
    no entry of the unlink and rename scripts. *)
Definition quiet (w w' : world) : Prop :=
  w_stdout w' = w_stdout w ∧ w_stderr w' = w_stderr w ∧
  w_fds w' = w_fds w ∧
  w_rename_err w' = w_rename_err w ∧ w_unlink_err w' = w_unlink_err w.

(** [sizeof] of a string literal: its length and the terminating NUL. *)
Definition sizeof_literal (s : string) : nat := S (String.length s).

(** The two buffer sizes of the program: [buf_size] of [get_state_path]
    for a state directory and a username, and [buf_size] of [enable]. *)
Definition state_path_buf_size (statedir username : string) : nat :=
  (sizeof_literal (statedir +:+ "/") + String.length username)%nat.

Definition temp_path_buf_size (state_path : string) : nat :=
  (String.length state_path + sizeof_literal ".new")%nat.

(** A user id without an entry in the password database. *)
Definition world_unknown_user : world :=
  example_world 4242 {[ alice_path := old_config ]} [RdData secret].

(** Root; the first allocation succeeds and the second one fails. *)
Definition world_second_alloc_fails : world :=
  set_malloc_fail [false; true]
    (example_world 0 {[ alice_path := old_config ]} []).

(** PAM refuses the account. *)
Definition world_account_expired : world :=
  mkWorld ∅ ∅ [] 18 1000 0 1000 [] example_passwd None E0
    [] [] [] [] [] []
    (mkPam PAM_SUCCESS PAM_SUCCESS PAM_ACCT_EXPIRED PAM_SUCCESS
       ([], ["Password: "]) ([], []))
    [] [] [].

(** There is a user named [alice.new], with a configuration of their
    own, when alice provisions herself. *)
Definition world_dot_new_user : world :=
  example_world 1000 {[ alice_temp := old_config ]} [RdData secret].

(** Alice replaces an existing configuration; the payload arrives in
    two pieces. *)
Definition world_two_chunks : world :=
  example_world 1000 {[ alice_path := old_config ]}
    [RdData (bytes_of "SECRET"); RdData (bytes_of ("KEY" +:+ nl))].

(** ** Basic facts *)

Ltac unfold_m := unfold mbind, M_bind, mret, M_ret in *.

Lemma errno_eqb_eq a b : errno_eqb a b = true ↔ a = b.
Proof.
  split.
  - destruct a as [| | | | | |x], b as [| | | | | |y]; simpl;
      try discriminate; auto.
    destruct x, y; simpl; try discriminate; auto.
  - intros ->. destruct b as [| | | | | |y]; simpl; auto. destruct y; auto.
Qed.

Lemma snprintf_len_nonneg s : (snprintf_len s <? 0) = false.
Proof. unfold snprintf_len. apply Z.ltb_ge. lia. Qed.

Lemma temp_path_neq sp : temp_path sp ≠ sp.
Proof.
  unfold temp_path. induction sp as [|a sp IH]; [discriminate|].
  intros H. apply IH. cbn in H. by injection H.
Qed.

(** *** One read *)

Lemma sys_read_spec w fd n rd buf w' :
  (0 < n)%nat →
  sys_read fd n w = ((rd, buf), w') →
  w_files w' = w_files w ∧ w_fds w' = w_fds w ∧
  w_write_res w' = w_write_res w ∧
  (∃ r, w_trace w' = w_trace w ++ [EvRead fd r]) ∧
  ((rd = 0 ∧ payload (w_input w) = [])
   ∨ rd = -1
   ∨ (0 < rd ∧ buf ≠ [] ∧
      payload (w_input w) = buf ++ payload (w_input w') ∧
      (input_fuel (w_input w') < input_fuel (w_input w))%nat)).
Proof.
  intros Hn. unfold sys_read.
  destruct (fd =? 3); [|intros [= <- <- <-]; simpl; repeat split; eauto].
  destruct (w_input w) as [|[bs|e] rest] eqn:Hin.
  - intros [= <- <- <-]. simpl. repeat split; eauto.
  - destruct (length bs <=? n)%nat eqn:Hlen.
    + intros [= <- <- <-]. simpl. repeat split; eauto.
      destruct bs as [|b bs]; [left; done|]. right; right.
      split; [simpl; lia|]. split; [done|]. split; [done|].
      unfold input_fuel. simpl. lia.
    + apply Nat.leb_gt in Hlen.
      intros [= <- <- <-]. simpl. repeat split; eauto.
      right; right.
      assert (Hne : take n bs ≠ []).
      { destruct bs, n; simpl in *; try lia; done. }
      assert (Hd : drop n bs ≠ []).
      { intros Hd. apply (f_equal length) in Hd. rewrite length_drop in Hd.
        simpl in Hd. lia. }
      split; [lia|]. split; [done|]. split.
      * destruct bs as [|b bs]; [simpl in Hlen; lia|].
        destruct (drop n (b :: bs)) as [|d ds] eqn:Hdr; [done|].
        transitivity ((take n (b :: bs) ++ drop n (b :: bs)) ++ payload rest);
          [by rewrite take_drop|].
        rewrite Hdr, <- app_assoc. done.
      * unfold input_fuel. simpl. rewrite length_drop. lia.
  - intros [= <- <- <-]. simpl. repeat split; eauto.
Qed.

(** *** One write *)

Lemma sys_write_spec w fd p buf wr w' :
  w_fds w !! fd = Some p →
  sys_write fd buf w = (wr, w') →
  w_fds w' = w_fds w ∧ w_input w' = w_input w ∧
  w_write_res w' = tail (w_write_res w) ∧
  (∃ r, w_trace w' = w_trace w ++ [EvWrite fd (length buf) r]) ∧
  ((wr = -1 ∧ w_files w' = w_files w)
   ∨ (0 <= wr ∧ ∃ taken,
        w_files w' = alter (append_data taken) p (w_files w) ∧
        (Forall (λ o, is_short o = false) (w_write_res w) → taken = buf))).
Proof.
  intros Hfd. unfold sys_write. rewrite Hfd.
  destruct (w_write_res w) as [|[|n|e] rest] eqn:Hw; simpl;
    intros [= <- <-]; simpl; repeat split; eauto.
  - right. split; [lia|]. eauto.
  - right. split; [lia|]. eauto.
  - right. split; [lia|]. eexists. split; [done|].
    intros H. by inversion H.
Qed.

Lemma sys_unlink_spec w p r w' :
  sys_unlink (Some p) w = (r, w') →
  w_fds w' = w_fds w ∧ w_input w' = w_input w ∧
  w_write_res w' = w_write_res w ∧ w_umask w' = w_umask w ∧
  w_euid w' = w_euid w ∧
  ((r = 0 ∧ w_files w' = delete p (w_files w) ∧
    w_trace w' = w_trace w ++ [EvUnlink (Some p) (Ok 0)])
   ∨ (r = -1 ∧ w_errno w' = ENOENT ∧ w_files w' = w_files w ∧
      w_files w !! p = None ∧
      w_trace w' = w_trace w ++ [EvUnlink (Some p) (Err ENOENT)])
   ∨ (r = -1 ∧ w_files w' = w_files w ∧
      ∃ e : ioerr, w_errno w' = e ∧
        w_trace w' = w_trace w ++ [EvUnlink (Some p) (Err e)])).
Proof.
  unfold sys_unlink.
  destruct (w_unlink_err w) as [|[e|] rest] eqn:Hu; simpl.
  - destruct (w_files w !! p) eqn:Hf; simpl; intros [= <- <-]; simpl;
      repeat split; eauto 10.
  - intros [= <- <-]; simpl. repeat split; eauto 10.
  - destruct (w_files w !! p) eqn:Hf; simpl; intros [= <- <-]; simpl;
      repeat split; eauto 10.
Qed.

(** After an unlink of [p], either [p] is gone or the unlink was refused. *)
Lemma sys_unlink_gone w p r w' :
  sys_unlink (Some p) w = (r, w') →
  (∀ q, q ≠ p → w_files w' !! q = w_files w !! q) ∧
  ∃ res, w_trace w' = w_trace w ++ [EvUnlink (Some p) res] ∧
    (w_files w' !! p = None ∨ ∃ e : ioerr, res = Err e).
Proof.
  intros H. apply sys_unlink_spec in H as (_ & _ & _ & _ & _ & H).
  destruct H as [(-> & Hf & Ht)|[(-> & He & Hf & Hn & Ht)|(-> & Hf & e & He & Ht)]];
    rewrite Hf, Ht.
  - split; [intros q Hq; by apply lookup_delete_ne|].
    eexists; split; [done|]. left. apply lookup_delete_eq.
  - split; [done|]. eexists; split; [done|]. by left.
  - split; [done|]. eexists; split; [done|]. right. eauto.
Qed.

(** *** The copy loop *)

Lemma sys_unlink_egid w p : w_egid (sys_unlink p w).2 = w_egid w.
Proof.
  unfold sys_unlink. destruct p as [p|]; [|done].
  destruct (w_unlink_err w) as [|[e|] rest]; cbn; try done;
    by destruct (w_files w !! p).
Qed.

Lemma append_data_nil (o : option file) : append_data [] <$> o = o.
Proof.
  destruct o as [[d m u]|]; [|done]. unfold append_data. simpl.
  by rewrite app_nil_r.
Qed.

Lemma append_data_app a b (o : option file) :
  append_data b <$> (append_data a <$> o) = append_data (a ++ b) <$> o.
Proof.
  destruct o as [[d m u]|]; [|done]. unfold append_data. simpl.
  by rewrite app_assoc.
Qed.

Lemma M_bind_eq {A B} (m : M A) (k : A → M B) w :
  (m ≫= k) w = k (m w).1 (m w).2.
Proof. unfold mbind, M_bind. by destruct (m w). Qed.

Lemma get_user_spec w :
  get_user w
  = match w_passwd w !! w_ruid w with
    | Some name => (Some name, w)
    | None =>
        (None, match w_getpw_errno w with
               | Some e => set_errno e w
               | None => w
               end)
    end.
Proof. unfold get_user, getuid, getpwuid. by rewrite M_bind_eq. Qed.

(** What the error exits of [enable] do after [perror]: close the
    descriptor and unlink the temporary file. *)
Lemma cleanup_spec tmp sp out_fd msg w w' (b b' : option bool) :
  (perror msg;; sys_close out_fd;; sys_unlink (Some tmp);; mret b) w = (b', w') →
  b' = b ∧
  (∀ q, q ≠ tmp → w_files w' !! q = w_files w !! q) ∧
  ∃ evs, w_trace w' = w_trace w ++ evs ∧ Forall (enable_event tmp sp) evs ∧
    (w_files w' !! tmp = None ∨ unlink_refused tmp evs).
Proof.
  unfold_m. unfold perror, eprint, sys_close. cbn -[sys_unlink].
  match goal with |- context [sys_unlink ?p ?w0] =>
    destruct (sys_unlink p w0) as [r w1] eqn:Hu end.
  intros [= <- <-]. apply sys_unlink_gone in Hu as (Hq & res & Ht & Hg).
  simpl in *. split; [done|]. split; [done|].
  exists [EvClose out_fd; EvUnlink (Some tmp) res].
  rewrite Ht, <- app_assoc. split; [done|]. split.
  - repeat constructor.
  - destruct Hg as [?|[e ->]]; [by left|]. right. exists e. simpl. auto.
Qed.

Lemma copy_loop_spec tmp sp in_fd out_fd fuel : ∀ w r w',
  w_fds w !! out_fd = Some tmp →
  copy_loop fuel in_fd out_fd tmp w = (r, w') →
  (∀ q, q ≠ tmp → w_files w' !! q = w_files w !! q) ∧
  (∃ evs, w_trace w' = w_trace w ++ evs ∧ Forall (enable_event tmp sp) evs ∧
     (r = Some false → w_files w' !! tmp = None ∨ unlink_refused tmp evs)) ∧
  (r = Some true →
     w_fds w' = w_fds w ∧
     ∃ written, w_files w' !! tmp = append_data written <$> (w_files w !! tmp) ∧
       (Forall (λ o, is_short o = false) (w_write_res w) →
        written = payload (w_input w))) ∧
  ((input_fuel (w_input w) <= fuel)%nat → r ≠ None).
Proof.
  induction fuel as [|fuel IH]; intros w r w' Hfd.
  { intros [= <- <-]. split; [done|]. split.
    - exists []. rewrite app_nil_r. repeat split; [constructor|done].
    - split; [done|]. unfold input_fuel. lia. }
  cbn [copy_loop]. rewrite M_bind_eq.
  destruct (sys_read in_fd BUFSIZE w) as [[rd buf] w1] eqn:Hrd.
  apply sys_read_spec in Hrd as (Hf1 & Hfd1 & Hw1 & [r1 Ht1] & Hrd);
    [|unfold BUFSIZE; lia].
  cbn [fst snd].
  destruct Hrd as [[-> Hp]|[->|(Hpos & Hne & Hp & Hfuel)]].
  - (* zero-length read: break *)
    change (0 =? 0) with true. cbv iota.
    intros [= <- <-]. rewrite Hf1, Hfd1, Ht1. split; [done|]. split.
    + eexists. split; [done|]. split; [repeat constructor|done].
    + split; [|done]. intros _. split; [done|]. exists [].
      rewrite append_data_nil. split; [done|]. by rewrite Hp.
  - (* read error *)
    change (-1 =? 0) with false. change (-1 =? -1) with true. cbv iota.
    intros H.
    apply (cleanup_spec tmp sp) in H as (-> & Hq & evs & Ht & Hev & Hg).
    rewrite <- Hf1. split; [done|]. split; [|done].
    exists (EvRead in_fd r1 :: evs). rewrite Ht, Ht1, <- app_assoc.
    split; [done|]. split; [by constructor|].
    intros _. destruct Hg as [?|[e He]]; [by left|]. right. exists e. by right.
  - (* data: write it *)
    replace (rd =? 0) with false by lia.
    replace (rd =? -1) with false by lia.
    rewrite M_bind_eq.
    destruct (sys_write out_fd buf w1) as [wr w2] eqn:Hwr.
    apply (sys_write_spec _ _ tmp) in Hwr
      as (Hfd2 & Hin2 & Hw2 & [r2 Ht2] & Hwr); [|by rewrite Hfd1].
    cbn [fst snd].
    destruct Hwr as [[-> Hf2]|(Hwpos & taken & Hf2 & Htaken)].
    + (* write error *)
      change (-1 =? -1) with true. cbv iota. intros H.
      apply (cleanup_spec tmp sp) in H as (-> & Hq & evs & Ht & Hev & Hg).
      rewrite <- Hf1, <- Hf2. split; [done|]. split; [|done].
      exists (EvRead in_fd r1 :: EvWrite out_fd (length buf) r2 :: evs).
      rewrite Ht, Ht2, Ht1, <- !app_assoc.
      split; [done|]. split; [by repeat constructor|].
      intros _. destruct Hg as [?|[e He]]; [by left|].
      right. exists e. by do 2 right.
    + replace (wr =? -1) with false by lia.
      intros H. apply IH in H as (Hq & (evs & Ht & Hev & Hg) & Hok & Hfu);
        [|by rewrite Hfd2, Hfd1].
      split.
      { intros q Hq'. rewrite Hq, Hf2, Hf1 by done. by apply lookup_alter_ne. }
      split.
      { exists (EvRead in_fd r1 :: EvWrite out_fd (length buf) r2 :: evs).
        rewrite Ht, Ht2, Ht1, <- !app_assoc.
        split; [done|]. split; [by repeat constructor|].
        intros Hr. destruct (Hg Hr) as [?|[e He]]; [by left|].
        right. exists e. by do 2 right. }
      split.
      { intros Hr. destruct (Hok Hr) as (Hfd3 & written & Hfw & Hwritten).
        split; [by rewrite Hfd3, Hfd2, Hfd1|].
        exists (taken ++ written).
        rewrite Hfw, Hf2, lookup_alter_eq, Hf1, append_data_app.
        split; [done|]. intros Hns.
        rewrite Hp, Htaken, Hwritten, Hin2; [done| |by rewrite Hw1].
        rewrite Hw2, Hw1. destruct (w_write_res w); [done|by inversion Hns]. }
      intros Hle. apply Hfu. rewrite Hin2. lia.
Qed.

(** *** Creating the temporary file and committing it *)

Lemma lowest_free_ge fds n : ∀ cand, cand <= lowest_free fds n cand.
Proof.
  induction n as [|n IH]; intros cand; simpl; [lia|].
  destruct (fds !! cand); [|lia]. specialize (IH (cand + 1)). lia.
Qed.

Lemma next_fd_ge fds : 4 <= next_fd fds.
Proof. apply lowest_free_ge. Qed.

Lemma sys_open_excl_spec w p mode r w' :
  w_files w !! p = None →
  sys_open p (Z.lor (Z.lor O_WRONLY O_CREAT) O_EXCL) mode w = (r, w') →
  w_input w' = w_input w ∧ w_write_res w' = w_write_res w ∧
  ∃ res, w_trace w' = w_trace w
           ++ [EvOpen p (Z.lor (Z.lor O_WRONLY O_CREAT) O_EXCL) mode res] ∧
    ((r = -1 ∧ w_files w' = w_files w)
     ∨ (4 <= r ∧ res = Ok r ∧ w_fds w' !! r = Some p ∧
        w_files w' =
          <[p := mkFile [] (Z.land mode (Z.lnot (w_umask w)))
                   (w_euid w) (w_egid w)]>
            (w_files w))).
Proof.
  intros Hp. unfold sys_open.
  destruct (w_open_err w) as [|[e|] rest] eqn:Ho; cbn -[next_fd];
    rewrite ?Hp; cbn -[next_fd]; intros [= <- <-]; cbn -[next_fd];
    (split; [done|]; split; [done|]; eexists; split; [done|]); auto.
  - right. split; [apply next_fd_ge|]. split; [done|].
    split; [apply lookup_insert_eq|done].
  - right. split; [apply next_fd_ge|]. split; [done|].
    split; [apply lookup_insert_eq|done].
Qed.

Lemma sys_rename_spec w src dst r w' :
  sys_rename src dst w = (r, w') →
  (∃ res, w_trace w' = w_trace w ++ [EvRename src dst res]) ∧
  ((r = 0 ∧ ∃ f, w_files w !! src = Some f ∧
      w_files w' = <[dst := f]> (delete src (w_files w)))
   ∨ (r = -1 ∧ w_files w' = w_files w)).
Proof.
  unfold sys_rename.
  destruct (w_rename_err w) as [|[e|] rest] eqn:Ho; simpl;
    try destruct (w_files w !! src) eqn:Hs; simpl;
    intros [= <- <-]; simpl; split; eauto.
Qed.

(** *** [enable] as a whole *)

Lemma enable_spec sp in_fd w r w' :
  enable sp in_fd w = (r, w') →
  ∃ evs, w_trace w' = w_trace w ++ evs ∧
    Forall (enable_event (temp_path sp) sp) evs ∧
    (∀ q, q ≠ temp_path sp → q ≠ sp → w_files w' !! q = w_files w !! q) ∧
    if r then
      w_files w' !! temp_path sp = None ∧
      (∃ fd, In (EvOpen (temp_path sp) (Z.lor (Z.lor O_WRONLY O_CREAT) O_EXCL)
                   mode_0600 (Ok fd)) evs) ∧
      ∃ written,
        w_files w' !! sp =
          Some (mkFile written (Z.land mode_0600 (Z.lnot (w_umask w)))
                  (w_euid w) (w_egid w)) ∧
        (Forall (λ o, is_short o = false) (w_write_res w) →
         written = payload (w_input w))
    else
      w_files w' !! sp = w_files w !! sp ∧
      (head (w_malloc_fail w) ≠ Some true →
       ¬ unlink_refused (temp_path sp) evs →
       w_files w' !! temp_path sp = None).
Proof.
  pose proof (temp_path_neq sp) as Hne.
  unfold enable. fold (temp_path sp). set (tmp := temp_path sp) in *.
  rewrite M_bind_eq.
  assert (Hm : ∃ ok w0, malloc w = (ok, w0) ∧
            (ok = false → head (w_malloc_fail w) = Some true ∧ w_files w0 = w_files w ∧ w_trace w0 = w_trace w) ∧
            (ok = true → w0 = set_malloc_fail (tail (w_malloc_fail w)) w)).
  { unfold malloc. destruct (w_malloc_fail w) as [|[] rest]; simpl.
    - eexists _, _. split; [done|]. split; [done|]. by destruct w.
    - eexists _, _. split; [done|]. by split.
    - eexists _, _. split; [done|]. by split. }
  destruct Hm as (ok & w0 & -> & Hfail & Hok). cbn [fst snd].
  destruct ok; cbn [negb].
  2:{ (* allocation failure *)
    destruct Hfail as (Hh & Hf & Ht); [done|].
    unfold_m. unfold perror, eprint. simpl. intros [= <- <-]. simpl.
    exists []. rewrite app_nil_r, Hf. repeat split; try done. }
  rewrite Hok by done. clear Hfail Hok w0.
  rewrite snprintf_len_nonneg. rewrite M_bind_eq.
  match goal with |- context [sys_unlink ?p ?w0] =>
    pose proof (sys_unlink_egid w0 p) as Heg1;
    destruct (sys_unlink p w0) as [r1 w1] eqn:Hu end.
  cbn in Heg1.
  cbn [fst snd]. unfold get_errno at 1. rewrite M_bind_eq. cbn [fst snd].
  pose proof Hu as Hu'. apply sys_unlink_spec in Hu' as (Hfd1 & Hin1 & Hwr1 & Hum1 & Heu1 & Hu').
  apply sys_unlink_gone in Hu as (Hq1 & res1 & Ht1 & _).
  simpl in Hfd1, Hin1, Hwr1, Hum1, Heu1, Hq1, Ht1.
  assert (Hcont : (r1 = -1 ∧ (∃ e : ioerr, w_errno w1 = e) ∧ w_files w1 = w_files w
                   ∧ ∃ e : ioerr, res1 = Err e)
                  ∨ ((negb (r1 =? 0) && negb (errno_eqb (w_errno w1) ENOENT)) = false
                     ∧ w_files w1 !! tmp = None)).
  { destruct Hu' as [(-> & Hf & Ht)|[(-> & He & Hf & Hn & Ht)|(-> & Hf & e & He & Ht)]];
      simpl in Hf, Ht.
    - right. split; [done|]. rewrite Hf. apply lookup_delete_eq.
    - right. rewrite He. split; [done|]. by rewrite Hf.
    - left. rewrite Ht in Ht1. apply app_inv_head in Ht1. injection Ht1 as <-. eauto 10. }
  clear Hu'.
  destruct Hcont as [(-> & [e He] & Hf1 & e' & ->)|[-> Htmp1]].
  { (* the pre-unlink was refused *)
    rewrite He. cbn [negb andb errno_eqb Z.eqb].
    unfold_m. unfold perror, eprint. simpl. intros [= <- <-]. simpl.
    exists [EvUnlink (Some tmp) (Err e')]. rewrite Ht1, Hf1.
    repeat split; try done; [by repeat constructor|].
    intros _ Hnr. destruct Hnr. exists e'. by left. }
  rewrite M_bind_eq.
  destruct (sys_open tmp (Z.lor (Z.lor O_WRONLY O_CREAT) O_EXCL) mode_0600 w1)
    as [out_fd w2] eqn:Ho.
  apply sys_open_excl_spec in Ho as (Hin2 & Hwr2 & res2 & Ht2 & Ho); [|done].
  cbn [fst snd].
  destruct Ho as [[-> Hf2]|(Hfd & -> & Hfd2 & Hf2)].
  { (* exclusive create failed *)
    change (-1 =? -1) with true. cbv iota.
    unfold_m. unfold perror, eprint. simpl. intros [= <- <-]. simpl.
    eexists [_; _]. rewrite Hf2, Ht2, Ht1, <- app_assoc.
    split; [done|]. split; [by repeat constructor|].
    split; [intros q ? ?; by apply Hq1|]. split; [by apply Hq1|]. done. }
  replace (out_fd =? -1) with false by lia.
  rewrite M_bind_eq. cbn [fst snd]. rewrite M_bind_eq.
  destruct (copy_loop (input_fuel (w_input w2)) in_fd out_fd tmp w2)
    as [copied w3] eqn:Hl.
  apply (copy_loop_spec tmp sp) in Hl
    as (Hq3 & (evs3 & Ht3 & Hev3 & Hg3) & Hok3 & Hfuel3); [|done].
  cbn [fst snd].
  assert (Hstate3 : w_files w3 !! sp = w_files w !! sp).
  { rewrite Hq3, Hf2, lookup_insert_ne, Hq1 by done. done. }
  assert (Hother3 : ∀ q, q ≠ tmp → w_files w3 !! q = w_files w !! q).
  { intros q Hq. rewrite Hq3, Hf2, lookup_insert_ne, Hq1 by done. done. }
  destruct copied as [[]|]; [| |by destruct Hfuel3].
  2:{ (* the loop returned false *)
    intros [= <- <-]. eexists (_ :: _ :: evs3).
    rewrite Ht3, Ht2, Ht1, <- !app_assoc.
    split; [done|]. split; [by repeat constructor|].
    split; [intros q ? ?; by apply Hother3|]. split; [done|].
    intros _ Hnr. destruct (Hg3 eq_refl) as [?|[e He]]; [done|].
    destruct Hnr. exists e. by do 2 right. }
  (* the loop ended at end of input *)
  destruct (Hok3 eq_refl) as (Hfd3 & written & Hw3 & Hpay).
  rewrite Hf2, lookup_insert_eq in Hw3. cbn [fmap option_fmap option_map] in Hw3.
  unfold append_data in Hw3. cbn [f_data f_mode f_owner f_group app] in Hw3.
  rewrite M_bind_eq. unfold sys_close at 1. cbn [fst snd]. rewrite M_bind_eq.
  match goal with |- context [sys_rename ?a ?b ?w0] =>
    destruct (sys_rename a b w0) as [r5 w5] eqn:Hr end.
  apply sys_rename_spec in Hr as ([res5 Ht5] & Hr). simpl in Ht5, Hr.
  cbn [fst snd].
  destruct Hr as [(-> & f & Hsrc & Hf5)|[-> Hf5]].
  - (* committed *)
    change (negb (0 =? 0)) with false. cbv iota.
    unfold_m. unfold eprint. simpl. intros [= <- <-]. simpl.
    eexists (_ :: _ :: evs3 ++ [_; _]).
    rewrite Ht5, Ht3, Ht2, Ht1, <- !app_assoc. split; [done|].
    split.
    { repeat constructor; try done. apply Forall_app. split; [done|].
      by repeat constructor. }
    split.
    { intros q Hq Hq'. rewrite Hf5, lookup_insert_ne, lookup_delete_ne by done.
      by apply Hother3. }
    rewrite Hf5. split; [by rewrite lookup_insert_ne, lookup_delete_eq|].
    split; [exists out_fd; right; by left|].
    exists written. rewrite lookup_insert_eq.
    rewrite Hw3 in Hsrc. injection Hsrc as <-.
    rewrite Hum1, Heu1, Heg1. split; [done|].
    intros Hns. rewrite Hpay; [by rewrite Hin2, Hin1|by rewrite Hwr2, Hwr1].
  - (* the rename failed *)
    change (negb (-1 =? 0)) with true. cbv iota.
    rewrite M_bind_eq. unfold perror at 1, eprint at 1. cbn [fst snd].
    rewrite M_bind_eq.
    match goal with |- context [sys_unlink ?p ?w0] =>
      destruct (sys_unlink p w0) as [r6 w6] eqn:Hu6 end.
    apply sys_unlink_gone in Hu6 as (Hq6 & res6 & Ht6 & Hg6).
    simpl in Hq6, Ht6. cbn [fst snd]. intros [= <- <-].
    eexists (_ :: _ :: evs3 ++ [_; _; _]).
    rewrite Ht6, Ht5, Ht3, Ht2, Ht1, <- !app_assoc. split; [done|].
    split.
    { repeat constructor; try done. apply Forall_app. split; [done|].
      by repeat constructor. }
    split.
    { intros q Hq Hq'. rewrite Hq6, Hf5 by done. by apply Hother3. }
    split; [by rewrite Hq6, Hf5|].
    intros _ Hnr. destruct Hg6 as [?|[e ->]]; [done|].
    destruct Hnr. exists e. apply in_cons, in_cons, in_app_iff. right. simpl. auto.
Qed.

(** *** The option loop *)

Lemma usage_short prog w :
  usage prog false w = (1, set_stderr (w_stderr w ++ usage_lines prog) w).
Proof.
  unfold usage, eprint, usage_lines. unfold_m. simpl.
  by rewrite <- !app_assoc.
Qed.

Lemma usage_help prog w :
  usage prog true w = (0, set_stdout (w_stdout w ++ help_lines prog) w).
Proof.
  unfold usage, print, help_lines. unfold_m. simpl.
  by rewrite <- !app_assoc.
Qed.

Section Properties.

Variable GAUTH_STATEDIR : string.
Variable VERSION : string.

(** The loop writes to the standard streams only. *)
Lemma opt_loop_frame prog toks : ∀ c g w r w',
  opt_loop VERSION prog toks c g w = (r, w') →
  ∃ out err,
    w' = set_stdout (w_stdout w ++ out) (set_stderr (w_stderr w ++ err) w).
Proof.
  induction toks as [|t toks IH]; intros c g w r w'.
  { intros [= <- <-]. exists [], []. rewrite !app_nil_r. by destruct w. }
  cbn [opt_loop]. rewrite M_bind_eq.
  set (w1 := ((match t_diag t with Some msg => eprint msg | None => mret () end) w).2).
  assert (Hw1 : ∃ err, w1 = set_stderr (w_stderr w ++ err) w).
  { unfold w1. destruct (t_diag t) as [msg|]; simpl.
    - by exists [msg].
    - exists []. rewrite app_nil_r. by destruct w. }
  destruct Hw1 as [err1 Hw1]. clearbody w1. subst w1. cbv zeta.
  assert (Hrec : ∀ c g r w',
             opt_loop VERSION prog toks c g (set_stderr (w_stderr w ++ err1) w) = (r, w') →
             ∃ out err,
               w' = set_stdout (w_stdout w ++ out) (set_stderr (w_stderr w ++ err) w)).
  { intros c0 g0 r0 w0 H. apply IH in H as (out & err & ->). simpl.
    exists out, (err1 ++ err). by rewrite app_assoc. }
  repeat (match goal with |- context [Ascii.eqb ?a ?b] => destruct (Ascii.eqb a b) end);
    try (by apply Hrec).
  - rewrite M_bind_eq, usage_help. simpl. intros [= <- <-].
    by exists (help_lines prog), err1.
  - unfold print. unfold_m. simpl. intros [= <- <-].
    by eexists [_], err1.
  - rewrite M_bind_eq. unfold eprint at 1. cbn [fst snd]. intros H.
    apply IH in H as (out & err & ->). simpl.
    exists out, (err1 ++ ("missing argument." +:+ nl) :: err).
    by rewrite <- !app_assoc.
  - rewrite M_bind_eq, usage_short. simpl. intros [= <- <-].
    exists [], (err1 ++ usage_lines prog). by rewrite app_nil_r, <- !app_assoc.
Qed.

(** *** Results of [getopt_long] *)

Lemma short_spec_cases c a :
  short_spec c = Some a →
  (a = required_argument ∧ (c = "e" ∨ c = "d")%char)
  ∨ (a = no_argument ∧ (c = "s" ∨ c = "h" ∨ c = "V")%char).
Proof.
  unfold short_spec, optstring. destruct (Ascii.eqb c ":") eqn:Hc; [done|].
  cbn [short_lookup takes_arg].
  repeat match goal with
  | |- context [Ascii.eqb ?x c] =>
      let E := fresh "E" in
      destruct (Ascii.eqb x c) eqn:E;
      [apply Ascii.eqb_eq in E; subst c; try discriminate Hc;
       cbn; intros [= <-]; auto 10|]
  end.
  done.
Qed.

Lemma scan_cluster_wf prog next cs :
  Forall tok_wf (scan_cluster prog cs next).1.
Proof.
  induction cs as [|c cs IH]; cbn [scan_cluster]; [constructor|].
  destruct (short_spec c) as [a|] eqn:Hs.
  - apply short_spec_cases in Hs as [[-> Hc]|[-> Hc]].
    + assert (Hwf : ∀ x, tok_wf (mkTok c (Some x) None)).
      { intros x. unfold tok_wf; cbn. destruct Hc as [->| ->]; eauto. }
      destruct cs as [|c' cs'].
      * destruct next; cbn; (apply List.Forall_cons; [|constructor]); auto.
        by unfold tok_wf.
      * cbn. apply List.Forall_cons; [|constructor]; auto.
    + destruct (scan_cluster prog cs next) as [ts used]. cbn in *.
      apply List.Forall_cons; [|done]. unfold tok_wf; cbn.
      destruct Hc as [->|[->| ->]]; auto 10.
  - destruct (scan_cluster prog cs next) as [ts used]. cbn in *.
    apply List.Forall_cons; [|done]. by unfold tok_wf.
Qed.

Lemma scan_long_wf prog body next : tok_wf (scan_long prog body next).1.
Proof.
  unfold scan_long. destruct (split_eq body) as [nm val].
  destruct (long_lookup nm) as [o|poss|] eqn:Hl; [|by unfold tok_wf..].
  assert (Ho : In o long_opts).
  { unfold long_lookup in Hl.
    destruct (find _ long_opts) as [o'|] eqn:Hf.
    - injection Hl as <-. by apply find_some in Hf as [? _].
    - destruct (List.filter _ long_opts) as [|o' others] eqn:Hfl; [done|].
      assert (In o' long_opts) as Hin.
      { eapply (proj1 (filter_In _ _ _)). rewrite Hfl. by left. }
      destruct (List.filter _ others); [|discriminate Hl].
      by injection Hl as <-. }
  unfold long_opts in Ho. cbn in Ho.
  destruct Ho as [<-|[<-|[<-|[<-|[<-|[]]]]]]; cbn;
    destruct val; try destruct next; cbn; unfold tok_wf; cbn; eauto 10.
Qed.

Lemma getopt_long_wf prog args : Forall tok_wf (getopt_long prog args).1.
Proof.
  remember (length args) as n eqn:Hn.
  revert args Hn. induction (lt_wf n) as [n _ IH]. intros args ->.
  destruct args as [|a rest]; [constructor|].
  assert (IH1 : Forall tok_wf (getopt_long prog rest).1).
  { eapply IH; [|done]. simpl. lia. }
  cbn [getopt_long].
  destruct (strip_prefix "--" a) as [[|c body]|].
  - constructor.
  - destruct rest as [|nx rest']; [apply List.Forall_cons; [apply scan_long_wf|constructor]|].
    pose proof (scan_long_wf prog (String c body) (Some nx)) as Hs.
    destruct (scan_long prog (String c body) (Some nx)) as [t used].
    assert (IH2 : Forall tok_wf (getopt_long prog rest').1).
    { eapply IH; [|done]. simpl. lia. }
    destruct used.
    + destruct (getopt_long prog rest'). by constructor.
    + destruct (getopt_long prog (nx :: rest')). by constructor.
  - destruct (strip_prefix "-" a) as [[|c cs]|].
    + by destruct (getopt_long prog rest).
    + destruct rest as [|nx rest']; [apply scan_cluster_wf|].
      pose proof (scan_cluster_wf prog (Some nx) (String c cs)) as Hs.
      destruct (scan_cluster prog (String c cs) (Some nx)) as [t used].
      assert (IH2 : Forall tok_wf (getopt_long prog rest').1).
      { eapply IH; [|done]. simpl. lia. }
      destruct used.
      * destruct (getopt_long prog rest'). by apply Forall_app.
      * destruct (getopt_long prog (nx :: rest')). by apply Forall_app.
    + by destruct (getopt_long prog rest).
Qed.

(** A well-formed token is an error, an action, or help/version;
    the loop's [switch] follows. *)
Lemma tok_wf_cases t :
  tok_wf t →
  (∃ msg, t_diag t = Some msg ∧ t_opt t = "?"%char)
  ∨ (t_diag t = None ∧
     ((t_opt t = "e" ∨ t_opt t = "s" ∨ t_opt t = "h" ∨ t_opt t = "V")%char
      ∨ (t_opt t = "d"%char ∧ is_Some (t_optarg t)))).
Proof. unfold tok_wf. destruct (t_diag t); eauto. Qed.

Lemma opt_loop_result prog toks :
  Forall tok_wf toks → ∀ c g w r w',
  opt_loop VERSION prog toks c g w = (r, w') →
  c ≠ CMD_NEXT → (c = CMD_DISABLE → is_Some g) →
  match r with
  | inl code => code = 0 ∨ code = 1
  | inr (cmd, gu) => cmd ≠ CMD_NEXT ∧ (cmd = CMD_DISABLE → is_Some gu)
  end.
Proof.
  induction 1 as [|t toks Ht _ IH]; intros c g w r w'.
  { by intros [= <- <-]. }
  cbn [opt_loop]. rewrite M_bind_eq. cbv zeta.
  apply tok_wf_cases in Ht as [(msg & Hd & Ho)|[Hd Ho]]; rewrite Hd.
  - rewrite Ho. cbn [Ascii.eqb Bool.eqb]. cbv iota.
    rewrite M_bind_eq, usage_short. intros [= <- <-]. auto.
  - destruct Ho as [[Ho|[Ho|[Ho|Ho]]]|[Ho Harg]]; rewrite Ho;
      cbn [Ascii.eqb Bool.eqb]; cbv iota.
    + intros H _ _. by eapply IH.
    + intros H _ _. by eapply IH.
    + rewrite M_bind_eq, usage_help. intros [= <- <-]. auto.
    + unfold print. unfold_m. intros [= <- <-]. auto.
    + intros H _ _. by eapply IH.
Qed.

Lemma command_of_action t :
  is_action t = true →
  command_of (t_opt t) ≠ CMD_NULL ∧ command_of (t_opt t) ≠ CMD_NEXT.
Proof.
  unfold is_action, command_of.
  destruct (Ascii.eqb (t_opt t) "e"); [done|].
  destruct (Ascii.eqb (t_opt t) "d"); [done|].
  destruct (Ascii.eqb (t_opt t) "s"); done.
Qed.

(** Without [-h] and [-V] the loop either stops at the first error with
    the usage message, or runs through a list of actions, each
    overwriting the selection of the one before. *)
Lemma opt_loop_no_exit prog toks :
  Forall tok_wf toks →
  Forall (λ t, exits_early t = false) toks →
  ∀ c g w,
  (∃ diag,
     opt_loop VERSION prog toks c g w
     = (inl 1, set_stderr (w_stderr w ++ diag ++ usage_lines prog) w)
     ∧ Exists (λ t, is_action t = false) toks)
  ∨ (∃ gu,
       opt_loop VERSION prog toks c g w
       = (inr (from_option (λ t, command_of (t_opt t)) c (last toks), gu), w)
       ∧ Forall (λ t, is_action t = true) toks).
Proof.
  induction 1 as [|t toks Ht _ IH]; intros Hne c g w.
  { right. exists g. by split. }
  apply Forall_cons in Hne as [Hne1 Hne].
  specialize (IH Hne).
  cbn [opt_loop]. rewrite M_bind_eq. cbv zeta.
  assert (Hlast : ∀ c, from_option (λ t, command_of (t_opt t)) c (last (t :: toks))
            = from_option (λ t, command_of (t_opt t)) (command_of (t_opt t)) (last toks)).
  { intros c0. rewrite last_cons. by destruct (last toks). }
  rewrite Hlast.
  apply tok_wf_cases in Ht as [(msg & Hd & Ho)|[Hd Ho]]; rewrite Hd.
  - left. exists [msg]. rewrite Ho. cbn [Ascii.eqb Bool.eqb]. cbv iota.
    rewrite M_bind_eq, usage_short. simpl. rewrite <- app_assoc. split; [done|].
    apply Exists_cons_hd. unfold is_action. by rewrite Ho.
  - remember (command_of (t_opt t)) as c1 eqn:Hc1.
    assert (Hact : ∀ g',
      is_action t = true →
      (∃ diag, opt_loop VERSION prog toks c1 g' w
              = (inl 1, set_stderr (w_stderr w ++ diag ++ usage_lines prog) w)
              ∧ Exists (λ t, is_action t = false) (t :: toks))
      ∨ (∃ gu, opt_loop VERSION prog toks c1 g' w
              = (inr (from_option (λ t, command_of (t_opt t)) c1 (last toks), gu), w)
              ∧ Forall (λ t, is_action t = true) (t :: toks))).
    { intros g' Ha.
      destruct (IH c1 g' w) as [(diag & -> & Hex)|(gu & -> & Hall)].
      - left. exists diag. split; [done|]. by apply Exists_cons_tl.
      - right. exists gu. split; [done|]. by apply List.Forall_cons. }
    unfold exits_early in Hne1. unfold is_action in Hact.
    destruct Ho as [[Ho|[Ho|[Ho|Ho]]]|[Ho Harg]]; rewrite Ho in *;
      cbn [Ascii.eqb Bool.eqb] in *; cbv iota; try discriminate Hne1;
      subst c1; by apply Hact.
Qed.

(** *** From [main] to the [switch] *)

Local Notation "'state_path_of' u" := (GAUTH_STATEDIR +:+ "/" +:+ u) (at level 10, u at level 9, only parsing).

Lemma get_state_path_spec u w :
  get_state_path GAUTH_STATEDIR u w
  = if decide (head (w_malloc_fail w) = Some true)
    then (None, set_errno ENOMEM (set_malloc_fail (tail (w_malloc_fail w)) w))
    else (Some (state_path_of u), set_malloc_fail (tail (w_malloc_fail w)) w).
Proof.
  unfold get_state_path, malloc. rewrite M_bind_eq.
  destruct (w_malloc_fail w) as [|[] rest]; cbn [pop fst snd head tail];
    rewrite ?snprintf_len_nonneg; by case_decide.
Qed.

Lemma main_reaches_dispatch prog args r0 w toks cmd gu u :
  getopt_long prog args = (toks, []) →
  (opt_loop VERSION prog toks CMD_NULL None w).1 = inr (cmd, gu) →
  cmd ≠ CMD_NULL →
  w_passwd w !! w_ruid w = Some u →
  head (w_malloc_fail w) ≠ Some true →
  ∃ out err,
    main GAUTH_STATEDIR VERSION prog args r0 w
    = dispatch GAUTH_STATEDIR cmd gu u (state_path_of u) r0
        (set_malloc_fail (tail (w_malloc_fail w))
           (log (EvUmask mask_077)
              (set_umask (Z.land mask_077 mode_0777)
                 (set_stdout (w_stdout w ++ out)
                    (set_stderr (w_stderr w ++ err) w))))).
Proof.
  intros Hg Hl Hc Hu Hm. unfold main. rewrite Hg, M_bind_eq.
  destruct (opt_loop VERSION prog toks CMD_NULL None w) as [parsed w1] eqn:Hl1.
  cbn [fst snd] in *. subst parsed.
  apply opt_loop_frame in Hl1 as (out & err & ->). exists out, err.
  replace (command_eqb cmd CMD_NULL) with false by (by destruct cmd).
  cbn [length Nat.eqb negb orb].
  rewrite M_bind_eq. unfold sys_umask at 1. cbn [fst snd].
  rewrite M_bind_eq, get_user_spec.
  cbn [w_passwd w_ruid log set_umask set_stdout set_stderr].
  rewrite Hu. cbn [fst snd]. rewrite M_bind_eq, get_state_path_spec.
  cbn [w_malloc_fail log set_umask set_stdout set_stderr].
  by case_decide.
Qed.

Lemma dispatch_exit_status cmd gu u sp r0 w code w' :
  cmd ≠ CMD_NULL → cmd ≠ CMD_NEXT → (cmd = CMD_DISABLE → is_Some gu) →
  dispatch GAUTH_STATEDIR cmd gu u sp r0 w = (code, w') →
  code = 0 ∨ code = 1
  ∨ (code = r0 ∧ ∃ line, last (w_stderr w') = Some line ∧ is_refusal line).
Proof.
  intros Hn1 Hn2 Hg. unfold dispatch. destruct cmd; try done.
  - rewrite M_bind_eq. destruct (status sp w) as [st w1]. cbn [fst snd].
    destruct st; cbn [negb].
    + unfold_m. unfold eprint. cbn. intros [= <- <-]. do 2 right.
      split; [done|]. eexists. cbn. rewrite last_snoc. split; [done|].
      left. by exists u.
    + rewrite M_bind_eq. destruct (enable sp 3 w1) as [r w2]. cbn.
      intros [= <- <-]. destruct r; auto.
  - destruct (Hg eq_refl) as [g ->]. rewrite M_bind_eq. unfold getuid.
    cbn [fst snd]. destruct (w_ruid w =? 0).
    + rewrite M_bind_eq. destruct (get_state_path _ _ _) as [p w1].
      cbn [fst snd]. rewrite M_bind_eq. destruct (disable p w1) as [r w2].
      cbn. intros [= <- <-]. destruct r; auto.
    + unfold_m. unfold eprint. cbn. intros [= <- <-]. do 2 right.
      split; [done|]. eexists. cbn. rewrite last_snoc. split; [done|].
      right. by exists g.
  - rewrite M_bind_eq. destruct (status sp w) as [st w1]. cbn.
    intros [= <- <-]. destruct st; auto.
Qed.

(** X1.  Every run of [main] returns 0 or 1, except that a run which
    ends with the error line of one of the two refusals of the [switch]
    returns the indeterminate value of [ret], which those two branches
    never assign.  In particular no run ends in a failed [assert]: the
    one before the [switch] holds and [givenuser] is assigned whenever
    the command is [CMD_DISABLE]. *)
Lemma main_exit_status prog args r0 w :
  ∃ code w',
    main GAUTH_STATEDIR VERSION prog args r0 w = (code, w') ∧
    (code = 0 ∨ code = 1
     ∨ (code = r0 ∧ ∃ line, last (w_stderr w') = Some line ∧ is_refusal line)).
Proof.
  unfold main. pose proof (getopt_long_wf prog args) as Hwf.
  destruct (getopt_long prog args) as [toks ops]. cbn [fst] in Hwf.
  rewrite M_bind_eq.
  destruct (opt_loop VERSION prog toks CMD_NULL None w) as [parsed w1] eqn:Hl.
  apply opt_loop_result in Hl; [|done..]. cbn [fst snd].
  destruct parsed as [code|[cmd gu]].
  { unfold_m. eexists _, _. split; [done|]. destruct Hl as [->| ->]; auto. }
  destruct Hl as [Hnext Hgu].
  destruct (command_eqb cmd CMD_NULL || negb (length ops =? 0)%nat) eqn:Hu.
  { rewrite usage_short. eexists _, _. split; [done|]. auto. }
  apply orb_false_iff in Hu as [Hnull _].
  rewrite M_bind_eq. unfold sys_umask at 1. cbn [fst snd].
  rewrite M_bind_eq. destruct (get_user _) as [[u|] w2]; cbn [fst snd].
  2:{ unfold_m. unfold perror, eprint. cbn. eexists _, _. split; [done|]. auto. }
  rewrite M_bind_eq. destruct (get_state_path _ _ _) as [[sp|] w3]; cbn [fst snd].
  2:{ unfold_m. unfold perror, eprint. cbn. eexists _, _. split; [done|]. auto. }
  destruct (dispatch GAUTH_STATEDIR cmd gu u sp r0 w3) as [code w'] eqn:Hd.
  exists code, w'. split; [done|].
  eapply dispatch_exit_status; [| | |exact Hd]; try done. by destruct cmd.
Qed.

(** ** [disable] *)

Lemma disable_spec sp w r w' :
  disable (Some sp) w = (r, w') →
  (∀ q, q ≠ sp → w_files w' !! q = w_files w !! q) ∧
  w_unlink_err w' = tail (w_unlink_err w) ∧
  if r then
    w_files w' !! sp = None ∧
    (∀ e : ioerr, head (w_unlink_err w) ≠ Some (Some e))
  else
    w_files w' = w_files w ∧
    ∃ e : ioerr, head (w_unlink_err w) = Some (Some e) ∧
      w_stderr w' = w_stderr w
        ++ ["Unable to remove state file" +:+ ": " +:+ strerror e +:+ nl].
Proof.
  unfold disable, sys_unlink, get_errno, eprint, perror. unfold_m.
  destruct (w_unlink_err w) as [|[e|] rest] eqn:Hu; simpl.
  - destruct (w_files w !! sp) eqn:Hf; simpl; intros [= <- <-]; simpl.
    + split; [intros q Hq; by apply lookup_delete_ne|]. split; [done|].
      split; [apply lookup_delete_eq|done].
    + done.
  - intros [= <- <-]. simpl. eauto 10.
  - destruct (w_files w !! sp) eqn:Hf; simpl; intros [= <- <-]; simpl.
    + split; [intros q Hq; by apply lookup_delete_ne|]. split; [done|].
      split; [apply lookup_delete_eq|done].
    + done.
Qed.

(** C8. [disable] is idempotent.  Whatever the outcome, a [disable] that
    returns true leaves the state path absent, and it returns false
    exactly when the unlink is refused with an error other than ENOENT,
    in which case nothing is removed and the failure is reported
    (RemoveFailed).  When the system refuses neither of two successive
    unlinks, both [disable] calls succeed, the state path is absent after
    each, and the second one (whose unlink meets ENOENT) changes no file. *)
Theorem disable_idempotent sp w :
  (∀ r w', disable (Some sp) w = (r, w') →
     (r = true → w_files w' !! sp = None) ∧
     (r = false ↔ ∃ e : ioerr, head (w_unlink_err w) = Some (Some e)) ∧
     (r = false → w_files w' = w_files w ∧
        ∃ e : ioerr, w_stderr w' = w_stderr w
          ++ ["Unable to remove state file" +:+ ": " +:+ strerror e +:+ nl])) ∧
  (Forall (λ o, o = None) (take 2 (w_unlink_err w)) →
   ∃ w1 w2,
     disable (Some sp) w = (true, w1) ∧ disable (Some sp) w1 = (true, w2) ∧
     w_files w1 !! sp = None ∧ w_files w2 !! sp = None ∧
     w_files w2 = w_files w1 ∧
     In (EvUnlink (Some sp) (Err ENOENT)) (w_trace w2)).
Proof.
  split.
  - intros r w' H. apply disable_spec in H as (_ & _ & H).
    destruct r.
    + destruct H as [Hf Hn]. split; [done|]. split; [|done].
      split; [done|]. intros [e He]. by destruct (Hn e).
    + destruct H as (Hf & e & He & Herr). split; [done|].
      split; [split; eauto|]. eauto.
  - intros Hok.
    destruct (disable (Some sp) w) as [r1 w1] eqn:H1.
    pose proof H1 as H1'. apply disable_spec in H1' as (Hq1 & Hu1 & H1').
    destruct r1.
    2:{ destruct H1' as (_ & e & He & _).
        destruct (w_unlink_err w) as [|o l]; [done|]. simpl in *.
        apply Forall_cons in Hok as [-> _]. done. }
    destruct H1' as [Hf1 _].
    destruct (disable (Some sp) w1) as [r2 w2] eqn:H2.
    pose proof H2 as H2'. apply disable_spec in H2' as (Hq2 & Hu2 & H2').
    destruct r2.
    2:{ destruct H2' as (_ & e & He & _). rewrite Hu1 in He.
        destruct (w_unlink_err w) as [|o [|o' l]]; try done. simpl in *.
        apply Forall_cons in Hok as [_ Hok].
        apply Forall_cons in Hok as [-> _]. done. }
    destruct H2' as [Hf2 Hn2].
    exists w1, w2. repeat split; try done.
    + apply map_eq. intros q. destruct (decide (q = sp)) as [->|Hq].
      * by rewrite Hf1, Hf2.
      * by apply Hq2.
    + revert H2. unfold disable, sys_unlink, get_errno, eprint, perror. unfold_m.
      destruct (w_unlink_err w1) as [|[e|] rest] eqn:Hu; simpl;
        rewrite ?Hf1; simpl; try (intros [= <-]; simpl; apply in_app_iff; right; by left).
Qed.

(** ** [enable] *)

(** C1 (amended).  A failed [enable] leaves the state path, and every
    path other than the temporary one, exactly as it was.  The temporary
    path does not exist afterwards provided the buffer for its name could
    be allocated and the system refused no unlink of the temporary path:
    this covers a failed exclusive create, and a read error, a write
    error or a failed rename followed by a working cleanup unlink.  (When
    the pre-unlink itself is refused, [enable] gives up at once and a
    stale temporary file stays where it was.) *)
Theorem enable_failure_keeps_state sp in_fd w w' :
  enable sp in_fd w = (false, w') →
  w_files w' !! sp = w_files w !! sp ∧
  (∀ q, q ≠ temp_path sp → w_files w' !! q = w_files w !! q) ∧
  ∃ evs, w_trace w' = w_trace w ++ evs ∧
    Forall (enable_event (temp_path sp) sp) evs ∧
    (head (w_malloc_fail w) ≠ Some true →
     ¬ unlink_refused (temp_path sp) evs →
     w_files w' !! temp_path sp = None).
Proof.
  intros H. apply enable_spec in H as (evs & Ht & Hev & Hq & Hsp & Htmp).
  split; [done|]. split.
  - intros q Hq'. destruct (decide (q = sp)) as [->|Hne]; [done|]. by apply Hq.
  - by exists evs.
Qed.

(** X2.  When every write takes all the bytes it is given, a successful
    [enable] installs exactly the payload; the bytes of a short read are
    copied like any others and only a zero-length read ends the copy. *)
Lemma enable_full_writes_payload sp in_fd w w' :
  Forall (λ o, is_short o = false) (w_write_res w) →
  enable sp in_fd w = (true, w') →
  f_data <$> (w_files w' !! sp) = Some (payload (w_input w)) ∧
  w_files w' !! temp_path sp = None.
Proof.
  intros Hns H. apply enable_spec in H as (evs & Ht & Hev & Hq & Htmp & _ & written & Hf & Hp).
  rewrite Hf. simpl. by rewrite Hp.
Qed.

(** The fuel [enable] gives to the copy loop is never exhausted: the
    loop always ends by [break] or by [return false]. *)
Lemma copy_loop_terminates tmp in_fd out_fd w :
  w_fds w !! out_fd = Some tmp →
  (copy_loop (input_fuel (w_input w)) in_fd out_fd tmp w).1 ≠ None.
Proof.
  intros Hfd.
  destruct (copy_loop (input_fuel (w_input w)) in_fd out_fd tmp w) as [r w'] eqn:H.
  apply (copy_loop_spec tmp tmp) in H as (_ & _ & _ & Hfuel); auto.
Qed.

(** ** [status] *)

Lemma status_spec sp w :
  ((status sp w).1 = true ↔ opens_for_reading w sp) ∧
  w_files (status sp w).2 = w_files w ∧
  w_fds (status sp w).2 = w_fds w ∧
  w_input (status sp w).2 = w_input w ∧
  w_umask (status sp w).2 = w_umask w ∧
  w_euid (status sp w).2 = w_euid w ∧
  w_malloc_fail (status sp w).2 = w_malloc_fail w ∧
  w_write_res (status sp w).2 = w_write_res w ∧
  w_trace (status sp w).2
  = w_trace w ++ [EvFopen sp (status sp w).1].
Proof.
  unfold status, print, fopen_r, opens_for_reading. unfold_m. simpl.
  destruct (w_fopen_res w) as [|[| |e] rest] eqn:Hs; simpl;
    try (repeat split; try done; auto; by intros [[=]|[[=] _]]).
  all: destruct (w_files w !! sp) as [f|] eqn:Hf; simpl;
    [destruct (readable _ _ _ f) eqn:Hr; simpl|];
    repeat split; try done; eauto;
    by intros [[=]|(_ & f' & [=] & Hr')]; congruence.
Qed.

Lemma status_ident sp w :
  w_egid (status sp w).2 = w_egid w ∧
  w_groups (status sp w).2 = w_groups w ∧
  w_fopen_res (status sp w).2 = tail (w_fopen_res w).
Proof.
  unfold status, print, fopen_r. unfold_m. simpl.
  destruct (w_fopen_res w) as [|[| |e] rest]; simpl; try done;
    destruct (w_files w !! sp) as [f|]; simpl; try done;
    by destruct (readable _ _ _ f).
Qed.

(** C7 (amended).  [status] returns true exactly when [fopen(path, "r")]
    succeeds: when a regular file that the process may read is at the
    state path, and equally when the path names a directory or a device
    that opens for reading.  It changes no file and reads nothing from
    the input descriptor.  For a command line that selects [--status],
    with the invoking user known and the path buffer allocated, [main]
    exits 0 exactly in that case and 1 otherwise, in particular when
    there is nothing at the state path; the files, the descriptor table
    and the pending input are as before. *)
Theorem status_reports_presence prog args r0 w toks gu u :
  getopt_long prog args = (toks, []) →
  (opt_loop VERSION prog toks CMD_NULL None w).1 = inr (CMD_STATUS, gu) →
  w_passwd w !! w_ruid w = Some u →
  head (w_malloc_fail w) ≠ Some true →
  (∀ sp w0,
     ((status sp w0).1 = true ↔ opens_for_reading w0 sp) ∧
     w_files (status sp w0).2 = w_files w0 ∧
     w_input (status sp w0).2 = w_input w0) ∧
  ((main GAUTH_STATEDIR VERSION prog args r0 w).1 = 0
   ↔ opens_for_reading w (state_path_of u)) ∧
  (w_files w !! state_path_of u = None →
   head (w_fopen_res w) ≠ Some FoOther →
   (main GAUTH_STATEDIR VERSION prog args r0 w).1 = 1) ∧
  ((main GAUTH_STATEDIR VERSION prog args r0 w).1 = 0
   ∨ (main GAUTH_STATEDIR VERSION prog args r0 w).1 = 1) ∧
  w_files (main GAUTH_STATEDIR VERSION prog args r0 w).2 = w_files w ∧
  w_fds (main GAUTH_STATEDIR VERSION prog args r0 w).2 = w_fds w ∧
  w_input (main GAUTH_STATEDIR VERSION prog args r0 w).2 = w_input w.
Proof.
  intros Hg Hl Hu Hm.
  split. { intros sp w0. pose proof (status_spec sp w0). tauto. }
  destruct (main_reaches_dispatch prog args r0 w toks CMD_STATUS gu u)
    as (out & err & ->); try done.
  unfold dispatch. rewrite M_bind_eq.
  match goal with |- context [status ?p ?w0] =>
    pose proof (status_spec p w0) as (Hst & Hf & Hfd & Hin & _);
    destruct (status p w0) as [st w1] end.
  unfold opens_for_reading in *.
  cbn in Hst, Hf, Hfd, Hin |- *. rewrite Hf, Hfd, Hin.
  assert (Hiff : (if st then 0 else 1) = 0 ↔ st = true) by (by destruct st).
  split; [by rewrite Hiff|]. split.
  - intros Hnone Hdir. destruct st; [|done].
    destruct Hst as [Hst _].
    destruct (Hst eq_refl) as [?|(_ & f & Hf' & _)]; congruence.
  - split; [destruct st; auto|done].
Qed.

Lemma main_alloc_failure prog args r0 w toks cmd gu u :
  getopt_long prog args = (toks, []) →
  (opt_loop VERSION prog toks CMD_NULL None w).1 = inr (cmd, gu) →
  cmd ≠ CMD_NULL →
  w_passwd w !! w_ruid w = Some u →
  head (w_malloc_fail w) = Some true →
  ∃ w', main GAUTH_STATEDIR VERSION prog args r0 w = (1, w') ∧
        w_files w' = w_files w.
Proof.
  intros Hg Hl Hc Hu Hm. unfold main. rewrite Hg, M_bind_eq.
  destruct (opt_loop VERSION prog toks CMD_NULL None w) as [parsed w1] eqn:Hl1.
  cbn [fst snd] in *. subst parsed.
  apply opt_loop_frame in Hl1 as (out & err & ->).
  replace (command_eqb cmd CMD_NULL) with false by (by destruct cmd).
  cbn [length Nat.eqb negb orb].
  rewrite M_bind_eq. unfold sys_umask at 1. cbn [fst snd].
  rewrite M_bind_eq, get_user_spec.
  cbn [w_passwd w_ruid log set_umask set_stdout set_stderr].
  rewrite Hu. cbn [fst snd]. rewrite M_bind_eq, get_state_path_spec.
  cbn [w_malloc_fail log set_umask set_stdout set_stderr].
  case_decide; [|done]. cbn [fst snd]. unfold perror, eprint. unfold_m.
  eexists. split; [done|]. done.
Qed.

(** C6.  Take a command line that selects [--enable], run by a known
    user whose state path does not open for reading (there is no state
    file yet that the process may read), so that [enable] is invoked.  If
    [main] exits 0, the file at the state path has
    permission bits 0600.  The first call of the process is [umask(077)];
    it is followed by the [fopen] of the presence check and then by the
    calls of [enable], all of them on the temporary path: every [open]
    among them is [O_WRONLY|O_CREAT|O_EXCL] with mode 0600, one such
    [open] succeeded, and the umask is not touched again. *)
Theorem enable_installs_mode_0600 prog args r0 w toks gu u w' :
  getopt_long prog args = (toks, []) →
  (opt_loop VERSION prog toks CMD_NULL None w).1 = inr (CMD_ENABLE, gu) →
  w_passwd w !! w_ruid w = Some u →
  ¬ opens_for_reading w (state_path_of u) →
  main GAUTH_STATEDIR VERSION prog args r0 w = (0, w') →
  (∃ f, w_files w' !! state_path_of u = Some f ∧ f_mode f = mode_0600) ∧
  ∃ evs,
    w_trace w'
    = w_trace w ++ EvUmask mask_077 :: EvFopen (state_path_of u) false :: evs ∧
    Forall (enable_event (temp_path (state_path_of u)) (state_path_of u)) evs ∧
    ∃ fd, In (EvOpen (temp_path (state_path_of u))
                (Z.lor (Z.lor O_WRONLY O_CREAT) O_EXCL) mode_0600 (Ok fd)) evs.
Proof.
  intros Hg Hl Hu Hnone Hmain.
  destruct (decide (head (w_malloc_fail w) = Some true)) as [Hm|Hm].
  { destruct (main_alloc_failure prog args r0 w toks CMD_ENABLE gu u)
      as (w1 & H1 & _); try done. rewrite Hmain in H1. done. }
  destruct (main_reaches_dispatch prog args r0 w toks CMD_ENABLE gu u)
    as (out & err & Hd); try done.
  rewrite Hd in Hmain. clear Hd. revert Hmain.
  unfold dispatch. rewrite M_bind_eq.
  match goal with |- context [status ?p ?w0] =>
    pose proof (status_spec p w0) as (Hst & Hf & _ & _ & Hum & Heu & _ & _ & Htr);
    destruct (status p w0) as [st w1] end.
  unfold opens_for_reading in Hst, Hnone.
  cbn in Hst, Hf, Hum, Heu, Htr |- *.
  destruct st.
  { destruct Hst as [Hst _]. destruct Hnone. by apply Hst. }
  cbn [negb]. rewrite M_bind_eq.
  destruct (enable (state_path_of u) 3 w1) as [r w2] eqn:He. cbn [fst snd].
  destruct r; [|by intros [=]]. intros [= <-].
  apply enable_spec in He as (evs & Ht & Hev & _ & _ & Hopen & written & Hsp & _).
  split.
  - eexists. split; [done|]. simpl. by rewrite Hum.
  - exists evs. rewrite Ht, Htr, <- !app_assoc. done.
Qed.

(** ** The path builder and [--disable] *)

(** C3 (amended).  The program does not validate usernames.  For every
    username, a [/] included (a NUL cannot occur inside a C string),
    [get_state_path] returns GAUTH_STATEDIR, a slash and the username as
    long as the allocation succeeds, without touching the file system.
    [--disable USERNAME] run by root then calls [unlink] on exactly that
    path, right after [umask]; unless the system refuses the unlink, the
    program exits 0 and nothing is left at that path. *)
Theorem username_not_validated prog u r0 w name :
  w_ruid w = 0 →
  w_passwd w !! 0 = Some name →
  Forall (λ b, b = false) (take 2 (w_malloc_fail w)) →
  (get_state_path GAUTH_STATEDIR u w).1 = Some (state_path_of u) ∧
  w_files (get_state_path GAUTH_STATEDIR u w).2 = w_files w ∧
  w_trace (get_state_path GAUTH_STATEDIR u w).2 = w_trace w ∧
  ∃ code res w',
    main GAUTH_STATEDIR VERSION prog ["--disable"; u] r0 w = (code, w') ∧
    w_trace w'
    = w_trace w ++ [EvUmask mask_077; EvUnlink (Some (state_path_of u)) res] ∧
    ((∀ e : ioerr, head (w_unlink_err w) ≠ Some (Some e)) →
     code = 0 ∧ w_files w' !! state_path_of u = None).
Proof.
  intros Hroot Hpw Hm.
  assert (Hm1 : head (w_malloc_fail w) ≠ Some true).
  { destruct (w_malloc_fail w) as [|b l]; [done|]. simpl in Hm.
    apply Forall_cons in Hm as [-> _]. done. }
  assert (Hm2 : head (tail (w_malloc_fail w)) ≠ Some true).
  { destruct (w_malloc_fail w) as [|b [|b' l]]; try done. simpl in Hm.
    apply Forall_cons in Hm as [_ Hm]. apply Forall_cons in Hm as [-> _]. done. }
  rewrite get_state_path_spec. case_decide; [done|]. cbn [fst snd].
  split; [done|]. split; [done|]. split; [done|].
  destruct (main_reaches_dispatch prog ["--disable"; u] r0 w
              [mkTok "d" (Some u) None] CMD_DISABLE (Some u) name)
    as (out & err & ->); try done; [by rewrite Hroot|].
  unfold dispatch. rewrite M_bind_eq. unfold getuid. cbn [fst snd].
  cbn [w_ruid set_malloc_fail log set_umask set_stdout set_stderr].
  rewrite Hroot. change (0 =? 0) with true. cbv iota.
  rewrite M_bind_eq, get_state_path_spec.
  cbn [w_malloc_fail set_malloc_fail log set_umask set_stdout set_stderr].
  case_decide; [done|]. cbn [fst snd]. rewrite M_bind_eq.
  match goal with |- context [disable ?p ?w0] =>
    destruct (disable p w0) as [r w1] eqn:Hd end.
  cbn [fst snd].
  pose proof Hd as Hd'. apply disable_spec in Hd' as (_ & _ & Hd').
  revert Hd. unfold disable. rewrite M_bind_eq.
  match goal with |- context [sys_unlink ?p ?w0] =>
    destruct (sys_unlink p w0) as [r1 w2] eqn:Hu end.
  apply sys_unlink_gone in Hu as (_ & res & Ht & _). cbn in Ht.
  cbn [fst snd]. unfold get_errno, eprint, perror. unfold_m.
  intros Hd. assert (Htr : w_trace w1 = w_trace w2).
  { destruct (_ || _); cbn in Hd; injection Hd as _ Hw; by subst w1. }
  exists (if r then 0 else 1), res, w1. split; [done|].
  rewrite Htr, Ht, <- app_assoc. split; [reflexivity|].
  intros Hnr. destruct r.
  - destruct Hd' as [Hgone _]. by split.
  - destruct Hd' as (_ & e & He & _). cbn in He. by destruct (Hnr e).
Qed.

(** ** The command line *)

(** C10 (amended).  Take a command line on which [getopt_long] finds
    neither [--help] nor [--version] (either one makes [main] return 0
    as soon as it is scanned).  If it has a non-option positional
    argument, or no option at all, or an option that is not one of the
    actions [--enable], [--disable], [--status] (which [getopt_long]
    then reports as an error), then [main] prints the usage message on
    standard error, after the diagnostics of [getopt_long] if any, and
    returns 1; nothing else in the world changes, so no system call was
    made.  Supplying several actions is not an error: when all options
    are actions and there is no positional argument, the option loop
    prints nothing and ends with the command of the last action, which
    is not [CMD_NULL], so the usage test after the loop does not fire. *)
Theorem usage_on_bad_command_line prog args r0 w :
  Forall (λ t, exits_early t = false) (getopt_long prog args).1 →
  ((getopt_long prog args).2 ≠ []
   ∨ (getopt_long prog args).1 = []
   ∨ Exists (λ t, is_action t = false) (getopt_long prog args).1 →
   ∃ diag,
     main GAUTH_STATEDIR VERSION prog args r0 w
     = (1, set_stderr (w_stderr w ++ diag ++ usage_lines prog) w)) ∧
  (∀ t, (getopt_long prog args).2 = [] →
     last (getopt_long prog args).1 = Some t →
     Forall (λ t, is_action t = true) (getopt_long prog args).1 →
     command_of (t_opt t) ≠ CMD_NULL ∧
     ∃ gu, opt_loop VERSION prog (getopt_long prog args).1 CMD_NULL None w
           = (inr (command_of (t_opt t), gu), w)).
Proof.
  intros Hne. pose proof (getopt_long_wf prog args) as Hwf.
  unfold main. destruct (getopt_long prog args) as [toks ops].
  cbn [fst snd] in *.
  pose proof (opt_loop_no_exit prog toks Hwf Hne CMD_NULL None w) as Hloop.
  split.
  - intros Hbad. rewrite M_bind_eq.
    destruct Hloop as [(diag & -> & _)|(gu & -> & Hall)]; cbn [fst snd].
    + by exists diag.
    + assert (Hu : command_eqb
                (from_option (λ t, command_of (t_opt t)) CMD_NULL (last toks))
                CMD_NULL || negb (length ops =? 0)%nat = true).
      { destruct Hbad as [Hops|[->|Hex]].
        - destruct ops; [done|]. by rewrite orb_true_r.
        - done.
        - apply Exists_exists in Hex as (t' & Hin & Hf).
          rewrite Forall_forall in Hall. apply Hall in Hin. congruence. }
      rewrite Hu, usage_short. by exists [].
  - intros t _ Hlast Hall.
    assert (Ht : is_action t = true).
    { rewrite Forall_forall in Hall. apply Hall.
      by apply last_Some_elem_of. }
    split; [by apply command_of_action|].
    destruct Hloop as [(diag & _ & Hex)|(gu & Hl & _)].
    + apply Exists_exists in Hex as (t' & Hin & Hf).
      rewrite Forall_forall in Hall. apply Hall in Hin. congruence.
    + exists gu. by rewrite Hl, Hlast.
Qed.

(** ** The two refusals of the [switch]

    Both print their error and leave the file system alone, but neither
    assigns [ret]: what [main] returns is indeterminate. *)

(** X17.  [--enable] while the state path opens for reading: [status]
    returns true, so [enable] is not called.  Descriptor 3 is not read,
    no file is created, changed or removed, the only calls made are
    [umask] and the [fopen] of the state path, and the error line is
    printed.  [ret] is never assigned: [main] returns the indeterminate
    value. *)
Lemma enable_conflict_spec prog args r0 w toks gu u :
  getopt_long prog args = (toks, []) →
  (opt_loop VERSION prog toks CMD_NULL None w).1 = inr (CMD_ENABLE, gu) →
  w_passwd w !! w_ruid w = Some u →
  head (w_malloc_fail w) ≠ Some true →
  opens_for_reading w (state_path_of u) →
  ∃ w',
    main GAUTH_STATEDIR VERSION prog args r0 w = (r0, w') ∧
    w_files w' = w_files w ∧ w_input w' = w_input w ∧
    w_trace w'
    = w_trace w ++ [EvUmask mask_077; EvFopen (state_path_of u) true] ∧
    last (w_stderr w')
    = Some ("Error: 2FA configuration exists for user " +:+ u +:+ "." +:+ nl).
Proof.
  intros Hg Hl Hu Hm Hopen.
  destruct (main_reaches_dispatch prog args r0 w toks CMD_ENABLE gu u)
    as (out & err & ->); try done.
  unfold dispatch. rewrite M_bind_eq.
  match goal with |- context [status ?p ?w0] =>
    pose proof (status_spec p w0) as (Hst & Hf1 & _ & Hin & _ & _ & _ & _ & Htr);
    destruct (status p w0) as [st w1] end.
  unfold opens_for_reading in *.
  cbn in Hst, Hf1, Hin, Htr |- *.
  destruct st.
  2:{ destruct Hst as [_ Hst]. by discriminate Hst. }
  cbn [negb]. unfold eprint. unfold_m. eexists. split; [done|].
  cbn. rewrite Hf1, Hin, Htr, <- app_assoc, last_snoc. done.
Qed.

(** X18.  [--disable USERNAME] by anyone but root: [disable] is not
    called.  No file is removed, descriptor 3 is not read, the only call
    made is [umask], and the error line is printed.  [ret] is never
    assigned: [main] returns the indeterminate value. *)
Lemma disable_non_root_spec prog args r0 w toks g u :
  getopt_long prog args = (toks, []) →
  (opt_loop VERSION prog toks CMD_NULL None w).1 = inr (CMD_DISABLE, Some g) →
  w_passwd w !! w_ruid w = Some u →
  head (w_malloc_fail w) ≠ Some true →
  w_ruid w ≠ 0 →
  ∃ w',
    main GAUTH_STATEDIR VERSION prog args r0 w = (r0, w') ∧
    w_files w' = w_files w ∧ w_input w' = w_input w ∧
    w_trace w' = w_trace w ++ [EvUmask mask_077] ∧
    last (w_stderr w')
    = Some ("Error: Only root is allowed to disable 2FA for user "
            +:+ g +:+ "." +:+ nl).
Proof.
  intros Hg Hl Hu Hm Hroot.
  destruct (main_reaches_dispatch prog args r0 w toks CMD_DISABLE (Some g) u)
    as (out & err & ->); try done.
  unfold dispatch, getuid, eprint. unfold_m. cbn.
  apply Z.eqb_neq in Hroot. rewrite Hroot. eexists. split; [done|].
  cbn. by rewrite last_snoc.
Qed.

(** ** [authenticate] *)

(** The outcome of [authenticate] is decided by [pam_start],
    [pam_acct_mgmt] and [pam_end]; the return value of
    [pam_authenticate] is overwritten before it is tested. *)
Lemma authenticate_spec username w :
  (authenticate username w).1
  = (pam_start_ret (w_pam w) =? PAM_SUCCESS)
    && (pam_acct_mgmt_ret (w_pam w) =? PAM_SUCCESS)
    && (pam_end_ret (w_pam w) =? PAM_SUCCESS).
Proof.
  unfold authenticate, pam_start, pam_authenticate, pam_acct_mgmt, pam_end, eprint.
  unfold_m. cbn.
  destruct (pam_start_ret (w_pam w) =? PAM_SUCCESS); cbn; [|done].
  destruct (pam_acct_mgmt_ret (w_pam w) =? PAM_SUCCESS); cbn; [|done].
  destruct (pam_end_ret (w_pam w) =? PAM_SUCCESS); cbn; done.
Qed.

(** A failing account-management step does make [authenticate] fail. *)
Lemma authenticate_acct_mgmt_failure username w :
  pam_acct_mgmt_ret (w_pam w) ≠ PAM_SUCCESS →
  (authenticate username w).1 = false.
Proof.
  intros H. rewrite authenticate_spec.
  apply Z.eqb_neq in H. rewrite H. by rewrite andb_false_r.
Qed.

End Properties.

(** ** The scenarios, run *)

(** How the command line is scanned. *)
Example getopt_permutes_operands :
  getopt_long "gauthctl" ["extra"; "--status"]
  = ([mkTok "s" None None], ["extra"]).
Proof. reflexivity. Qed.

Example getopt_abbreviated_long_option :
  getopt_long "gauthctl" ["--dis=bob"; "-s"]
  = ([mkTok "d" (Some "bob") None; mkTok "s" None None], []).
Proof. reflexivity. Qed.

Example getopt_short_e_wants_an_argument :
  getopt_long "gauthctl" ["-e"]
  = ([mkTok "?" None
        (Some ("gauthctl: option requires an argument -- 'e'" +:+ nl))], []).
Proof. reflexivity. Qed.

Example getopt_unrecognized_long_option :
  getopt_long "gauthctl" ["--bogus=val"]
  = ([mkTok "?" None
        (Some ("gauthctl: unrecognized option '--bogus=val'" +:+ nl))], []).
Proof. reflexivity. Qed.

Example getopt_empty_long_name_is_ambiguous :
  getopt_long "gauthctl" ["--=x"]
  = ([mkTok "?" None
        (Some ("gauthctl: option '--=x' is ambiguous; possibilities:"
               +:+ " '--enable' '--disable' '--status' '--help' '--version'"
               +:+ nl))], []).
Proof. reflexivity. Qed.

Example getopt_long_option_refuses_an_argument :
  getopt_long "gauthctl" ["--en=x"]
  = ([mkTok "?" None
        (Some ("gauthctl: option '--enable' doesn't allow an argument"
               +:+ nl))], []).
Proof. reflexivity. Qed.

(** Who may read: a file of mode 0640 owned by root is open to the
    members of its group, and the owner of a file of mode 0064 may not
    read it although everybody else may. *)
Example readable_through_the_group :
  readable 1000 1000 [] (mkFile [] 416 0 1000) = true ∧
  readable 1000 100 [1000] (mkFile [] 416 0 1000) = true ∧
  readable 1000 100 [] (mkFile [] 416 0 1000) = false.
Proof. repeat split. Qed.

Example readable_owner_class_decides :
  readable 1000 1000 [] (mkFile [] 52 1000 1000) = false ∧
  readable 1001 1001 [] (mkFile [] 52 1000 1000) = true.
Proof. repeat split. Qed.

(** The account step does make [authenticate] fail. *)
Example authenticate_account_expired :
  authenticate "alice" world_account_expired
  = (false,
     set_stderr
       ["Password: ";
        "Account unavailable: User account has expired" +:+ nl]
       world_account_expired).
Proof. reflexivity. Qed.

Example no_arguments_is_a_usage_error :
  main example_statedir example_version "gauthctl" [] stale_ret world_S1
  = (1, set_stderr (usage_lines "gauthctl") world_S1).
Proof. reflexivity. Qed.

Example help_goes_to_stdout :
  main example_statedir example_version "gauthctl" ["--help"; "extra"] stale_ret
    world_S1
  = (0, set_stdout (help_lines "gauthctl") world_S1).
Proof. reflexivity. Qed.

(** S1: alice enables; the payload is installed with mode 0600. *)
Example scenario_S1 :
  (main example_statedir example_version "gauthctl" ["--enable"] stale_ret
     world_S1).1 = 0 ∧
  map_to_list
    (w_files (main example_statedir example_version "gauthctl" ["--enable"]
                stale_ret world_S1).2)
  = [(alice_path, mkFile secret mode_0600 0 1000)].
Proof. vm_compute. repeat split. Qed.

(** S3 and S5: root disables alice, with and without a state file. *)
Example scenario_S3 :
  (main example_statedir example_version "gauthctl" ["--disable"; "alice"]
     stale_ret world_S3).1 = 0 ∧
  map_to_list
    (w_files (main example_statedir example_version "gauthctl"
                ["--disable"; "alice"] stale_ret world_S3).2) = [].
Proof. vm_compute. repeat split. Qed.

Example scenario_S5 :
  (main example_statedir example_version "gauthctl" ["--disable"; "alice"]
     stale_ret (example_world 0 ∅ [])).1 = 0.
Proof. vm_compute. reflexivity. Qed.

(** C1, counterexample.  A stale temporary file that cannot be removed:
    the pre-unlink fails with EROFS, [enable] returns false, and the
    temporary path still exists. *)
Lemma enable_leaves_stale_temp :
  (enable alice_path 3 world_stale_temp).1 = false ∧
  w_files (enable alice_path 3 world_stale_temp).2 !! temp_path alice_path
  = Some old_config ∧
  w_trace (enable alice_path 3 world_stale_temp).2
  = [EvUnlink (Some alice_temp) (Err EROFS)].
Proof. vm_compute. repeat split. Qed.

(** C1, witness: a read error after three bytes.  The old configuration
    is still in place and the temporary file is gone. *)
Lemma enable_failure_keeps_state_witness :
  w_files (enable alice_path 3 world_read_error).2 !! alice_path
  = w_files world_read_error !! alice_path ∧
  (∀ q, q ≠ temp_path alice_path →
     w_files (enable alice_path 3 world_read_error).2 !! q
     = w_files world_read_error !! q) ∧
  ∃ evs,
    w_trace (enable alice_path 3 world_read_error).2
    = w_trace world_read_error ++ evs ∧
    Forall (enable_event (temp_path alice_path) alice_path) evs ∧
    (head (w_malloc_fail world_read_error) ≠ Some true →
     ¬ unlink_refused (temp_path alice_path) evs →
     w_files (enable alice_path 3 world_read_error).2 !! temp_path alice_path
     = None).
Proof.
  apply (enable_failure_keeps_state alice_path 3 world_read_error).
  vm_compute. reflexivity.
Defined.

(** C2, the failing run.  The ten bytes of the payload arrive in one
    read; the write takes four of them and returns 4, which is not -1;
    the next read has length zero.  [enable] reports success and the
    state file holds the first four bytes only. *)
Lemma enable_short_write_truncates :
  payload (w_input world_short_write) = secret ∧
  (enable alice_path 3 world_short_write).1 = true ∧
  f_data <$> (w_files (enable alice_path 3 world_short_write).2 !! alice_path)
  = Some (bytes_of "SECR") ∧
  w_trace (enable alice_path 3 world_short_write).2
  = [ EvUnlink (Some alice_temp) (Err ENOENT);
      EvOpen alice_temp 193 384 (Ok 4);
      EvRead 3 (Ok 10); EvWrite 4 10 (Ok 4); EvRead 3 (Ok 0);
      EvClose 4; EvRename alice_temp alice_path (Ok 0) ].
Proof. vm_compute. repeat split. Qed.

(** C3, counterexample.  Root disables the user [../victim]: the name is
    not rejected, the path builder returns a path that leaves the state
    directory, the program unlinks it and exits 0. *)
Lemma disable_follows_slash_username :
  (get_state_path example_statedir "../victim" world_victim).1
  = Some victim_path ∧
  (main example_statedir example_version "gauthctl"
     ["--disable"; "../victim"] stale_ret world_victim).1 = 0 ∧
  w_files (main example_statedir example_version "gauthctl"
             ["--disable"; "../victim"] stale_ret world_victim).2 !! victim_path
  = None ∧
  w_trace (main example_statedir example_version "gauthctl"
             ["--disable"; "../victim"] stale_ret world_victim).2
  = [EvUmask 63; EvUnlink (Some victim_path) (Ok 0)] ∧
  w_stderr (main example_statedir example_version "gauthctl"
              ["--disable"; "../victim"] stale_ret world_victim).2
  = ["GAuth disabled successfully" +:+ nl].
Proof. vm_compute. repeat split. Qed.

(** C3, witness: the same run, through the theorem. *)
Lemma username_not_validated_witness :
  (get_state_path example_statedir "../victim" world_victim).1
  = Some (example_statedir +:+ "/" +:+ "../victim") ∧
  w_files (get_state_path example_statedir "../victim" world_victim).2
  = w_files world_victim ∧
  w_trace (get_state_path example_statedir "../victim" world_victim).2
  = w_trace world_victim ∧
  ∃ code res w',
    main example_statedir example_version "gauthctl"
      ["--disable"; "../victim"] stale_ret world_victim = (code, w') ∧
    w_trace w'
    = w_trace world_victim
      ++ [EvUmask mask_077;
          EvUnlink (Some (example_statedir +:+ "/" +:+ "../victim")) res] ∧
    ((∀ e : ioerr, head (w_unlink_err world_victim) ≠ Some (Some e)) →
     code = 0 ∧
     w_files w' !! (example_statedir +:+ "/" +:+ "../victim") = None).
Proof.
  apply (username_not_validated example_statedir example_version
           "gauthctl" "../victim" stale_ret world_victim "root").
  - reflexivity.
  - vm_compute. reflexivity.
  - vm_compute. constructor.
Defined.

(** C4, the failing run (scenario S2).  The state file exists, [status]
    returns true, the error line is printed, and [ret] is returned
    without ever having been assigned: the exit status is whatever the
    indeterminate value gives, 201 with the stale byte of the scenario
    and 0 with another one, where the claim wants 1.  The file is
    unchanged and descriptor 3 is not read. *)
Lemma enable_conflict_exit_status :
  (∀ v, (main example_statedir example_version "gauthctl" ["--enable"] v
           world_S2).1 = v) ∧
  (main example_statedir example_version "gauthctl" ["--enable"] stale_ret
     world_S2).1 = 201 ∧
  (main example_statedir example_version "gauthctl" ["--enable"] 0
     world_S2).1 = 0 ∧
  w_stderr (main example_statedir example_version "gauthctl" ["--enable"]
              stale_ret world_S2).2
  = ["Error: 2FA configuration exists for user alice." +:+ nl] ∧
  map_to_list
    (w_files (main example_statedir example_version "gauthctl" ["--enable"]
                stale_ret world_S2).2)
  = [(alice_path, old_config)] ∧
  w_input (main example_statedir example_version "gauthctl" ["--enable"]
             stale_ret world_S2).2
  = w_input world_S2 ∧
  w_trace (main example_statedir example_version "gauthctl" ["--enable"]
             stale_ret world_S2).2
  = [EvUmask 63; EvFopen alice_path true].
Proof. split; [intros v|]; vm_compute; repeat split. Qed.

(** C5, the failing run (scenario S4).  Alice is not root: the error
    line is printed and no unlink is made, but [ret] is returned
    unassigned: the exit status is whatever the indeterminate value
    gives, 201 with the stale byte of the scenario and 0 with another
    one, where the claim wants 1. *)
Lemma disable_non_root_exit_status :
  (∀ v, (main example_statedir example_version "gauthctl"
           ["--disable"; "alice"] v world_S4).1 = v) ∧
  (main example_statedir example_version "gauthctl" ["--disable"; "alice"]
     stale_ret world_S4).1 = 201 ∧
  (main example_statedir example_version "gauthctl" ["--disable"; "alice"]
     0 world_S4).1 = 0 ∧
  w_stderr (main example_statedir example_version "gauthctl"
              ["--disable"; "alice"] stale_ret world_S4).2
  = ["Error: Only root is allowed to disable 2FA for user alice." +:+ nl] ∧
  map_to_list
    (w_files (main example_statedir example_version "gauthctl"
                ["--disable"; "alice"] stale_ret world_S4).2)
  = [(alice_path, old_config)] ∧
  w_trace (main example_statedir example_version "gauthctl"
             ["--disable"; "alice"] stale_ret world_S4).2
  = [EvUmask 63].
Proof. split; [intros v|]; vm_compute; repeat split. Qed.

(** C6, witness (scenario S1): alice provisions herself. *)
Lemma enable_installs_mode_0600_witness :
  (∃ f, w_files (main example_statedir example_version "gauthctl"
                   ["--enable"] stale_ret world_S1).2
          !! (example_statedir +:+ "/" +:+ "alice") = Some f
        ∧ f_mode f = mode_0600) ∧
  ∃ evs,
    w_trace (main example_statedir example_version "gauthctl"
               ["--enable"] stale_ret world_S1).2
    = w_trace world_S1
      ++ EvUmask mask_077
         :: EvFopen (example_statedir +:+ "/" +:+ "alice") false :: evs ∧
    Forall (enable_event (temp_path (example_statedir +:+ "/" +:+ "alice"))
              (example_statedir +:+ "/" +:+ "alice")) evs ∧
    ∃ fd, In (EvOpen (temp_path (example_statedir +:+ "/" +:+ "alice"))
                (Z.lor (Z.lor O_WRONLY O_CREAT) O_EXCL) mode_0600 (Ok fd)) evs.
Proof.
  apply (enable_installs_mode_0600 example_statedir example_version
           "gauthctl" ["--enable"] stale_ret world_S1
           [mkTok "e" None None] None "alice").
  - reflexivity.
  - reflexivity.
  - vm_compute. reflexivity.
  - intros [H|(_ & f & H & _)]; vm_compute in H; discriminate H.
  - vm_compute. reflexivity.
Defined.

(** C7, counterexample.  The state path of alice names a directory and
    no regular file: [fopen] opens it, [status] returns true and
    [--status] exits 0, touching nothing. *)
Lemma status_accepts_directory :
  w_files world_state_dir !! alice_path = None ∧
  (status alice_path world_state_dir).1 = true ∧
  (main example_statedir example_version "gauthctl" ["--status"] stale_ret
     world_state_dir).1 = 0 ∧
  w_trace (main example_statedir example_version "gauthctl" ["--status"]
             stale_ret world_state_dir).2
  = [EvUmask 63; EvFopen alice_path true].
Proof. vm_compute. repeat split. Qed.

(** C7, witness (scenario S6): [--status] with the state file present. *)
Lemma status_reports_presence_witness :
  (main example_statedir example_version "gauthctl" ["--status"] stale_ret
     world_S4).1 = 0 ∧
  w_files (main example_statedir example_version "gauthctl" ["--status"]
             stale_ret world_S4).2 = w_files world_S4.
Proof.
  pose proof (status_reports_presence example_statedir example_version
                "gauthctl" ["--status"] stale_ret world_S4
                [mkTok "s" None None] None "alice") as H.
  destruct H as (_ & Hpresent & _ & _ & Hfiles & _).
  - reflexivity.
  - reflexivity.
  - vm_compute. reflexivity.
  - vm_compute. discriminate.
  - split; [|exact Hfiles].
    apply Hpresent. right. split; [reflexivity|].
    exists old_config. vm_compute. auto.
Defined.

(** C8, witness (scenarios S3 and S5): root disables alice twice. *)
Lemma disable_idempotent_witness :
  ∃ w1 w2,
    disable (Some alice_path) world_S3 = (true, w1) ∧
    disable (Some alice_path) w1 = (true, w2) ∧
    w_files w1 !! alice_path = None ∧ w_files w2 !! alice_path = None ∧
    w_files w2 = w_files w1 ∧
    In (EvUnlink (Some alice_path) (Err ENOENT)) (w_trace w2).
Proof.
  apply (proj2 (disable_idempotent alice_path world_S3)).
  vm_compute. constructor.
Defined.

(** C9, the failing run.  [pam_authenticate] returns PAM_AUTH_ERR, the
    account check succeeds: [authenticate] returns true and prints
    nothing; the prompt of the conversation is all there is on standard
    error. *)
Lemma authenticate_ignores_auth_failure :
  pam_authenticate_ret (w_pam world_auth_rejected) = PAM_AUTH_ERR ∧
  authenticate "alice" world_auth_rejected
  = (true, set_stderr ["Password: "] world_auth_rejected).
Proof. vm_compute. repeat split. Qed.

(** C10, counterexample.  Two primary actions: [--enable --status] with
    the state file present runs [--status], prints no usage message and
    exits 0. *)
Lemma two_actions_accepted :
  (main example_statedir example_version "gauthctl" ["--enable"; "--status"]
     stale_ret world_S4).1 = 0 ∧
  w_stderr (main example_statedir example_version "gauthctl"
              ["--enable"; "--status"] stale_ret world_S4).2 = [] ∧
  w_trace (main example_statedir example_version "gauthctl"
             ["--enable"; "--status"] stale_ret world_S4).2
  = [EvUmask 63; EvFopen alice_path true].
Proof. vm_compute. repeat split. Qed.

(** C10, witness: a positional argument after [--enable]. *)
Lemma usage_on_bad_command_line_witness :
  ∃ diag,
    main example_statedir example_version "gauthctl" ["--enable"; "extra"]
      stale_ret world_S1
    = (1, set_stderr (w_stderr world_S1 ++ diag ++ usage_lines "gauthctl")
            world_S1).
Proof.
  apply (proj1 (usage_on_bad_command_line example_statedir example_version
                  "gauthctl" ["--enable"; "extra"] stale_ret world_S1
                  ltac:(vm_compute; repeat constructor))).
  left. vm_compute. discriminate.
Defined.

(** * Further properties *)

(** ** What [enable] does to the streams and to the descriptor table *)

Lemma lowest_free_spec fds n : ∀ cand,
  fds !! lowest_free fds n cand = None
  ∨ (lowest_free fds n cand = cand + Z.of_nat n
     ∧ ∀ k, cand <= k < cand + Z.of_nat n → is_Some (fds !! k)).
Proof.
  induction n as [|n IH]; intros cand; cbn [lowest_free].
  { right. split; [lia|]. intros k Hk. lia. }
  destruct (fds !! cand) as [p|] eqn:Hc; [|by left].
  destruct (IH (cand + 1)) as [Hfree|[Heq Hall]]; [by left|].
  right. split; [lia|]. intros k Hk.
  destruct (decide (k = cand)) as [->|Hne]; [by rewrite Hc|].
  apply Hall. lia.
Qed.

Lemma occupied_range_size (fds : gmap Z string) n : ∀ cand,
  (∀ k, cand <= k < cand + Z.of_nat n → is_Some (fds !! k)) →
  (n <= size fds)%nat.
Proof.
  revert fds. induction n as [|n IH]; intros fds cand Hall; [lia|].
  assert (Hc : is_Some (fds !! cand)) by (apply Hall; lia).
  specialize (IH (delete cand fds) (cand + 1)).
  rewrite map_size_delete_Some in IH by done.
  assert (size fds ≠ 0)%nat by (by eapply map_size_ne_0_lookup_2).
  cut (n <= pred (size fds))%nat; [lia|]. apply IH.
  intros k Hk. rewrite lookup_delete_ne by lia. apply Hall. lia.
Qed.

(** The descriptor [open] hands out is not in use. *)
Lemma next_fd_fresh (fds : gmap Z string) : fds !! next_fd fds = None.
Proof.
  unfold next_fd. destruct (lowest_free_spec fds (size fds) 4) as [H|[Heq Hall]];
    [done|].
  destruct (fds !! lowest_free fds (size fds) 4) as [p|] eqn:Hp; [|done].
  exfalso.
  assert (Hall' : ∀ k, 4 <= k < 4 + Z.of_nat (S (size fds)) → is_Some (fds !! k)).
  { intros k Hk. destruct (decide (k = 4 + Z.of_nat (size fds))) as [->|Hne].
    - rewrite <- Heq, Hp. eauto.
    - apply Hall. lia. }
  apply occupied_range_size in Hall'. lia.
Qed.

Lemma sys_read_quiet w fd n r w' : sys_read fd n w = (r, w') → quiet w w'.
Proof.
  unfold sys_read, quiet.
  destruct (fd =? 3); [|by intros [= <- <-]].
  destruct (w_input w) as [|[bs|e] rest]; [by intros [= <- <-]| |by intros [= <- <-]].
  destruct (length bs <=? n)%nat; by intros [= <- <-].
Qed.

Lemma sys_write_quiet w fd buf r w' : sys_write fd buf w = (r, w') → quiet w w'.
Proof.
  unfold sys_write, quiet.
  destruct (w_fds w !! fd); [|by intros [= <- <-]].
  destruct (w_write_res w) as [|[|n|e] rest]; by intros [= <- <-].
Qed.

Lemma cleanup_io tmp out_fd msg w w' (b b' : option bool) :
  (perror msg;; sys_close out_fd;; sys_unlink (Some tmp);; mret b) w = (b', w') →
  w_stdout w' = w_stdout w ∧
  w_stderr w' = w_stderr w ++ [msg +:+ ": " +:+ strerror (w_errno w) +:+ nl] ∧
  w_fds w' = delete out_fd (w_fds w).
Proof.
  unfold_m. unfold perror, eprint, sys_close, sys_unlink. cbn.
  destruct (w_unlink_err w) as [|[e|] rest]; cbn;
    try destruct (w_files w !! tmp); by intros [= <- <-].
Qed.

Lemma copy_loop_io tmp in_fd out_fd fuel : ∀ w r w',
  copy_loop fuel in_fd out_fd tmp w = (r, w') →
  w_stdout w' = w_stdout w ∧
  match r with
  | Some true => quiet w w'
  | Some false =>
      (∃ line, w_stderr w' = w_stderr w ++ [line]) ∧
      w_fds w' = delete out_fd (w_fds w)
  | None => True
  end.
Proof.
  induction fuel as [|fuel IH]; intros w r w'.
  { by intros [= <- <-]. }
  cbn [copy_loop]. rewrite M_bind_eq.
  destruct (sys_read in_fd BUFSIZE w) as [[rd buf] w1] eqn:Hrd.
  apply sys_read_quiet in Hrd as (Ho1 & He1 & Hfd1 & Hr1 & Hu1).
  cbn [fst snd].
  destruct (rd =? 0).
  { intros [= <- <-]. by repeat split. }
  destruct (rd =? -1).
  { intros H. pose proof H as H'. apply (cleanup_spec tmp tmp) in H' as [-> _].
    apply cleanup_io in H as (Ho & He & Hfd).
    rewrite Ho, He, Hfd, Ho1, He1, Hfd1. eauto. }
  rewrite M_bind_eq.
  destruct (sys_write out_fd buf w1) as [wr w2] eqn:Hwr.
  apply sys_write_quiet in Hwr as (Ho2 & He2 & Hfd2 & Hr2 & Hu2).
  cbn [fst snd].
  destruct (wr =? -1).
  { intros H. pose proof H as H'. apply (cleanup_spec tmp tmp) in H' as [-> _].
    apply cleanup_io in H as (Ho & He & Hfd).
    rewrite Ho, He, Hfd, Ho2, He2, Hfd2, Ho1, He1, Hfd1. eauto. }
  intros H. apply IH in H as [Ho H].
  split; [by rewrite Ho, Ho2, Ho1|].
  destruct r as [[]|]; [| |done].
  - destruct H as (Ho3 & He3 & Hfd3 & Hr3 & Hu3). unfold quiet.
    by rewrite Ho3, He3, Hfd3, Hr3, Hu3, Ho2, He2, Hfd2, Hr2, Hu2.
  - destruct H as [[line He3] Hfd3].
    rewrite He3, Hfd3, He2, He1, Hfd2, Hfd1. eauto.
Qed.

Lemma sys_unlink_io w p r w' :
  sys_unlink p w = (r, w') →
  w_stdout w' = w_stdout w ∧ w_stderr w' = w_stderr w ∧ w_fds w' = w_fds w ∧
  w_input w' = w_input w.
Proof.
  unfold sys_unlink. destruct p as [p|]; [|by intros [= <- <-]].
  destruct (w_unlink_err w) as [|[e|] rest]; cbn;
    try destruct (w_files w !! p); by intros [= <- <-].
Qed.

Lemma sys_open_io w p flags mode r w' :
  sys_open p flags mode w = (r, w') →
  w_stdout w' = w_stdout w ∧ w_stderr w' = w_stderr w ∧
  w_input w' = w_input w ∧
  ((r = -1 ∧ w_fds w' = w_fds w)
   ∨ (r = next_fd (w_fds w) ∧ w_fds w' = <[r := p]> (w_fds w))).
Proof.
  unfold sys_open.
  destruct (w_open_err w) as [|[e|] rest]; cbn -[next_fd];
    try destruct (w_files w !! p); cbn -[next_fd];
    repeat (match goal with |- context [if ?b then _ else _] => destruct b end);
    intros [= <- <-]; cbn -[next_fd]; auto 10.
Qed.

Lemma sys_rename_io w src dst r w' :
  sys_rename src dst w = (r, w') →
  w_stdout w' = w_stdout w ∧ w_stderr w' = w_stderr w ∧ w_fds w' = w_fds w ∧
  w_errno w' = (if r =? 0 then w_errno w else w_errno w') ∧
  (r = 0 ∨ r = -1).
Proof.
  unfold sys_rename.
  destruct (w_rename_err w) as [|[e|] rest]; cbn;
    try destruct (w_files w !! src); intros [= <- <-]; cbn; auto 10.
Qed.

(** [enable] prints exactly one line, on standard error, and leaves the
    descriptor table as it found it. *)
Lemma enable_io sp in_fd w r w' :
  enable sp in_fd w = (r, w') →
  w_stdout w' = w_stdout w ∧
  w_fds w' = w_fds w ∧
  ∃ line, w_stderr w' = w_stderr w ++ [line] ∧
    (r = true → line = "GAuth set up successfully" +:+ nl).
Proof.
  unfold enable. rewrite M_bind_eq.
  assert (Hm : ∃ ok w0, malloc w = (ok, w0) ∧ w_stdout w0 = w_stdout w ∧
                 w_stderr w0 = w_stderr w ∧ w_fds w0 = w_fds w).
  { unfold malloc. destruct (w_malloc_fail w) as [|[] rest]; cbn; eauto 10. }
  destruct Hm as (ok & w0 & -> & Ho0 & He0 & Hfd0). cbn [fst snd].
  destruct ok; cbn [negb].
  2:{ unfold_m. unfold perror, eprint. cbn. intros [= <- <-]. cbn.
      rewrite Ho0, He0, Hfd0. split; [done|]. split; [done|].
      eexists. split; [done|]. done. }
  rewrite snprintf_len_nonneg, M_bind_eq.
  destruct (sys_unlink (Some (sp +:+ ".new")) w0) as [r1 w1] eqn:Hu.
  apply sys_unlink_io in Hu as (Ho1 & He1 & Hfd1 & _).
  cbn [fst snd]. unfold get_errno at 1. rewrite M_bind_eq. cbn [fst snd].
  destruct (negb (r1 =? 0) && negb (errno_eqb (w_errno w1) ENOENT)).
  { unfold_m. unfold perror, eprint. cbn. intros [= <- <-]. cbn.
    rewrite Ho1, He1, Hfd1, Ho0, He0, Hfd0. split; [done|]. split; [done|].
    eexists. split; [done|]. done. }
  rewrite M_bind_eq.
  destruct (sys_open (sp +:+ ".new") (Z.lor (Z.lor O_WRONLY O_CREAT) O_EXCL)
              mode_0600 w1) as [out_fd w2] eqn:Hop.
  apply sys_open_io in Hop as (Ho2 & He2 & _ & Hop). cbn [fst snd].
  destruct (out_fd =? -1) eqn:Hfd.
  { apply Z.eqb_eq in Hfd. subst out_fd.
    destruct Hop as [[_ Hfd2]|[Hn _]].
    2:{ pose proof (next_fd_ge (w_fds w1)). lia. }
    unfold_m. unfold perror, eprint. cbn. intros [= <- <-]. cbn.
    rewrite Ho2, He2, Hfd2, Ho1, He1, Hfd1, Ho0, He0, Hfd0.
    split; [done|]. split; [done|]. eexists. split; [done|]. done. }
  apply Z.eqb_neq in Hfd. destruct Hop as [[? _]|[Hn Hfd2]]; [done|].
  assert (Hdel : delete out_fd (w_fds w2) = w_fds w).
  { rewrite Hfd2, delete_insert_eq, delete_id by (subst out_fd; apply next_fd_fresh).
    by rewrite Hfd1. }
  rewrite M_bind_eq. cbn [fst snd]. rewrite M_bind_eq.
  destruct (copy_loop (input_fuel (w_input w2)) in_fd out_fd (sp +:+ ".new") w2)
    as [copied w3] eqn:Hl.
  pose proof (copy_loop_terminates (sp +:+ ".new") in_fd out_fd w2) as Hterm.
  rewrite Hl in Hterm. apply copy_loop_io in Hl as [Ho3 Hl]. cbn [fst snd] in *.
  destruct copied as [[]|].
  - destruct Hl as (_ & He3 & Hfd3 & _ & _).
    rewrite M_bind_eq. unfold sys_close at 1. cbn [fst snd]. rewrite M_bind_eq.
    match goal with |- context [sys_rename ?a ?b ?w0] =>
      destruct (sys_rename a b w0) as [r5 w5] eqn:Hr end.
    apply sys_rename_io in Hr as (Ho5 & He5 & Hfd5 & _ & Hr5).
    cbn in Ho5, He5, Hfd5. cbn [fst snd].
    destruct Hr5 as [-> | ->].
    + change (negb (0 =? 0)) with false. cbv iota.
      unfold_m. unfold eprint. cbn. intros [= <- <-]. cbn.
      rewrite Ho5, He5, Hfd5, Ho3, He3, Hfd3, Hdel, Ho2, He2, Ho1, He1, Ho0, He0.
      split; [done|]. split; [done|]. eexists. split; [done|]. done.
    + change (negb (-1 =? 0)) with true. cbv iota.
      rewrite M_bind_eq. unfold perror at 1, eprint at 1. cbn [fst snd].
      rewrite M_bind_eq.
      match goal with |- context [sys_unlink ?p ?w0] =>
        destruct (sys_unlink p w0) as [r6 w6] eqn:Hu6 end.
      apply sys_unlink_io in Hu6 as (Ho6 & He6 & Hfd6 & _).
      cbn in Ho6, He6, Hfd6. cbn [fst snd]. intros [= <- <-].
      rewrite Ho6, He6, Hfd6, Ho5, He5, Hfd5, Ho3, He3, Hfd3, Hdel,
        Ho2, He2, Ho1, He1, Ho0, He0.
      split; [done|]. split; [done|]. eexists. split; [done|]. done.
  - destruct Hl as [[line He3] Hfd3]. intros [= <- <-].
    rewrite Ho3, He3, Hfd3, Hdel, Ho2, He2, Ho1, He1, Ho0, He0.
    split; [done|]. split; [done|]. eexists. split; [done|]. done.
  - destruct Hterm; [|done]. rewrite Hfd2. apply lookup_insert_eq.
Qed.

(** ** A run of [enable] in which nothing goes wrong *)

(** *** Which line a failed [enable] prints *)

Lemma sys_unlink_diag w p r w' :
  sys_unlink (Some p) w = (r, w') →
  w_stderr w' = w_stderr w ∧
  ∃ res, w_trace w' = w_trace w ++ [EvUnlink (Some p) res] ∧
    ((r = 0 ∧ res = Ok 0)
     ∨ (r = -1 ∧ ∃ e, res = Err e ∧ w_errno w' = e)).
Proof.
  unfold sys_unlink.
  destruct (w_unlink_err w) as [|[e|] rest]; cbn;
    try destruct (w_files w !! p); intros [= <- <-]; cbn;
    (split; [done|]); eexists; (split; [done|]); eauto.
Qed.

Lemma sys_open_diag w p flags mode r w' :
  sys_open p flags mode w = (r, w') →
  w_stderr w' = w_stderr w ∧
  ∃ res, w_trace w' = w_trace w ++ [EvOpen p flags mode res] ∧
    ((r = -1 ∧ ∃ e, res = Err e ∧ w_errno w' = e)
     ∨ (r ≠ -1 ∧ res = Ok r ∧ w_fds w' !! r = Some p)).
Proof.
  unfold sys_open. pose proof (next_fd_ge (w_fds w)) as Hfd.
  destruct (w_open_err w) as [|[e|] rest]; cbn -[next_fd] in *;
    try destruct (w_files w !! p); cbn -[next_fd];
    repeat (match goal with |- context [if ?b then _ else _] => destruct b end);
    intros [= <- <-]; cbn -[next_fd];
    (split; [done|]); eexists; (split; [done|]); eauto;
    right; (split; [lia|]); (split; [done|]); apply lookup_insert_eq.
Qed.

Lemma sys_read_diag w fd n rd buf w' :
  sys_read fd n w = ((rd, buf), w') →
  w_stderr w' = w_stderr w ∧
  ∃ res, w_trace w' = w_trace w ++ [EvRead fd res] ∧
    ((rd = -1 ∧ ∃ e, res = Err e ∧ w_errno w' = e)
     ∨ (rd ≠ -1 ∧ ∃ v, res = Ok v)).
Proof.
  unfold sys_read.
  destruct (fd =? 3); [|intros [= <- <- <-]; cbn; eauto 10].
  destruct (w_input w) as [|[bs|e] rest].
  - intros [= <- <- <-]. cbn. split; [done|]. eexists. split; [done|].
    right. eauto.
  - destruct (length bs <=? n)%nat; intros [= <- <- <-]; cbn;
      (split; [done|]); eexists; (split; [done|]); right; split; eauto; lia.
  - intros [= <- <- <-]. cbn. eauto 10.
Qed.

Lemma sys_write_diag w fd buf r w' :
  sys_write fd buf w = (r, w') →
  w_stderr w' = w_stderr w ∧
  ∃ res, w_trace w' = w_trace w ++ [EvWrite fd (length buf) res] ∧
    ((r = -1 ∧ ∃ e, res = Err e ∧ w_errno w' = e)
     ∨ (r ≠ -1 ∧ ∃ v, res = Ok v)).
Proof.
  unfold sys_write.
  destruct (w_fds w !! fd); [|intros [= <- <-]; cbn; eauto 10].
  destruct (w_write_res w) as [|[|k|e] rest]; intros [= <- <-]; cbn;
    (split; [done|]); eexists; (split; [done|]); eauto 10;
    right; split; eauto; lia.
Qed.

Lemma sys_rename_diag w src dst r w' :
  sys_rename src dst w = (r, w') →
  w_stderr w' = w_stderr w ∧
  ∃ res, w_trace w' = w_trace w ++ [EvRename src dst res] ∧
    ((r = 0 ∧ res = Ok 0)
     ∨ (r = -1 ∧ ∃ e, res = Err e ∧ w_errno w' = e)).
Proof.
  unfold sys_rename.
  destruct (w_rename_err w) as [|[e|] rest]; cbn;
    try destruct (w_files w !! src); intros [= <- <-]; cbn;
    (split; [done|]); eexists; (split; [done|]); eauto 10.
Qed.

Lemma cleanup_diag tmp out_fd msg w w' (b b' : option bool) :
  (perror msg;; sys_close out_fd;; sys_unlink (Some tmp);; mret b) w = (b', w') →
  w_stderr w' = w_stderr w ++ [perror_line msg (w_errno w)] ∧
  ∃ res, w_trace w' = w_trace w ++ [EvClose out_fd; EvUnlink (Some tmp) res].
Proof.
  unfold_m. unfold perror, eprint, sys_close. cbn -[sys_unlink].
  match goal with |- context [sys_unlink ?p ?w0] =>
    destruct (sys_unlink p w0) as [r w1] eqn:Hu end.
  intros [= <- <-]. apply sys_unlink_diag in Hu as (He & res & Ht & _).
  cbn in He, Ht. rewrite He, Ht, <- app_assoc. eauto.
Qed.

Lemma copy_loop_diag tmp in_fd out_fd fuel : ∀ w r w',
  copy_loop fuel in_fd out_fd tmp w = (r, w') →
  ∃ evs, w_trace w' = w_trace w ++ evs ∧
    match r with
    | Some true => w_stderr w' = w_stderr w ∧ omap failure_of evs = []
    | Some false =>
        ∃ msg e, first_failure evs = Some (msg, e) ∧
                 w_stderr w' = w_stderr w ++ [perror_line msg e]
    | None => True
    end.
Proof.
  induction fuel as [|fuel IH]; intros w r w'.
  { intros [= <- <-]. exists []. by rewrite app_nil_r. }
  cbn [copy_loop]. rewrite M_bind_eq.
  destruct (sys_read in_fd BUFSIZE w) as [[rd buf] w1] eqn:Hrd.
  apply sys_read_diag in Hrd as (He1 & res1 & Ht1 & Hrd). cbn [fst snd].
  destruct (rd =? 0) eqn:H0.
  { intros [= <- <-]. exists [EvRead in_fd res1]. split; [done|].
    split; [done|]. apply Z.eqb_eq in H0.
    destruct Hrd as [[? _]|(_ & v & ->)]; [lia|done]. }
  destruct (rd =? -1) eqn:Hm1.
  { apply Z.eqb_eq in Hm1. destruct Hrd as [(_ & e & -> & Herr)|[? _]]; [|done].
    intros H. pose proof H as H'. apply (cleanup_spec tmp tmp) in H' as [-> _].
    apply cleanup_diag in H as (He & res & Ht).
    eexists (_ :: _ :: _ :: nil). rewrite Ht, Ht1, <- app_assoc.
    split; [done|]. exists "Reading config file failed", e.
    split; [done|]. by rewrite He, He1, Herr. }
  apply Z.eqb_neq in Hm1. destruct Hrd as [[? _]|(_ & v1 & ->)]; [done|].
  rewrite M_bind_eq.
  destruct (sys_write out_fd buf w1) as [wr w2] eqn:Hwr.
  apply sys_write_diag in Hwr as (He2 & res2 & Ht2 & Hwr). cbn [fst snd].
  destruct (wr =? -1) eqn:Hw1.
  { apply Z.eqb_eq in Hw1. destruct Hwr as [(_ & e & -> & Herr)|[? _]]; [|done].
    intros H. pose proof H as H'. apply (cleanup_spec tmp tmp) in H' as [-> _].
    apply cleanup_diag in H as (He & res & Ht).
    eexists (_ :: _ :: _ :: _ :: nil). rewrite Ht, Ht2, Ht1, <- !app_assoc.
    split; [done|]. exists "Writing temporary file failed", e.
    split; [done|]. by rewrite He, He2, He1, Herr. }
  apply Z.eqb_neq in Hw1. destruct Hwr as [[? _]|(_ & v2 & ->)]; [done|].
  intros H. apply IH in H as (evs & Ht & H).
  exists (EvRead in_fd (Ok v1) :: EvWrite out_fd (length buf) (Ok v2) :: evs).
  rewrite Ht, Ht2, Ht1, <- !app_assoc. split; [done|].
  destruct r as [[]|]; [| |done].
  - destruct H as [He Hn]. split; [by rewrite He, He2, He1|done].
  - destruct H as (msg & e & Hf & He). exists msg, e.
    split; [done|]. by rewrite He, He2, He1.
Qed.

Lemma enable_diag sp in_fd w r w' :
  enable sp in_fd w = (r, w') →
  ∃ evs line,
    w_trace w' = w_trace w ++ evs ∧
    w_stderr w' = w_stderr w ++ [line] ∧
    if r then
      omap failure_of evs = [] ∧ line = "GAuth set up successfully" +:+ nl
    else
      match first_failure evs with
      | Some (msg, e) => line = perror_line msg e
      | None =>
          evs = [] ∧ line = perror_line "Memory allocation failed" ENOMEM
      end.
Proof.
  unfold enable. rewrite M_bind_eq.
  assert (Hm : ∃ ok w0, malloc w = (ok, w0) ∧ w_trace w0 = w_trace w ∧
                 w_stderr w0 = w_stderr w ∧
                 (ok = false → w_errno w0 = ENOMEM)).
  { unfold malloc. destruct (w_malloc_fail w) as [|[] rest]; cbn;
      eexists _, _; repeat split; done. }
  destruct Hm as (ok & w0 & -> & Ht0 & He0 & Hno). cbn [fst snd].
  destruct ok; cbn [negb].
  2:{ unfold_m. unfold perror, eprint. cbn. intros [= <- <-]. cbn.
      eexists [], _. rewrite app_nil_r, Ht0, He0, Hno by done. done. }
  rewrite snprintf_len_nonneg, M_bind_eq.
  destruct (sys_unlink (Some (sp +:+ ".new")) w0) as [r1 w1] eqn:Hu.
  apply sys_unlink_diag in Hu as (He1 & res1 & Ht1 & Hu).
  cbn [fst snd]. unfold get_errno at 1. rewrite M_bind_eq. cbn [fst snd].
  destruct (negb (r1 =? 0) && negb (errno_eqb (w_errno w1) ENOENT)) eqn:Hc.
  { apply andb_true_iff in Hc as [Hr1 Hen].
    destruct Hu as [[-> _]|(-> & e & -> & Herr)]; [done|].
    unfold_m. unfold perror, eprint. cbn. intros [= <- <-]. cbn.
    eexists [EvUnlink (Some (sp +:+ ".new")) (Err e)], _.
    rewrite Ht1, Ht0, He1, He0. split; [done|]. split; [done|].
    unfold first_failure. cbn. rewrite Herr in Hen. rewrite Herr.
    by destruct (errno_eqb e ENOENT). }
  assert (Hq1 : failure_of (EvUnlink (Some (sp +:+ ".new")) res1) = None).
  { destruct Hu as [[-> ->]|(-> & e & -> & Herr)]; [done|].
    cbn in Hc |- *. rewrite Herr in Hc. by destruct (errno_eqb e ENOENT). }
  clear Hc Hu. rewrite M_bind_eq.
  destruct (sys_open (sp +:+ ".new") (Z.lor (Z.lor O_WRONLY O_CREAT) O_EXCL)
              mode_0600 w1) as [out_fd w2] eqn:Hop.
  apply sys_open_diag in Hop as (He2 & res2 & Ht2 & Hop). cbn [fst snd].
  destruct (out_fd =? -1) eqn:Hfd.
  { apply Z.eqb_eq in Hfd. destruct Hop as [(_ & e & -> & Herr)|[? _]]; [|done].
    unfold_m. unfold perror, eprint. cbn. intros [= <- <-]. cbn.
    eexists [_; _], _. rewrite Ht2, Ht1, Ht0, He2, He1, He0, <- app_assoc.
    split; [done|]. split; [done|].
    unfold first_failure. cbn [omap list_omap]. rewrite Hq1. cbn.
    by rewrite Herr. }
  apply Z.eqb_neq in Hfd. destruct Hop as [[? _]|(_ & -> & Hfd2)]; [done|].
  rewrite M_bind_eq. cbn [fst snd]. rewrite M_bind_eq.
  destruct (copy_loop (input_fuel (w_input w2)) in_fd out_fd (sp +:+ ".new") w2)
    as [copied w3] eqn:Hl.
  assert (Hterm : copied ≠ None).
  { pose proof (copy_loop_terminates (sp +:+ ".new") in_fd out_fd w2) as Hterm.
    rewrite Hl in Hterm. by apply Hterm. }
  apply copy_loop_diag in Hl as (evs3 & Ht3 & Hl). cbn [fst snd].
  destruct copied as [[]|]; [| |done].
  - destruct Hl as [He3 Hn3].
    rewrite M_bind_eq. unfold sys_close at 1. cbn [fst snd]. rewrite M_bind_eq.
    match goal with |- context [sys_rename ?a ?b ?w0] =>
      destruct (sys_rename a b w0) as [r5 w5] eqn:Hr end.
    apply sys_rename_diag in Hr as (He5 & res5 & Ht5 & Hr).
    cbn in He5, Ht5. cbn [fst snd].
    destruct Hr as [[-> ->]|(-> & e & -> & Herr)].
    + change (negb (0 =? 0)) with false. cbv iota.
      unfold_m. unfold eprint. cbn. intros [= <- <-]. cbn.
      eexists (_ :: _ :: evs3 ++ [_; _]), _.
      rewrite He5, He3, He2, He1, He0, Ht5, Ht3, Ht2, Ht1, Ht0, <- !app_assoc.
      split; [done|]. split; [done|]. split; [|done].
      cbn [omap list_omap]. rewrite Hq1. cbn. by rewrite omap_app, Hn3.
    + change (negb (-1 =? 0)) with true. cbv iota.
      rewrite M_bind_eq. unfold perror at 1, eprint at 1. cbn [fst snd].
      rewrite M_bind_eq.
      match goal with |- context [sys_unlink ?p ?w0] =>
        destruct (sys_unlink p w0) as [r6 w6] eqn:Hu6 end.
      apply sys_unlink_diag in Hu6 as (He6 & res6 & Ht6 & _).
      cbn in He6, Ht6. cbn [fst snd]. intros [= <- <-].
      eexists (_ :: _ :: evs3 ++ [_; _; _]), _.
      rewrite He6, He5, He3, He2, He1, He0, Ht6, Ht5, Ht3, Ht2, Ht1, Ht0,
        <- !app_assoc.
      split; [done|]. split; [done|].
      unfold first_failure. cbn [omap list_omap]. rewrite Hq1. cbn.
      rewrite omap_app, Hn3. cbn. by rewrite Herr.
  - destruct Hl as (msg & e & Hf & He3). intros [= <- <-].
    eexists (_ :: _ :: evs3), _.
    rewrite He3, He2, He1, He0, Ht3, Ht2, Ht1, Ht0, <- !app_assoc.
    split; [done|]. split; [done|].
    unfold first_failure in *. cbn [omap list_omap]. rewrite Hq1. cbn.
    by rewrite Hf.
Qed.

Lemma copy_loop_succeeds tmp out_fd fuel : ∀ w,
  w_fds w !! out_fd = Some tmp →
  reads_ok (w_input w) = true →
  Forall (λ o, is_wr_err o = false) (w_write_res w) →
  (input_fuel (w_input w) <= fuel)%nat →
  (copy_loop fuel 3 out_fd tmp w).1 = Some true.
Proof.
  induction fuel as [|fuel IH]; intros w Hfd Hok Hwr Hfuel.
  { unfold input_fuel in Hfuel. lia. }
  cbn [copy_loop]. rewrite M_bind_eq.
  destruct (sys_read 3 BUFSIZE w) as [[rd buf] w1] eqn:Hrd. cbn [fst snd].
  assert (Hrd' : (rd = 0 ∨ (0 < rd ∧ reads_ok (w_input w1) = true)) ∧
                 w_fds w1 = w_fds w ∧ w_write_res w1 = w_write_res w ∧
                 (rd ≠ 0 → (input_fuel (w_input w1) < input_fuel (w_input w))%nat)).
  { revert Hrd Hok. unfold sys_read. change (3 =? 3) with true. cbv iota.
    destruct (w_input w) as [|[[|b bs]|e] rest] eqn:Hin.
    - intros [= <- <- <-] _. repeat split; auto; done.
    - change (length [] <=? BUFSIZE)%nat with true. cbv iota.
      intros [= <- <- <-] _. repeat split; auto; done.
    - destruct (length (b :: bs) <=? BUFSIZE)%nat eqn:Hlen;
        intros [= <- <- <-] Hok; cbn [w_input w_fds w_write_res set_input log].
      + split; [right; split; [cbn [length]; lia|done]|]. repeat split.
        intros _. unfold input_fuel, list_sum. cbn [map rd_weight fold_right]. lia.
      + apply Nat.leb_gt in Hlen. unfold BUFSIZE in *.
        split; [right; split; [lia|]|].
        * change (drop 4095 bs) with (drop 4096 (b :: bs)).
          destruct (drop 4096 (b :: bs)) eqn:Hd; [reflexivity|exact Hok].
        * repeat split. intros _. unfold input_fuel, list_sum.
          cbn [map rd_weight fold_right].
          change (drop 4095 bs) with (drop 4096 (b :: bs)).
          rewrite length_drop. lia.
    - intros _ Hok. done. }
  destruct Hrd' as ([->|[Hpos Hok1]] & Hfd1 & Hwr1 & Hfuel1); [done|].
  replace (rd =? 0) with false by lia. replace (rd =? -1) with false by lia.
  rewrite M_bind_eq.
  destruct (sys_write out_fd buf w1) as [wr w2] eqn:Hw. cbn [fst snd].
  pose proof Hw as Hw'.
  apply (sys_write_spec _ _ tmp) in Hw' as (Hfd2 & Hin2 & Hwr2 & _ & _);
    [|by rewrite Hfd1].
  assert (Hwr_ok : wr ≠ -1).
  { revert Hw. unfold sys_write. rewrite Hfd1, Hfd, Hwr1.
    destruct (w_write_res w) as [|[|n|e] rest]; cbn; intros [= <- <-]; try lia.
    apply Forall_cons in Hwr as [Hwr _]. done. }
  replace (wr =? -1) with false by lia.
  apply IH.
  - by rewrite Hfd2, Hfd1.
  - by rewrite Hin2.
  - rewrite Hwr2, Hwr1. destruct (w_write_res w); [done|].
    by apply Forall_cons in Hwr as [_ Hwr].
  - rewrite Hin2. assert (rd ≠ 0) by lia. specialize (Hfuel1 H). lia.
Qed.

Lemma sys_unlink_not_refused w p r w' :
  refuses (w_unlink_err w) = false →
  sys_unlink (Some p) w = (r, w') →
  (negb (r =? 0) && negb (errno_eqb (w_errno w') ENOENT)) = false ∧
  w_files w' !! p = None ∧
  w_open_err w' = w_open_err w ∧ w_rename_err w' = w_rename_err w ∧
  w_input w' = w_input w ∧ w_write_res w' = w_write_res w.
Proof.
  unfold sys_unlink.
  destruct (w_unlink_err w) as [|[e|] rest]; [|done|]; cbn; intros _;
    destruct (w_files w !! p) eqn:Hp; intros [= <- <-]; cbn;
    repeat split; try done; apply lookup_delete_eq.
Qed.

Lemma sys_open_not_refused w p mode r w' :
  refuses (w_open_err w) = false →
  w_files w !! p = None →
  sys_open p (Z.lor (Z.lor O_WRONLY O_CREAT) O_EXCL) mode w = (r, w') →
  r ≠ -1 ∧ w_fds w' !! r = Some p ∧ is_Some (w_files w' !! p) ∧
  w_rename_err w' = w_rename_err w ∧
  w_input w' = w_input w ∧ w_write_res w' = w_write_res w.
Proof.
  unfold sys_open. intros Hs Hp.
  pose proof (next_fd_ge (w_fds w)).
  destruct (w_open_err w) as [|[e|] rest]; [|done|]; cbn -[next_fd];
    rewrite Hp; cbn -[next_fd]; intros [= <- <-]; cbn -[next_fd];
    (split; [lia|]); rewrite !lookup_insert_eq; eauto 10.
Qed.

Lemma sys_rename_not_refused w src dst f r w' :
  refuses (w_rename_err w) = false →
  w_files w !! src = Some f →
  sys_rename src dst w = (r, w') → r = 0.
Proof.
  unfold sys_rename. intros Hs Hf.
  destruct (w_rename_err w) as [|[e|] rest]; [|done|]; cbn; rewrite Hf;
    by intros [= <- <-].
Qed.

Lemma enable_succeeds sp w :
  head (w_malloc_fail w) ≠ Some true →
  refuses (w_unlink_err w) = false →
  refuses (w_open_err w) = false →
  refuses (w_rename_err w) = false →
  reads_ok (w_input w) = true →
  Forall (λ o, is_wr_err o = false) (w_write_res w) →
  (enable sp 3 w).1 = true.
Proof.
  intros Hm Hu Ho Hr Hin Hwr. unfold enable. rewrite M_bind_eq.
  assert (Hmal : malloc w = (true, set_malloc_fail (tail (w_malloc_fail w)) w)).
  { unfold malloc. by destruct (w_malloc_fail w) as [|[] rest]. }
  rewrite Hmal. cbn [fst snd negb]. rewrite snprintf_len_nonneg, M_bind_eq.
  match goal with |- context [sys_unlink ?p ?w0] =>
    destruct (sys_unlink p w0) as [r1 w1] eqn:H1 end.
  apply sys_unlink_not_refused in H1 as (Hc1 & Hf1 & Ho1 & Hr1 & Hin1 & Hw1);
    [|done].
  cbn in Ho1, Hr1, Hin1, Hw1. cbn [fst snd].
  unfold get_errno at 1. rewrite M_bind_eq. cbn [fst snd]. rewrite Hc1.
  rewrite M_bind_eq.
  match goal with |- context [sys_open ?p ?fl ?m ?w0] =>
    destruct (sys_open p fl m w0) as [out_fd w2] eqn:H2 end.
  apply sys_open_not_refused in H2 as (Hfd & Hfd2 & Hf2 & Hr2 & Hin2 & Hw2);
    [|by rewrite Ho1|done].
  cbn [fst snd]. replace (out_fd =? -1) with false by lia.
  rewrite M_bind_eq. cbn [fst snd]. rewrite M_bind_eq.
  destruct (copy_loop (input_fuel (w_input w2)) 3 out_fd (sp +:+ ".new") w2)
    as [copied w3] eqn:H3.
  pose proof (copy_loop_succeeds (sp +:+ ".new") out_fd
                (input_fuel (w_input w2)) w2 Hfd2) as Hs.
  rewrite H3 in Hs. cbn [fst] in Hs.
  assert (copied = Some true) as ->.
  { apply Hs; [by rewrite Hin2, Hin1|by rewrite Hw2, Hw1|done]. }
  pose proof H3 as H3'.
  apply (copy_loop_spec (sp +:+ ".new") sp) in H3' as (_ & _ & Hok3 & _); [|done].
  destruct (Hok3 eq_refl) as (_ & written & Hf3 & _).
  apply copy_loop_io in H3 as [_ (_ & _ & _ & Hr3 & _)].
  cbn [fst snd]. rewrite M_bind_eq. unfold sys_close at 1. cbn [fst snd].
  rewrite M_bind_eq.
  match goal with |- context [sys_rename ?a ?b ?w0] =>
    destruct (sys_rename a b w0) as [r5 w5] eqn:H5 end.
  destruct Hf2 as [f2 Hf2]. rewrite Hf2 in Hf3.
  eapply sys_rename_not_refused in H5; [| |exact Hf3].
  - subst r5. cbn [fst snd]. change (negb (0 =? 0)) with false. cbv iota.
    unfold_m. unfold eprint. done.
  - cbn. by rewrite Hr3, Hr2, Hr1.
Qed.

(** ** What [main] touches *)

Lemma string_app_assoc (a b c : string) : (a +:+ b) +:+ c = a +:+ (b +:+ c).
Proof.
  induction a as [|x a IH]; [done|].
  change (String x ((a +:+ b) +:+ c) = String x (a +:+ (b +:+ c))).
  by rewrite IH.
Qed.

Lemma string_app_length (a b : string) :
  String.length (a +:+ b) = (String.length a + String.length b)%nat.
Proof.
  induction a as [|x a IH]; [done|].
  change (S (String.length (a +:+ b)) = S (String.length a + String.length b)).
  by rewrite IH.
Qed.

Lemma temp_path_under_statedir sd u :
  temp_path (sd +:+ "/" +:+ u) = sd +:+ "/" +:+ (u +:+ ".new").
Proof. unfold temp_path. by rewrite !string_app_assoc. Qed.

Lemma disable_frame p w r w' :
  disable p w = (r, w') →
  (∃ res, w_trace w' = w_trace w ++ [EvUnlink p res]) ∧
  w_input w' = w_input w ∧ w_fds w' = w_fds w ∧ w_stdout w' = w_stdout w ∧
  (∃ line, w_stderr w' = w_stderr w ++ [line]) ∧
  ∀ q, p ≠ Some q → w_files w' !! q = w_files w !! q.
Proof.
  unfold disable, sys_unlink, get_errno, eprint, perror. unfold_m.
  destruct p as [p|].
  - destruct (w_unlink_err w) as [|[e|] rest]; cbn;
      try destruct (w_files w !! p) eqn:Hp; cbn; intros [= <- <-]; cbn;
      repeat split; eauto; intros q Hq; apply lookup_delete_ne; congruence.
  - cbn. intros [= <- <-]. cbn. repeat split; eauto.
Qed.

Lemma opt_loop_givenuser ver prog toks : ∀ c g w cmd gu w',
  opt_loop ver prog toks c g w = (inr (cmd, gu), w') →
  gu = g ∨ ∃ t, In t toks ∧ t_opt t = "d"%char ∧ t_optarg t = gu.
Proof.
  induction toks as [|t toks IH]; intros c g w cmd gu w'.
  { intros [= _ <- _]. by left. }
  cbn [opt_loop]. rewrite M_bind_eq. cbv zeta.
  assert (Hin : ∀ g0 w0,
            opt_loop ver prog toks c g0 w0 = (inr (cmd, gu), w') ∨
            opt_loop ver prog toks CMD_ENABLE g0 w0 = (inr (cmd, gu), w') ∨
            opt_loop ver prog toks CMD_STATUS g0 w0 = (inr (cmd, gu), w') →
            gu = g0 ∨ ∃ t', In t' (t :: toks) ∧ t_opt t' = "d"%char
                             ∧ t_optarg t' = gu).
  { intros g0 w0 [H|[H|H]]; apply IH in H as [->|(t' & Hin & Ho & Ha)];
      auto; right; exists t'; split; auto; by right. }
  destruct (Ascii.eqb (t_opt t) "e") eqn:He; [intros H; eapply Hin; eauto|].
  destruct (Ascii.eqb (t_opt t) "d") eqn:Hd.
  { intros H. apply IH in H as [->|(t' & Hin' & Ho & Ha)].
    - right. exists t. split; [by left|]. by apply Ascii.eqb_eq in Hd.
    - right. exists t'. split; [by right|done]. }
  destruct (Ascii.eqb (t_opt t) "s") eqn:Hs; [intros H; eapply Hin; eauto|].
  destruct (Ascii.eqb (t_opt t) "h").
  { rewrite M_bind_eq. destruct (usage _ _ _). by intros [=]. }
  destruct (Ascii.eqb (t_opt t) "V").
  { rewrite M_bind_eq. by intros [=]. }
  destruct (Ascii.eqb (t_opt t) ":").
  { rewrite M_bind_eq. intros H; eapply Hin; eauto. }
  rewrite M_bind_eq. destruct (usage _ _ _). by intros [=].
Qed.

Lemma dispatch_frame sd cmd gu u r0 w code w' :
  dispatch sd cmd gu u (sd +:+ "/" +:+ u) r0 w = (code, w') →
  ∃ evs, w_trace w' = w_trace w ++ evs ∧ Forall (main_event sd u gu) evs.
Proof.
  unfold dispatch. destruct cmd.
  - intros [= <- <-]. exists []. by rewrite app_nil_r.
  - rewrite M_bind_eq.
    match goal with |- context [status ?p ?w0] =>
      pose proof (status_spec p w0) as (_ & _ & _ & _ & _ & _ & _ & _ & Htr);
      destruct (status p w0) as [st w1] end.
    cbn in Htr |- *. destruct st; cbn [negb].
    + unfold eprint. unfold_m. intros [= <- <-]. cbn.
      eexists. split; [done|]. by repeat constructor.
    + rewrite M_bind_eq.
      destruct (enable (sd +:+ "/" +:+ u) 3 w1) as [r w2] eqn:He.
      cbn [fst snd]. intros [= <- <-].
      apply enable_spec in He as (evs & Ht & Hev & _).
      exists (EvFopen (sd +:+ "/" +:+ u) false :: evs).
      rewrite Ht, Htr, <- app_assoc. split; [done|].
      constructor; [done|]. eapply Forall_impl; [exact Hev|].
      intros [] Hen; cbn in Hen |- *; try done; tauto.
  - destruct gu as [g|].
    2:{ intros [= <- <-]. exists []. by rewrite app_nil_r. }
    rewrite M_bind_eq. unfold getuid. cbn [fst snd].
    destruct (w_ruid w =? 0).
    + rewrite M_bind_eq, get_state_path_spec.
      case_decide; cbn [fst snd]; rewrite M_bind_eq;
        match goal with |- context [disable ?p ?w0] =>
          destruct (disable p w0) as [r w1] eqn:Hd end;
        apply disable_frame in Hd as ([res Ht] & _);
        cbn in Ht; cbn [fst snd]; intros [= <- <-];
        (eexists; split; [done|]);
        (apply List.Forall_cons; [|constructor]); cbn; eauto 6.
    + unfold eprint. unfold_m. intros [= <- <-]. cbn.
      exists []. by rewrite app_nil_r.
  - rewrite M_bind_eq.
    match goal with |- context [status ?p ?w0] =>
      pose proof (status_spec p w0) as (_ & _ & _ & _ & _ & _ & _ & _ & Htr);
      destruct (status p w0) as [st w1] end.
    cbn in Htr |- *. intros [= <- <-].
    eexists. split; [done|]. by repeat constructor.
  - intros [= <- <-]. exists []. by rewrite app_nil_r.
Qed.

Lemma main_frame sd ver prog args r0 w code w' :
  main sd ver prog args r0 w = (code, w') →
  ∃ evs, w_trace w' = w_trace w ++ evs ∧
    (evs = [] ∨ evs = [EvUmask mask_077]
     ∨ ∃ u g rest,
         evs = EvUmask mask_077 :: rest ∧
         w_passwd w !! w_ruid w = Some u ∧
         (∀ x, g = Some x →
               ∃ t, In t (getopt_long prog args).1
                    ∧ t_opt t = "d"%char ∧ t_optarg t = Some x) ∧
         Forall (main_event sd u g) rest).
Proof.
  unfold main. destruct (getopt_long prog args) as [toks ops].
  rewrite M_bind_eq.
  destruct (opt_loop ver prog toks CMD_NULL None w) as [parsed w1] eqn:Hl.
  pose proof Hl as Hl'.
  apply opt_loop_frame in Hl as (out & err & ->). cbn [fst snd].
  destruct parsed as [c|[cmd gu]].
  { intros [= <- <-]. exists []. rewrite app_nil_r. auto. }
  destruct (command_eqb cmd CMD_NULL || negb (length ops =? 0)%nat).
  { rewrite usage_short. intros [= <- <-]. exists []. rewrite app_nil_r. auto. }
  rewrite M_bind_eq. unfold sys_umask at 1. cbn [fst snd].
  rewrite M_bind_eq, get_user_spec.
  cbn [w_passwd w_ruid log set_umask set_stdout set_stderr].
  destruct (w_passwd w !! w_ruid w) as [u|]; cbn [fst snd].
  2:{ unfold perror, eprint. unfold_m. intros [= <- <-].
      exists [EvUmask mask_077]. split; [|auto].
      by destruct (w_getpw_errno _). }
  rewrite M_bind_eq, get_state_path_spec. case_decide; cbn [fst snd].
  { unfold perror, eprint. unfold_m. intros [= <- <-]. cbn.
    exists [EvUmask mask_077]. split; [done|]. auto. }
  intros Hd. apply dispatch_frame in Hd as (evs & Ht & Hev). cbn in Ht.
  exists (EvUmask mask_077 :: evs). rewrite Ht, <- app_assoc.
  split; [done|]. do 2 right. exists u, gu, evs. split; [done|].
  split; [done|]. split; [|done].
  intros x ->. by apply opt_loop_givenuser in Hl' as [[=]|?].
Qed.

(** ** Further properties of [enable] *)

(** X2, witness: the payload arrives in two reads and replaces the old
    configuration. *)
Lemma enable_full_writes_payload_witness :
  f_data <$> (w_files (enable alice_path 3 world_two_chunks).2 !! alice_path)
  = Some (payload (w_input world_two_chunks)) ∧
  w_files (enable alice_path 3 world_two_chunks).2 !! temp_path alice_path
  = None.
Proof.
  apply (enable_full_writes_payload alice_path 3 world_two_chunks).
  - vm_compute. constructor.
  - vm_compute. reflexivity.
Defined.

(** X3.  [enable] leaves the descriptor table as it found it: the
    descriptor of the temporary file is closed on every path that opened
    it, success or failure. *)
Theorem enable_keeps_descriptor_table sp in_fd w :
  w_fds (enable sp in_fd w).2 = w_fds w.
Proof.
  destruct (enable sp in_fd w) as [r w'] eqn:He.
  by apply enable_io in He as (_ & Hfd & _).
Qed.

(** X4.  Whatever happens, [enable] writes exactly one line to standard
    error and nothing to standard output.  When it returns true no call
    has failed and the line is the success message.  When it returns
    false the line is the [perror] of the first call that failed, with
    the [errno] of that call: the pre-unlink (unless it found nothing),
    the open, a read, a write or the rename; a later failure of the
    cleanup is not reported.  With no failed call at all the allocation
    failed and nothing else was done. *)
Theorem enable_prints_one_line sp in_fd w :
  w_stdout (enable sp in_fd w).2 = w_stdout w ∧
  ∃ evs line,
    w_trace (enable sp in_fd w).2 = w_trace w ++ evs ∧
    w_stderr (enable sp in_fd w).2 = w_stderr w ++ [line] ∧
    if (enable sp in_fd w).1 then
      first_failure evs = None ∧ line = "GAuth set up successfully" +:+ nl
    else
      match first_failure evs with
      | Some (msg, e) => line = perror_line msg e
      | None =>
          evs = [] ∧ line = perror_line "Memory allocation failed" ENOMEM
      end.
Proof.
  destruct (enable sp in_fd w) as [r w'] eqn:He.
  pose proof (enable_io _ _ _ _ _ He) as (Ho & _).
  apply enable_diag in He as (evs & line & Ht & He & Hl). cbn [fst snd].
  split; [done|]. exists evs, line. split; [done|]. split; [done|].
  destruct r; [|done]. destruct Hl as [Hn ->]. unfold first_failure.
  by rewrite Hn.
Qed.

(** What a run of [enable] without a refused call leaves behind. *)
Lemma enable_success_state sp w :
  head (w_malloc_fail w) ≠ Some true →
  refuses (w_unlink_err w) = false →
  refuses (w_open_err w) = false →
  refuses (w_rename_err w) = false →
  reads_ok (w_input w) = true →
  Forall (λ o, is_wr_err o = false) (w_write_res w) →
  ∃ w' written,
    enable sp 3 w = (true, w') ∧
    w_files w' !! sp
    = Some (mkFile written (Z.land mode_0600 (Z.lnot (w_umask w)))
              (w_euid w) (w_egid w)) ∧
    w_files w' !! temp_path sp = None ∧
    (Forall (λ o, is_short o = false) (w_write_res w) →
     written = payload (w_input w)).
Proof.
  intros Hm Hu Ho Hr Hin Hwr.
  pose proof (enable_succeeds sp w Hm Hu Ho Hr Hin Hwr) as Hs.
  destruct (enable sp 3 w) as [r w'] eqn:He. cbn in Hs. subst r.
  pose proof He as He'.
  apply enable_spec in He' as (evs & _ & _ & _ & Htmp & _ & written & Hf & Hp).
  by exists w', written.
Qed.

(** X5.  When the allocation succeeds, the system refuses none of the
    unlink, open and rename calls, no read and no write fails, [enable]
    on descriptor 3 returns true: the state path then holds a file with
    mode [0600 & ~umask] owned by the effective user and group, whatever
    was there before, and the temporary path is gone.  If moreover no write is
    short, the file holds exactly the payload. *)
Theorem enable_replaces_state_file sp w :
  head (w_malloc_fail w) ≠ Some true →
  refuses (w_unlink_err w) = false →
  refuses (w_open_err w) = false →
  refuses (w_rename_err w) = false →
  reads_ok (w_input w) = true →
  Forall (λ o, is_wr_err o = false) (w_write_res w) →
  ∃ w' written,
    enable sp 3 w = (true, w') ∧
    w_files w' !! sp
    = Some (mkFile written (Z.land mode_0600 (Z.lnot (w_umask w)))
              (w_euid w) (w_egid w)) ∧
    w_files w' !! temp_path sp = None ∧
    (Forall (λ o, is_short o = false) (w_write_res w) →
     written = payload (w_input w)).
Proof. apply enable_success_state. Qed.

Lemma enable_replaces_state_file_witness :
  ∃ w' written,
    enable alice_path 3 world_two_chunks = (true, w') ∧
    w_files w' !! alice_path
    = Some (mkFile written
              (Z.land mode_0600 (Z.lnot (w_umask world_two_chunks)))
              (w_euid world_two_chunks) (w_egid world_two_chunks)) ∧
    w_files w' !! temp_path alice_path = None ∧
    (Forall (λ o, is_short o = false) (w_write_res world_two_chunks) →
     written = payload (w_input world_two_chunks)).
Proof.
  apply (enable_replaces_state_file alice_path world_two_chunks).
  - vm_compute. discriminate.
  - reflexivity.
  - reflexivity.
  - reflexivity.
  - reflexivity.
  - vm_compute. constructor.
Defined.

(** X15.  The temporary path of a user is the state path of the user
    whose name has [.new] appended: a successful [enable] for [u] leaves
    no state file for the user [u.new]. *)
Theorem enable_clears_dot_new_user sd u in_fd w w' :
  enable (sd +:+ "/" +:+ u) in_fd w = (true, w') →
  temp_path (sd +:+ "/" +:+ u) = sd +:+ "/" +:+ (u +:+ ".new") ∧
  w_files w' !! (sd +:+ "/" +:+ (u +:+ ".new")) = None.
Proof.
  intros He. rewrite <- temp_path_under_statedir. split; [done|].
  by apply enable_spec in He as (evs & _ & _ & _ & Htmp & _).
Qed.

Lemma enable_clears_dot_new_user_witness :
  temp_path (example_statedir +:+ "/" +:+ "alice")
  = example_statedir +:+ "/" +:+ ("alice" +:+ ".new") ∧
  w_files (enable (example_statedir +:+ "/" +:+ "alice") 3
             world_dot_new_user).2
    !! (example_statedir +:+ "/" +:+ ("alice" +:+ ".new")) = None.
Proof.
  apply (enable_clears_dot_new_user example_statedir "alice" 3
           world_dot_new_user).
  vm_compute. reflexivity.
Defined.

(** ** Further properties of [main] *)

Lemma status_scripts sp w :
  w_unlink_err (status sp w).2 = w_unlink_err w ∧
  w_open_err (status sp w).2 = w_open_err w ∧
  w_rename_err (status sp w).2 = w_rename_err w ∧
  w_stderr (status sp w).2 = w_stderr w.
Proof.
  unfold status, print, fopen_r. unfold_m. cbn.
  destruct (w_fopen_res w) as [|[| |e] rest]; cbn; try done;
    destruct (w_files w !! sp) as [f|]; cbn; try done;
    by destruct (readable _ _ _ f).
Qed.

(** X6.  Provisioning, end to end.  A command line that selects
    [--enable], a known invoking user whose state path does not open for
    reading, and a system that refuses nothing while
    descriptor 3 delivers its payload without error and every write is
    complete: [main] exits 0, the state file holds exactly the payload
    with mode 0600 and the effective user and group as owner, the
    temporary file is gone, no descriptor is left open and the last line
    on standard error is the success message. *)
Theorem provisioning_end_to_end sd ver prog args r0 w toks gu u :
  getopt_long prog args = (toks, []) →
  (opt_loop ver prog toks CMD_NULL None w).1 = inr (CMD_ENABLE, gu) →
  w_passwd w !! w_ruid w = Some u →
  ¬ opens_for_reading w (sd +:+ "/" +:+ u) →
  Forall (λ b, b = false) (take 2 (w_malloc_fail w)) →
  refuses (w_unlink_err w) = false →
  refuses (w_open_err w) = false →
  refuses (w_rename_err w) = false →
  reads_ok (w_input w) = true →
  Forall (λ o, o = WrFull) (w_write_res w) →
  ∃ w',
    main sd ver prog args r0 w = (0, w') ∧
    w_files w' !! (sd +:+ "/" +:+ u)
    = Some (mkFile (payload (w_input w)) mode_0600 (w_euid w) (w_egid w)) ∧
    w_files w' !! temp_path (sd +:+ "/" +:+ u) = None ∧
    w_fds w' = w_fds w ∧
    last (w_stderr w') = Some ("GAuth set up successfully" +:+ nl).
Proof.
  intros Hg Hl Hu Hnone Hm Hun Hop Hre Hin Hwr.
  assert (Hm1 : head (w_malloc_fail w) ≠ Some true).
  { destruct (w_malloc_fail w) as [|b l]; [done|]. simpl in Hm.
    apply Forall_cons in Hm as [-> _]. done. }
  assert (Hm2 : head (tail (w_malloc_fail w)) ≠ Some true).
  { destruct (w_malloc_fail w) as [|b [|b' l]]; try done. simpl in Hm.
    apply Forall_cons in Hm as [_ Hm]. apply Forall_cons in Hm as [-> _]. done. }
  destruct (main_reaches_dispatch sd ver prog args r0 w toks CMD_ENABLE gu u)
    as (out & err & ->); try done.
  unfold dispatch. rewrite M_bind_eq.
  match goal with |- context [status ?p ?w0] =>
    pose proof (status_spec p w0)
      as (Hst & Hf & Hfd & Hi & Hum & Heu & Hmf & Hw & _);
    pose proof (status_scripts p w0) as (Hs1 & Hs2 & Hs3 & _);
    pose proof (status_ident p w0) as (Heg & _);
    destruct (status p w0) as [st w1] end.
  unfold opens_for_reading in Hst, Hnone.
  cbn in Hst, Hf, Hfd, Hi, Hum, Heu, Heg, Hmf, Hw, Hs1, Hs2, Hs3 |- *.
  destruct st.
  { destruct Hst as [Hst _]. destruct Hnone. by apply Hst. }
  cbn [negb]. rewrite M_bind_eq.
  destruct (enable_success_state (sd +:+ "/" +:+ u) w1)
    as (w2 & written & He & Hsp & Htmp & Hpay).
  { by rewrite Hmf. } { by rewrite Hs1. } { by rewrite Hs2. } { by rewrite Hs3. }
  { by rewrite Hi. }
  { rewrite Hw. eapply Forall_impl; [exact Hwr|]. by intros o ->. }
  rewrite He. cbn [fst snd]. exists w2. split; [done|].
  pose proof (enable_io _ _ _ _ _ He) as (_ & Hfd2 & line & Herr & Hline).
  rewrite Hsp, Hum, Heu, Heg, Hfd2, Hfd, Herr, last_snoc, Hline by done.
  rewrite Hpay, Hi.
  - done.
  - rewrite Hw. eapply Forall_impl; [exact Hwr|]. by intros o ->.
Qed.

Lemma provisioning_end_to_end_witness :
  ∃ w',
    main example_statedir example_version "gauthctl" ["--enable"] stale_ret
      world_S1 = (0, w') ∧
    w_files w' !! (example_statedir +:+ "/" +:+ "alice")
    = Some (mkFile (payload (w_input world_S1)) mode_0600
              (w_euid world_S1) (w_egid world_S1)) ∧
    w_files w' !! temp_path (example_statedir +:+ "/" +:+ "alice") = None ∧
    w_fds w' = w_fds world_S1 ∧
    last (w_stderr w') = Some ("GAuth set up successfully" +:+ nl).
Proof.
  apply (provisioning_end_to_end example_statedir example_version
           "gauthctl" ["--enable"] stale_ret world_S1
           [mkTok "e" None None] None "alice").
  - reflexivity.
  - reflexivity.
  - vm_compute. reflexivity.
  - intros [H|(_ & f & H & _)]; vm_compute in H; discriminate H.
  - vm_compute. constructor.
  - reflexivity.
  - reflexivity.
  - reflexivity.
  - reflexivity.
  - vm_compute. constructor.
Defined.

(** X7.  The paths [main] hands to the system.  A run makes no call on
    a file at all, or [umask] alone, or [umask] followed by calls that
    name nothing but the state path of the invoking user (the state
    directory, a slash and the name found in the password database), that
    path with [.new] appended, and, for the [unlink] of [--disable], the
    state directory, a slash and the argument of a [--disable] option of
    the command line (or NULL). *)
Theorem main_calls_only_state_paths sd ver prog args r0 w :
  ∃ evs,
    w_trace (main sd ver prog args r0 w).2 = w_trace w ++ evs ∧
    (evs = [] ∨ evs = [EvUmask mask_077]
     ∨ ∃ u g rest,
         evs = EvUmask mask_077 :: rest ∧
         w_passwd w !! w_ruid w = Some u ∧
         (∀ x, g = Some x →
               ∃ t, In t (getopt_long prog args).1
                    ∧ t_opt t = "d"%char ∧ t_optarg t = Some x) ∧
         Forall (main_event sd u g) rest).
Proof.
  destruct (main sd ver prog args r0 w) as [code w'] eqn:Hm.
  by apply main_frame in Hm.
Qed.

(** X14.  Of the calls on files, descriptors and the file mode mask that
    a run of [main] makes ([umask], [fopen], [unlink], [open], [read],
    [write] on the temporary file, [close], [rename]), [umask(077)] is the
    first, and the mask is not set a second time. *)
Theorem umask_comes_first sd ver prog args r0 w :
  ∃ evs,
    w_trace (main sd ver prog args r0 w).2 = w_trace w ++ evs ∧
    (evs = []
     ∨ ∃ rest, evs = EvUmask mask_077 :: rest
               ∧ Forall (λ ev, ∀ m, ev ≠ EvUmask m) rest).
Proof.
  destruct (main sd ver prog args r0 w) as [code w'] eqn:Hm.
  apply main_frame in Hm as (evs & Ht & Hev). exists evs. split; [done|].
  destruct Hev as [->|[->|(u & g & rest & -> & _ & _ & Hev)]]; [by left|..].
  - right. by exists [].
  - right. exists rest. split; [done|]. eapply Forall_impl; [exact Hev|].
    by intros ev Hen m ->.
Qed.

Lemma opt_loop_skip_actions ver prog pre :
  Forall tok_wf pre →
  Forall (λ t, is_action t = true) pre →
  ∀ rest c g w, ∃ c' g',
    opt_loop ver prog (pre ++ rest) c g w = opt_loop ver prog rest c' g' w.
Proof.
  induction 1 as [|t pre Ht _ IH]; intros Hact rest c g w; [by eauto|].
  apply Forall_cons in Hact as [Ha Hact]. specialize (IH Hact rest).
  cbn [app opt_loop]. rewrite M_bind_eq. cbv zeta.
  apply tok_wf_cases in Ht as [(msg & Hd & Ho)|[Hd Ho]].
  { unfold is_action in Ha. rewrite Ho in Ha. done. }
  rewrite Hd. cbn [fst snd]. unfold is_action in Ha.
  destruct Ho as [[Ho|[Ho|[Ho|Ho]]]|[Ho _]]; rewrite Ho in *;
    cbn [Ascii.eqb Bool.eqb] in *; cbv iota; try discriminate Ha; apply IH.
Qed.



(** X9.  [get_user] returns NULL exactly when the password database has
    no entry for the real user id.  Whatever command was selected, [main]
    then exits 1 having made no call but [umask]: no file is opened,
    changed or removed and descriptor 3 is not read.  Its last line on
    standard error is "Unable to get username" with the text of [errno],
    which no call of the program has set: it is what the lookup left
    there, and otherwise still the value at the start, so that a fresh
    process reports "Success". *)
Theorem unknown_user_is_refused sd ver prog args r0 w toks cmd gu :
  getopt_long prog args = (toks, []) →
  (opt_loop ver prog toks CMD_NULL None w).1 = inr (cmd, gu) →
  cmd ≠ CMD_NULL →
  w_passwd w !! w_ruid w = None →
  (get_user w).1 = None ∧
  ∃ w',
    main sd ver prog args r0 w = (1, w') ∧
    w_files w' = w_files w ∧ w_input w' = w_input w ∧
    w_trace w' = w_trace w ++ [EvUmask mask_077] ∧
    last (w_stderr w')
    = Some ("Unable to get username" +:+ ": "
            +:+ strerror (default (w_errno w) (w_getpw_errno w)) +:+ nl).
Proof.
  intros Hg Hl Hc Hu. split.
  { by rewrite get_user_spec, Hu. }
  unfold main. rewrite Hg, M_bind_eq.
  destruct (opt_loop ver prog toks CMD_NULL None w) as [parsed w1] eqn:Hl1.
  cbn [fst snd] in *. subst parsed.
  apply opt_loop_frame in Hl1 as (out & err & ->).
  replace (command_eqb cmd CMD_NULL) with false by (by destruct cmd).
  cbn [length Nat.eqb negb orb].
  rewrite M_bind_eq. unfold sys_umask at 1. cbn [fst snd].
  rewrite M_bind_eq, get_user_spec.
  cbn [w_passwd w_ruid w_getpw_errno log set_umask set_stdout set_stderr].
  rewrite Hu. unfold perror, eprint. unfold_m.
  destruct (w_getpw_errno w) as [e|]; cbn;
    (eexists; split; [done|]); cbn; by rewrite last_snoc.
Qed.

Lemma unknown_user_is_refused_witness :
  (get_user world_unknown_user).1 = None ∧
  ∃ w',
    main example_statedir example_version "gauthctl" ["--status"] stale_ret
      world_unknown_user = (1, w') ∧
    w_files w' = w_files world_unknown_user ∧
    w_input w' = w_input world_unknown_user ∧
    w_trace w' = w_trace world_unknown_user ++ [EvUmask mask_077] ∧
    last (w_stderr w') = Some ("Unable to get username: Success" +:+ nl).
Proof.
  apply (unknown_user_is_refused example_statedir example_version
           "gauthctl" ["--status"] stale_ret world_unknown_user
           [mkTok "s" None None] CMD_STATUS None).
  - reflexivity.
  - reflexivity.
  - discriminate.
  - vm_compute. reflexivity.
Defined.

(** X10.  [main] does not test the result of the second
    [get_state_path].  When root runs [--disable USERNAME] and that
    allocation fails, [disable] is called with NULL: [unlink] fails with
    EFAULT, the failure is reported, the exit status is 1 and no file is
    removed. *)
Theorem disable_with_failed_allocation sd ver prog u r0 w name :
  w_ruid w = 0 →
  w_passwd w !! 0 = Some name →
  head (w_malloc_fail w) ≠ Some true →
  head (tail (w_malloc_fail w)) = Some true →
  ∃ w',
    main sd ver prog ["--disable"; u] r0 w = (1, w') ∧
    w_files w' = w_files w ∧
    w_trace w' = w_trace w ++ [EvUmask mask_077; EvUnlink None (Err EFAULT)] ∧
    last (w_stderr w')
    = Some ("Unable to remove state file" +:+ ": " +:+ strerror EFAULT +:+ nl).
Proof.
  intros Hroot Hpw Hm1 Hm2.
  destruct (main_reaches_dispatch sd ver prog ["--disable"; u] r0 w
              [mkTok "d" (Some u) None] CMD_DISABLE (Some u) name)
    as (out & err & ->); try done; [by rewrite Hroot|].
  unfold dispatch. rewrite M_bind_eq. unfold getuid. cbn [fst snd].
  cbn [w_ruid set_malloc_fail log set_umask set_stdout set_stderr].
  rewrite Hroot. change (0 =? 0) with true. cbv iota.
  rewrite M_bind_eq, get_state_path_spec.
  cbn [w_malloc_fail set_malloc_fail log set_umask set_stdout set_stderr].
  case_decide; [|done]. cbn [fst snd].
  unfold disable, sys_unlink, get_errno, perror, eprint. unfold_m. cbn.
  eexists. split; [done|]. cbn. rewrite <- app_assoc, last_snoc. done.
Qed.

Lemma disable_with_failed_allocation_witness :
  ∃ w',
    main example_statedir example_version "gauthctl" ["--disable"; "alice"]
      stale_ret world_second_alloc_fails = (1, w') ∧
    w_files w' = w_files world_second_alloc_fails ∧
    w_trace w'
    = w_trace world_second_alloc_fails
      ++ [EvUmask mask_077; EvUnlink None (Err EFAULT)] ∧
    last (w_stderr w')
    = Some ("Unable to remove state file" +:+ ": " +:+ strerror EFAULT +:+ nl).
Proof.
  apply (disable_with_failed_allocation example_statedir example_version
           "gauthctl" "alice" stale_ret world_second_alloc_fails "root").
  - reflexivity.
  - vm_compute. reflexivity.
  - vm_compute. discriminate.
  - reflexivity.
Defined.

(** X11.  The two path buffers are exactly as large as what is written
    into them: [snprintf] returns [buf_size - 1] in [get_state_path] and
    in [enable], so nothing is truncated and the [assert] after each
    [snprintf] holds. *)
Theorem path_buffers_fit sd username state_path :
  snprintf_len (sd +:+ "/" +:+ username)
  = Z.of_nat (state_path_buf_size sd username) - 1 ∧
  snprintf_len (state_path +:+ ".new")
  = Z.of_nat (temp_path_buf_size state_path) - 1 ∧
  snprintf_len (sd +:+ "/" +:+ username)
  < Z.of_nat (state_path_buf_size sd username) ∧
  snprintf_len (state_path +:+ ".new")
  < Z.of_nat (temp_path_buf_size state_path).
Proof.
  unfold snprintf_len, state_path_buf_size, temp_path_buf_size, sizeof_literal.
  rewrite !string_app_length. cbn [String.length]. lia.
Qed.

(** X12.  The option string gives [-e] an argument.  [-e WORD] behaves
    exactly like [--enable], the word being ignored, and [-e] on its own
    is a usage error. *)
Theorem short_enable_takes_a_word sd ver prog x r0 w :
  main sd ver prog ["-e"; x] r0 w = main sd ver prog ["--enable"] r0 w ∧
  main sd ver prog ["-e"] r0 w
  = (1, set_stderr
          (w_stderr w
             ++ [prog +:+ ": option requires an argument -- '"
                   +:+ String "e" "'" +:+ nl]
             ++ usage_lines prog) w).
Proof.
  split; [reflexivity|].
  unfold main. cbn [getopt_long strip_prefix Ascii.eqb Bool.eqb scan_cluster
                      short_spec short_lookup optstring takes_arg fst snd].
  rewrite M_bind_eq. cbn [opt_loop t_diag t_opt]. rewrite M_bind_eq.
  unfold eprint at 1. cbn [fst snd Ascii.eqb Bool.eqb].
  rewrite M_bind_eq, usage_short. cbn. by rewrite <- app_assoc.
Qed.

(** X16.  The [case ':'] branch of the option loop is dead.  The option
    string does not begin with a colon, so [getopt_long] never returns
    [':']: it reports a missing argument, like any other error, as ['?']
    after printing its own diagnostic.  A command line whose first
    rejected word comes after action options only therefore ends in that
    diagnostic, the short usage text and exit status 1, without
    "missing argument." being printed. *)
Theorem missing_argument_branch_is_dead sd ver prog args r0 w pre t rest msg :
  (getopt_long prog args).1 = pre ++ t :: rest →
  Forall (λ t, is_action t = true) pre →
  t_diag t = Some msg →
  Forall (λ t, t_opt t ≠ ":"%char) (getopt_long prog args).1 ∧
  main sd ver prog args r0 w
  = (1, set_stderr (w_stderr w ++ [msg] ++ usage_lines prog) w).
Proof.
  intros Hg Hpre Hd. split.
  - eapply Forall_impl; [apply getopt_long_wf|].
    intros t' Ht%tok_wf_cases Hc.
    destruct Ht as [(msg' & _ & Ho)|(_ & [Ho|[Ho _]])]; rewrite Hc in Ho;
      [discriminate| |discriminate].
    destruct Ho as [Ho|[Ho|[Ho|Ho]]]; discriminate.
  - pose proof (getopt_long_wf prog args) as Hwf. rewrite Hg in Hwf.
    apply Forall_app in Hwf as [Hwf1 Hwf]. apply Forall_cons in Hwf as [Ht _].
    unfold tok_wf in Ht. rewrite Hd in Ht.
    unfold main. destruct (getopt_long prog args) as [toks ops].
    cbn [fst snd] in Hg. subst toks. rewrite M_bind_eq.
    destruct (opt_loop_skip_actions ver prog pre Hwf1 Hpre (t :: rest)
                CMD_NULL None w) as (c' & g' & ->).
    cbn [opt_loop]. rewrite Hd, Ht. rewrite M_bind_eq.
    unfold eprint at 1. cbn [fst snd Ascii.eqb Bool.eqb].
    rewrite M_bind_eq, usage_short. cbn. by rewrite <- app_assoc.
Qed.

Lemma missing_argument_branch_is_dead_witness :
  Forall (λ t, t_opt t ≠ ":"%char)
    (getopt_long "gauthctl" ["--status"; "-d"]).1 ∧
  main example_statedir example_version "gauthctl" ["--status"; "-d"] stale_ret
    world_S2
  = (1, set_stderr
          (w_stderr world_S2
             ++ ["gauthctl" +:+ ": option requires an argument -- '"
                   +:+ String "d" "'" +:+ nl]
             ++ usage_lines "gauthctl") world_S2).
Proof.
  apply (missing_argument_branch_is_dead example_statedir example_version
           "gauthctl" ["--status"; "-d"] stale_ret world_S2
           [mkTok "s" None None]
           (mkTok "?" None
              (Some ("gauthctl" +:+ ": option requires an argument -- '"
                       +:+ String "d" "'" +:+ nl))) []).
  - reflexivity.
  - repeat constructor.
  - reflexivity.
Defined.

Lemma enable_conflict_spec_witness :
  ∃ w',
    main example_statedir example_version "gauthctl" ["--enable"] stale_ret
      world_S2 = (201, w') ∧
    w_files w' = w_files world_S2 ∧ w_input w' = w_input world_S2 ∧
    w_trace w'
    = w_trace world_S2 ++ [EvUmask mask_077; EvFopen alice_path true] ∧
    last (w_stderr w')
    = Some ("Error: 2FA configuration exists for user alice." +:+ nl).
Proof.
  apply (enable_conflict_spec example_statedir example_version "gauthctl"
           ["--enable"] stale_ret world_S2 [mkTok "e" None None] None "alice").
  - reflexivity.
  - reflexivity.
  - vm_compute. reflexivity.
  - vm_compute. discriminate.
  - right. split; [reflexivity|]. exists old_config. vm_compute. auto.
Defined.

Lemma disable_non_root_spec_witness :
  ∃ w',
    main example_statedir example_version "gauthctl" ["--disable"; "alice"]
      stale_ret world_S4 = (201, w') ∧
    w_files w' = w_files world_S4 ∧ w_input w' = w_input world_S4 ∧
    w_trace w' = w_trace world_S4 ++ [EvUmask mask_077] ∧
    last (w_stderr w')
    = Some ("Error: Only root is allowed to disable 2FA for user alice."
            +:+ nl).
Proof.
  apply (disable_non_root_spec example_statedir example_version "gauthctl"
           ["--disable"; "alice"] stale_ret world_S4
           [mkTok "d" (Some "alice") None] "alice" "alice").
  - reflexivity.
  - reflexivity.
  - vm_compute. reflexivity.
  - vm_compute. discriminate.
  - vm_compute. discriminate.
Defined.
